(** * pensa.statesinfo.ssi_clustering: state limits from Gaussian mixtures

    A shallow embedding of [ssi_clustering.py] and the properties of its
    functions.  NumPy arrays of floats are lists over [R], the real numbers
    the floats stand for, so rounding is outside the model.  The two places
    where the code divides by a width are modelled as far as a list over [R]
    allows: in [_integral] a divisor of zero gives the infinite or undefined
    quotient the floats give, and the values of [_gauss] are stated for the
    widths of [square_in_range], whose square neither underflows to zero nor
    overflows.  Python integers are [Z], and positions in an array are [nat],
    or [Z] where the source lets them be negative.  A call either returns,
    raises, or never returns; the three are kept apart by [result].  Where
    NumPy releases differ in what [float] does with an array, the model takes
    the release as a parameter, [numpy_release]. *)

From Stdlib Require Import String.
From Stdlib Require Import Reals Lra Lia ZArith List Bool Arith.
From Stdlib Require Import Permutation Sorted.
Import ListNotations.
Open Scope R_scope.

(** * The module *)

(** ** Outcomes of a call *)

(** The exceptions the module can meet. [FitError] stands for whatever
    [scipy.optimize.curve_fit] raises when it gives up. *)
Inductive exn : Type :=
| ValueError
| IndexError
| TypeError
| UnboundLocalError
| FitError.

Inductive result (A : Type) : Type :=
| Ok (a : A)
| Raise (e : exn)
| Blocked.   (* a [PriorityQueue.get] on an empty queue never returns *)

Arguments Ok {A} a.
Arguments Raise {A} e.
Arguments Blocked {A}.

Definition bind {A B : Type} (m : result A) (k : A -> result B) : result B :=
  match m with
  | Ok a => k a
  | Raise e => Raise e
  | Blocked => Blocked
  end.

Notation "x <- m ;; k" := (bind m (fun x => k))
  (at level 61, m at next level, right associativity).
Notation "' p <- m ;; k" := (bind m (fun p => k))
  (at level 61, p pattern, m at next level, right associativity).

(** [[f(a) for a in l]] where [f] may raise. *)
Fixpoint mapM {A B : Type} (f : A -> result B) (l : list A) : result (list B) :=
  match l with
  | [] => Ok []
  | a :: l' => b <- f a ;; bs <- mapM f l' ;; Ok (b :: bs)
  end.

Definition returns {A : Type} (m : result A) : Prop := exists a, m = Ok a.

(** A call into NumPy or SciPy returns or raises. *)
Definition external {A : Type} (r : exn + A) : result A :=
  match r with
  | inl e => Raise e
  | inr a => Ok a
  end.

(** ** Python and NumPy primitives *)

Definition Rltb (a b : R) : bool := if Rlt_dec a b then true else false.
Definition Rleb (a b : R) : bool := if Rle_dec a b then true else false.
Definition Reqb (a b : R) : bool := if Req_dec_T a b then true else false.

Definition len {A : Type} (l : list A) : Z := Z.of_nat (length l).

(** [l[i]] for a position that is never negative. *)
Definition item {A : Type} (l : list A) (i : nat) : result A :=
  match nth_error l i with
  | Some a => Ok a
  | None => Raise IndexError
  end.

(** [l[i]] for a Python integer: a negative [i] counts from the end. *)
Definition getitem {A : Type} (l : list A) (i : Z) : result A :=
  let j := (if i <? 0 then i + len l else i)%Z in
  if (j <? 0)%Z then Raise IndexError else item l (Z.to_nat j).

(** [a[idx]] for a list of positions (NumPy's integer-array indexing). *)
Definition take_items {A : Type} (l : list A) (idx : list nat) : result (list A) :=
  mapM (item l) idx.

(** The builtin [min] and [max]: the first of equal candidates is kept, and an
    empty argument raises [ValueError]. *)
Definition py_min (l : list R) : result R :=
  match l with
  | [] => Raise ValueError
  | a :: l' => Ok (fold_left (fun m x => if Rltb x m then x else m) l' a)
  end.

Definition py_max (l : list R) : result R :=
  match l with
  | [] => Raise ValueError
  | a :: l' => Ok (fold_left (fun m x => if Rltb m x then x else m) l' a)
  end.

(** [list.index(v)] and [np.where(a == v)[0][0]]: the first position holding
    [v]; the two differ in what they raise when there is none. *)
Fixpoint find_index (v : R) (l : list R) : option nat :=
  match l with
  | [] => None
  | a :: l' => if Reqb a v then Some O else option_map S (find_index v l')
  end.

Definition index_of (l : list R) (v : R) : result nat :=
  match find_index v l with
  | Some i => Ok i
  | None => Raise ValueError
  end.

Definition where_first (l : list R) (v : R) : result nat :=
  match find_index v l with
  | Some i => Ok i
  | None => Raise IndexError
  end.

(** [np.linspace(start, stop, num)]: [num] points, the last one [stop] itself. *)
Definition np_linspace (start stop : R) (num : nat) : list R :=
  match num with
  | O => []
  | S O => [start]
  | S n =>
      map (fun i => start + INR i * ((stop - start) / INR n)) (seq 0 n) ++ [stop]
  end.

(** [int(n * 0.1)] for a Python integer [n]: the product truncated towards
    zero. *)
Definition int_tenth (n : Z) : Z := Z.quot n 10.

(** ** The smoothing filter *)

(** An array with its shape; [ndim] and [size] as NumPy reports them. *)
Record ndarray : Type := mk_ndarray { shape : list nat; flat : list R }.

Definition ndim (x : ndarray) : nat := length (shape x).
Definition size (x : ndarray) : Z := Z.of_nat (fold_right Nat.mul 1%nat (shape x)).
Definition array1 (l : list R) : ndarray := mk_ndarray [length l] l.

(** A bound of a slice with step [-1], as [slice.indices] clamps it. *)
Definition clamp_rev (n i : Z) : Z :=
  let i' := (if i <? 0 then i + n else i)%Z in
  if (i' <? 0)%Z then (-1)%Z else if (n <=? i')%Z then (n - 1)%Z else i'.

(** [l[start:stop:-1]]. *)
Definition slice_rev (l : list R) (start stop : Z) : list R :=
  let a := clamp_rev (len l) start in
  let b := clamp_rev (len l) stop in
  map (fun k => nth (Z.to_nat (a - Z.of_nat k)) l 0) (seq 0 (Z.to_nat (a - b))).

(** The window functions of NumPy, each over [n = 1-M, 3-M, ..., M-1]. *)
Definition window_axis (M : nat) : list R :=
  map (fun k => 1 - INR M + 2 * INR k) (seq 0 M).

Definition np_window (f : R -> R) (M : Z) : list R :=
  if (M <? 1)%Z then []
  else if (M =? 1)%Z then [1]
  else map (fun n => f (n / (IZR M - 1))) (window_axis (Z.to_nat M)).

Definition np_hanning : Z -> list R :=
  np_window (fun t => 0.5 + 0.5 * cos (PI * t)).
Definition np_hamming : Z -> list R :=
  np_window (fun t => 0.54 + 0.46 * cos (PI * t)).
Definition np_bartlett : Z -> list R :=
  np_window (fun t => if Rleb t 0 then 1 + t else 1 - t).
Definition np_blackman : Z -> list R :=
  np_window (fun t => 0.42 + 0.5 * cos (PI * t) + 0.08 * cos (2 * PI * t)).
Definition np_ones (M : Z) : list R := repeat 1 (Z.to_nat M).

Definition Rsum (l : list R) : R := fold_right Rplus 0 l.

Fixpoint dot (a v : list R) : R :=
  match a, v with
  | x :: a', y :: v' => x * y + dot a' v'
  | _, _ => 0
  end.

Fixpoint correlate_valid (a v : list R) (count : nat) : list R :=
  match count with
  | O => []
  | S c => dot a v :: correlate_valid (tl a) v c
  end.

(** [np.convolve(a, v, mode='valid')]: the longer argument slides over the
    reversed shorter one, one output per full overlap. *)
Definition np_convolve_valid (a v : list R) : result (list R) :=
  match a, v with
  | [], _ | _, [] => Raise ValueError
  | _, _ =>
      let (a, v) := if (length a <? length v)%nat then (v, a) else (a, v) in
      Ok (correlate_valid a (rev v) (length a - length v + 1))
  end.

Definition window_names : list string :=
  ["flat"; "hanning"; "hamming"; "bartlett"; "blackman"]%string.

Definition eval_window (window_type : string) (window_len : Z) : list R :=
  if String.eqb window_type "hanning" then np_hanning window_len
  else if String.eqb window_type "hamming" then np_hamming window_len
  else if String.eqb window_type "bartlett" then np_bartlett window_len
  else np_blackman window_len.

(** [smooth(x, window_len, window=None)].  [window_type] is bound only when
    [window] is [None]; reading it unbound raises [UnboundLocalError]. *)
Definition smooth (x : ndarray) (window_len : Z) (window : option string)
  : result ndarray :=
  let window_type : option string :=
    match window with None => Some "hanning"%string | Some _ => None end in
  if negb (ndim x =? 1)%nat then Raise ValueError
  else if (size x <? window_len)%Z then Raise ValueError
  else if (window_len <? 3)%Z then Ok x
  else
    match window_type with
    | None => Raise UnboundLocalError
    | Some wt =>
        if negb (existsb (String.eqb wt) window_names) then Raise ValueError
        else
          let s := slice_rev (flat x) (window_len - 1) 0 ++ flat x
                   ++ slice_rev (flat x) (-2) (- window_len - 1) in
          let w := if String.eqb wt "flat" then np_ones window_len
                   else eval_window wt window_len in
          y <- np_convolve_valid (map (fun wi => wi / Rsum w) w) s ;;
          Ok (array1 y)
    end.

(** ** The nearest-value finder *)

Fixpoint argmin_from (best : R) (best_at next : nat) (l : list R) : nat :=
  match l with
  | [] => best_at
  | a :: l' =>
      if Rltb a best then argmin_from a next (S next) l'
      else argmin_from best best_at (S next) l'
  end.

(** [a.argmin()]: the first position of the least entry. *)
Definition np_argmin (l : list R) : result nat :=
  match l with
  | [] => Raise ValueError
  | a :: l' => Ok (argmin_from a 0 1 l')
  end.

Definition find_nearest (distr : list R) (value : R) : result R :=
  idx <- np_argmin (map (fun a => Rabs (a - value)) distr) ;;
  item distr idx.

(** ** The Gaussian family *)

(** [_gauss(x, x0, sigma, a)] over an x-axis array.  [gaussian] is assigned
    under [if sigma != 0] only, so the [return] reads an unbound local when
    [sigma] is zero.  The doubles are taken as the reals they stand for: the
    model follows the code where [sigma ** 2] and its double are positive
    finite doubles.  For a [sigma] that is not zero but so small that the
    code rounds its square to [0.0] (a magnitude below about 1.5e-162), the
    code divides by zero and hands back "not a number" at [x0] and 0
    elsewhere, which a list over [R] does not show; the values of the curve
    are therefore stated for the widths of [square_in_range] only. *)
Definition _gauss (x : list R) (x0 sigma a : R) : result (list R) :=
  if negb (Reqb sigma 0)
  then Ok (map (fun xi => Rabs (a * exp (- (xi - x0) ^ 2 / (2 * sigma ^ 2)))) x)
  else Raise UnboundLocalError.

(** The ten fitting modes, in the order of the table [peak_number]. *)
Inductive model : Type :=
| gauss_model | _bimodal | _trimodal | _quadmodal | _quinmodal
| _sexmodal | _septmodal | _octomodal | _nonamodal | _decamodal.

Definition peak_number : list model :=
  [gauss_model; _bimodal; _trimodal; _quadmodal; _quinmodal;
   _sexmodal; _septmodal; _octomodal; _nonamodal; _decamodal].

Definition components (m : model) : nat :=
  match m with
  | gauss_model => 1 | _bimodal => 2 | _trimodal => 3 | _quadmodal => 4
  | _quinmodal => 5 | _sexmodal => 6 | _septmodal => 7 | _octomodal => 8
  | _nonamodal => 9 | _decamodal => 10
  end%nat.

Definition np_add (a b : list R) : list R := map (fun p => fst p + snd p) (combine a b).

Fixpoint add_gauss (acc x args : list R) (n : nat) : result (list R) :=
  match n, args with
  | O, [] => Ok acc
  | S n', mu :: sigma :: A :: rest =>
      g <- _gauss x mu sigma A ;; add_gauss (np_add acc g) x rest n'
  | _, _ => Raise TypeError
  end.

(** A call [mode(x, *args)]: a [TypeError] before the body runs for a number
    of arguments other than three per component, and otherwise the sum of
    the [components mode] Gaussians, taken from left to right. *)
Definition call_model (m : model) (x args : list R) : result (list R) :=
  if (length args =? 3 * components m)%nat then
    match args with
    | mu :: sigma :: A :: rest =>
        g <- _gauss x mu sigma A ;; add_gauss g x rest (components m - 1)
    | _ => Raise TypeError
    end
  else Raise TypeError.

(** ** The k-closest selector *)

(** The text ["{} ".format(v)] of a float, which [float] reads back as [v]. *)
Inductive pystr : Type := Fmt (v : R).
Definition float_of (s : pystr) : R := match s with Fmt v => v end.

(** A [PriorityQueue] of [(priority, position)] tuples, kept as the ascending
    list of its entries: [get] hands out the least tuple first. *)
Definition entry : Type := (R * Z)%type.

Definition entry_ltb (a b : entry) : bool :=
  Rltb (fst a) (fst b) || (Reqb (fst a) (fst b) && (snd a <? snd b)%Z).

Fixpoint pq_put (e : entry) (q : list entry) : list entry :=
  match q with
  | [] => [e]
  | h :: q' => if entry_ltb e h then e :: q else h :: pq_put e q'
  end.

Definition pq_get (q : list entry) : result (entry * list entry) :=
  match q with
  | [] => Blocked
  | h :: q' => Ok (h, q')
  end.

Definition py_range (a b : Z) : list Z :=
  map (fun i => (a + Z.of_nat i)%Z) (seq 0 (Z.to_nat (b - a))).

(** A [for] loop over [l] threading the state [s]. *)
Fixpoint for_each {S A : Type} (l : list A) (s : S) (body : A -> S -> result S)
  : result S :=
  match l with
  | [] => Ok s
  | a :: l' => s' <- body a s ;; for_each l' s' body
  end.

(** The body of [for neighb in range(k)]: the first [k] entries fill the heap. *)
Definition fill_step (arr : list R) (x : R) (neighb : Z) (pq : list entry)
  : result (list entry) :=
  v <- getitem arr neighb ;;
  Ok (pq_put (- Rabs (v - x), neighb) pq).

(** The body of [for neighb in range(k, n)]: the entry at the root leaves the
    heap, and either goes back or gives its place to [neighb]. *)
Definition select_step (arr : list R) (x : R) (neighb : Z) (pq : list entry)
  : result (list entry) :=
  v <- getitem arr neighb ;;
  let diff := Rabs (v - x) in
  '(p, pi, pq) <- pq_get pq ;;
  let curr := - p in
  if Rltb curr diff then Ok (pq_put (- curr, pi) pq)
  else Ok (pq_put (- diff, neighb) pq).

(** The positions left in the heap when both loops of [printKclosest] are
    done, in the order the final [while] takes them out. *)
Definition closest_positions (arr : list R) (n : Z) (x : R) (k : Z) : result (list Z) :=
  pq <- for_each (py_range 0 k) [] (fill_step arr x) ;;
  pq <- for_each (py_range k n) pq (select_step arr x) ;;
  Ok (map snd pq).

Definition printKclosest (arr : list R) (n : Z) (x : R) (k : Z) : result (list pystr) :=
  qs <- closest_positions arr n x k ;;
  mapM (fun q => v <- getitem arr q ;; Ok (Fmt v)) qs.

(** ** Peak detection and the first guess *)

(** [argrelextrema(y, np.greater)[0]]: the positions strictly above both
    neighbours; the two ends never qualify. *)
Fixpoint relmax_from (i : nat) (y : list R) : list nat :=
  match y with
  | a :: ((b :: c :: _) as y') =>
      (if Rltb a b && Rltb c b then [S i] else []) ++ relmax_from (S i) y'
  | _ => []
  end.

Definition argrelextrema_greater (y : list R) : list nat := relmax_from 0 y.

(** The number of closest neighbours asked of [printKclosest]. *)
Definition noc : Z := 28.

(** For one retained peak of height [extrema]: the x of the peak, and the x
    nearest to it among the [noc] samples closest to half its height. *)
Definition half_height_x (distributionx distributiony : list R) (extrema : R)
  : result (R * R) :=
  peak_at <- where_first distributiony extrema ;;
  mean_xval <- item distributionx peak_at ;;
  closest <- printKclosest distributiony (len distributiony) (extrema * 0.5) noc ;;
  xlist <- mapM (fun closesty => where_first distributiony (float_of closesty)) closest ;;
  xs <- take_items distributionx xlist ;;
  xsig <- find_nearest xs mean_xval ;;
  Ok (mean_xval, xsig).

(** The value the source binds to [FWHM], and the [sigma] it derives. *)
Definition peak_FWHM (distributionx distributiony : list R) (extrema : R) : result R :=
  '(mean_xval, xsig) <- half_height_x distributionx distributiony extrema ;;
  Ok (Rabs (xsig - mean_xval)).

Definition peak_sigma (distributionx distributiony : list R) (extrema : R) : result R :=
  FWHM <- peak_FWHM distributionx distributiony extrema ;;
  Ok (FWHM / (2 * sqrt (2 * ln 2))).

(** The maxima that pass the 0.75 % cutoff. [max(distributiony)] is evaluated
    once per candidate, so not at all when there is none. *)
Definition significant (distributiony maxima : list R) : result (list R) :=
  match maxima with
  | [] => Ok []
  | _ =>
      top <- py_max distributiony ;;
      Ok (filter (fun item => Rltb (top * 0.0075) item) maxima)
  end.

Fixpoint interleave3 (means sigmas heights : list R) : list R :=
  match means, sigmas, heights with
  | m :: ms, s :: ss, h :: hs => m :: s :: h :: interleave3 ms ss hs
  | _, _, _ => []
  end.

(** The lists [mean_pop] and [sigma_pop]: the x of each retained peak and
    its estimated width. *)
Definition first_guess (distributionx distributiony corrected_extrema : list R)
  : result (list R * list R) :=
  sig_vals <- mapM (peak_sigma distributionx distributiony) corrected_extrema ;;
  mean_vals <- mapM (fun extrema =>
                       peak_at <- where_first distributiony extrema ;;
                       item distributionx peak_at) corrected_extrema ;;
  Ok (mean_vals, sig_vals).

(** [mode = peak_number[len(sig_vals) - 1]]. *)
Definition select_mode (sig_vals : list R) : result model :=
  getitem peak_number (len sig_vals - 1).

(** [np.linspace(0, L - 3, int(L / 3))] with each point passed through [int]. *)
Definition gauss_num_space (L : nat) : list nat :=
  match (L / 3)%nat with
  | O => []
  | S O => [O]
  | S m => map (fun i => (i * (L - 3) / m)%nat) (seq 0 (S m))
  end.

(** ** The intersection resolver *)

Definition np_sign (r : R) : R :=
  if Rltb r 0 then -1 else if Rltb 0 r then 1 else 0.

Fixpoint np_diff (l : list R) : list R :=
  match l with
  | a :: ((b :: _) as l') => (b - a) :: np_diff l'
  | _ => []
  end.

(** [a - b] on arrays: entry by entry, a one-entry array stretched to the
    other's length, and [ValueError] for any other pair of lengths. *)
Definition np_sub (a b : list R) : result (list R) :=
  if (length a =? length b)%nat
  then Ok (map (fun p => fst p - snd p) (combine a b))
  else if (length b =? 1)%nat then Ok (map (fun x => x - hd 0 b) a)
  else if (length a =? 1)%nat then Ok (map (fun y => hd 0 a - y) b)
  else Raise ValueError.

Fixpoint argwhere_from (i : nat) (l : list R) : list nat :=
  match l with
  | [] => []
  | a :: l' => (if Reqb a 0 then [] else [i]) ++ argwhere_from (S i) l'
  end.

(** [np.argwhere(a).flatten()]: the positions of the non-zero entries. *)
Definition np_argwhere (l : list R) : list nat := argwhere_from 0 l.

Fixpoint insert_sorted (a : R) (l : list R) : list R :=
  match l with
  | [] => [a]
  | b :: l' => if Rleb a b then a :: l else b :: insert_sorted a l'
  end.

(** [sorted(l)] and [np.sort(l)]. *)
Definition py_sorted (l : list R) : list R := fold_right insert_sorted [] l.
Definition np_sort (l : list R) : list R := py_sorted l.

(** [list(g).index(max(g))]: where the curve [g] peaks. *)
Definition peak_position (g : list R) : result nat :=
  top <- py_max g ;; index_of g top.

(** What [float(a)] does with an array [a] of one dimension sets NumPy
    releases apart: 1.26 and the releases before it hand back the entry of a
    one-entry array, 2.4 raises [TypeError] for every array that is not
    zero-dimensional.  An array of several entries, or of none, is a
    [TypeError] in both. *)
Inductive numpy_release : Type := numpy_1_26 | numpy_2_4.

Definition float_of_array (numpy : numpy_release) (a : list R) : result R :=
  match numpy, a with
  | numpy_1_26, [v] => Ok v
  | _, _ => Raise TypeError
  end.

(** The state limit between two neighbouring curves: the body of the loop
    over [gauss_index], with [g1 = reorder_gaussians[gauss_index]] and
    [g2 = reorder_gaussians[gauss_index+1]]. *)
Definition state_limit (numpy : numpy_release) (g1 g2 xline : list R) : result R :=
  d <- np_sub g1 g2 ;;
  let idx := np_argwhere (np_diff (map np_sign d)) in
  if (length idx =? 1)%nat then
    xs <- take_items xline idx ;; item xs 0
  else if negb (length idx =? 0)%nat then
    ys <- take_items g1 idx ;;
    intersect_ymax <- py_max ys ;;
    let intersect_ymax_index :=
      filter (fun item => Reqb (nth item g1 0) intersect_ymax) idx in
    xs <- take_items xline intersect_ymax_index ;;
    float_of_array numpy xs
  else
    gauss_max1 <- peak_position g1 ;;
    gauss_max2 <- peak_position g2 ;;
    x2 <- item xline gauss_max2 ;;
    x1 <- item xline gauss_max1 ;;
    Ok (0.5 * Rabs (x2 + x1)).

Fixpoint state_limits_between (numpy : numpy_release)
    (reorder_gaussians : list (list R)) (xline : list R) : result (list R) :=
  match reorder_gaussians with
  | g1 :: ((g2 :: _) as rest) =>
      b <- state_limit numpy g1 g2 xline ;;
      bs <- state_limits_between numpy rest xline ;;
      Ok (b :: bs)
  | _ => Ok []
  end.

(** The curves in the order of their peaks, without those that peak at or
    below [0.0001]. *)
Definition reorder (gaussians : list (list R)) (xline : list R)
  : result (list (list R)) :=
  mean_gauss_xval <- mapM (fun g => top_at <- peak_position g ;; item xline top_at)
                       gaussians ;;
  reorder_indices <- mapM (index_of mean_gauss_xval) (py_sorted mean_gauss_xval) ;;
  kept <- mapM (fun gauss_num =>
                  g <- item gaussians gauss_num ;;
                  top <- py_max g ;;
                  Ok (if Rltb 0.0001 top then [g] else [])) reorder_indices ;;
  Ok (concat kept).

(** [get_intersects(gaussians, distribution, xline)]; the optional plot is a
    side effect on files and is left out. *)
Definition get_intersects (numpy : numpy_release) (gaussians : list (list R))
    (distribution xline : list R) : result (list R) :=
  lo <- py_min distribution ;;
  reorder_gaussians <- reorder gaussians xline ;;
  between <- state_limits_between numpy reorder_gaussians xline ;;
  hi <- py_max distribution ;;
  Ok ((lo :: between) ++ [hi]).

(** ** Fitting, retrying, and the state limits *)

Section Pipeline.

(** What the module takes from NumPy and SciPy without defining it:
    [np.histogram(distribution, bins, density=True)] giving the densities and
    the bin edges, [curve_fit(mode, x, y, p0)] giving the fitted parameters, and
    [math.erf]. *)
Variable np_histogram : list R -> Z -> exn + (list R * list R).
Variable curve_fit : model -> list R -> list R -> list R -> exn + list R.
Variable erf : R -> R.
Variable numpy : numpy_release.

(** A double that may be "not a number", which [None] stands for. *)
Definition float : Type := option R.

(** [math.erf(num / den)] on NumPy doubles.  A division by zero does not
    raise: the quotient is infinite, where [erf] is 1 or -1, and it is not a
    number when the numerator is zero as well.  The divisor [-0.0] swaps the
    two signs, in [intmax] and [intmin] alike, which the one use of
    [_integral], the comparison of their difference in [keep_component], does
    not see. *)
Definition erf_of_quotient (num den : R) : float :=
  if Reqb den 0 then
    if Rltb 0 num then Some 1 else if Rltb num 0 then Some (-1) else None
  else Some (erf (num / den)).

(** [_integral(x, mu, sigma, A)], as [gauss_fit] calls it. *)
Definition _integral (x mu sigma A : R) : float :=
  option_map (fun e => (A / 2) * (1 + e))
    (erf_of_quotient (x - mu) (sigma * sqrt 2)).

(** [np.abs(intmax - intmin) > bound]: false when either is not a number. *)
Definition differ_by_more_than (bound : R) (intmax intmin : float) : bool :=
  match intmax, intmin with
  | Some a, Some b => Rltb bound (Rabs (a - b))
  | _, _ => false
  end.

(** The body of the pruning loop for the component at [gauss_index]. *)
Definition keep_component (distribution xline params : list R) (gauss_index : nat)
  : result (list (list R)) :=
  hi <- py_max distribution ;;
  mu <- item params (0 + gauss_index) ;;
  sigma <- item params (1 + gauss_index) ;;
  A <- item params (2 + gauss_index) ;;
  let intmax := _integral hi mu sigma A in
  lo <- py_min distribution ;;
  let intmin := _integral lo mu sigma A in
  if differ_by_more_than 0.02 intmax intmin
  then g <- _gauss xline mu sigma A ;; Ok [g]
  else Ok [].

(** The number of points of the x-axis the fitted curves are drawn on. *)
Definition grid_points : nat := Z.to_nat 10000.
Arguments grid_points : simpl never.

Definition gauss_fit (distribution : list R) (gauss_bin gauss_smooth : Z)
  : result (list (list R) * list R) :=
  histo <- external (np_histogram distribution gauss_bin) ;;
  sx <- smooth (array1 (removelast (snd histo))) gauss_smooth None ;;
  let distributionx := flat sx in
  base <- py_min (fst histo) ;;
  sy <- smooth (array1 (map (fun h => h - base) (fst histo))) gauss_smooth None ;;
  let distributiony := flat sy in
  maxima <- take_items distributiony (argrelextrema_greater distributiony) ;;
  corrected_extrema <- significant distributiony maxima ;;
  '(mean_pop, sigma_pop) <- first_guess distributionx distributiony corrected_extrema ;;
  lo <- py_min distribution ;;
  hi <- py_max distribution ;;
  let xline := np_linspace lo hi grid_points in
  mode <- select_mode sigma_pop ;;
  let expected := interleave3 mean_pop sigma_pop corrected_extrema in
  params <- external (curve_fit mode distributionx distributiony expected) ;;
  kept <- mapM (keep_component distribution xline params)
            (gauss_num_space (length params)) ;;
  Ok (concat kept, xline).

(** [np.insert(arr, obj, values)]: [values[j]] goes in front of the entry that
    [arr] holds at [obj[j]], or at the end when [obj[j]] is [len(arr)]. *)
Fixpoint np_insert_from (i : nat) (arr : list Z) (ins : list (nat * Z)) : list Z :=
  match arr with
  | [] => map snd (filter (fun p => (i <=? fst p)%nat) ins)
  | a :: arr' =>
      map snd (filter (fun p => (fst p =? i)%nat) ins)
        ++ a :: np_insert_from (S i) arr' ins
  end.

Definition np_insert (arr : list Z) (obj : list nat) (values : list Z) : list Z :=
  np_insert_from 0 arr (combine obj values).

Definition bin_adjust_up : list Z := py_range 1 10000.
Definition bin_adjust_down : list Z := map (fun u => (u * -1)%Z) bin_adjust_up.
Definition bin_adjust : list Z :=
  np_insert bin_adjust_up (seq 0 (length bin_adjust_down)) bin_adjust_down.
Arguments bin_adjust : simpl never.

(** One call of [gauss_fit] as the retry loop makes it: the bin count and the
    smoothing window it is given. *)
Definition attempt : Type := (Z * Z)%type.

(** The [while trial < 1] loop from the state [(attempt_no, gauss_bins)]: the
    calls made, in order, and how the loop ends.  A bare [except] catches every
    exception of [gauss_fit]; the [IndexError] of [bin_adjust[attempt_no]] is
    raised inside the handler and leaves the function.  [fuel] bounds the
    number of iterations. *)
Fixpoint retry_loop (distr : list R) (bin_origin gauss_smooth : Z)
    (fuel attempt_no : nat) (gauss_bins : Z)
  : list attempt * result (list (list R) * list R) :=
  match fuel with
  | O => ([], Blocked)
  | S fuel' =>
      match gauss_fit distr gauss_bins gauss_smooth with
      | Ok fit => ([(gauss_bins, gauss_smooth)], Ok fit)
      | Blocked => ([(gauss_bins, gauss_smooth)], Blocked)
      | Raise _ =>
          let attempt_no := S attempt_no in
          match item bin_adjust attempt_no with
          | Ok adjust =>
              let rest :=
                retry_loop distr bin_origin gauss_smooth fuel' attempt_no
                  (bin_origin + adjust)%Z in
              ((gauss_bins, gauss_smooth) :: fst rest, snd rest)
          | Raise e => ([(gauss_bins, gauss_smooth)], Raise e)
          | Blocked => ([(gauss_bins, gauss_smooth)], Blocked)
          end
      end
  end.

(** [smart_gauss_fit(distr, gauss_bins, gauss_smooth)], with the calls of
    [gauss_fit] it made.  The advisory message printed after the loop is not
    part of what is returned and is left out. *)
Definition smart_gauss_fit_calls (distr : list R) (gauss_bins : Z)
    (gauss_smooth : option Z)
  : list attempt * result (list (list R) * list R) :=
  let bin_origin := gauss_bins in
  let gauss_smooth :=
    match gauss_smooth with
    | None => int_tenth gauss_bins
    | Some w => w
    end in
  retry_loop distr bin_origin gauss_smooth (S (length bin_adjust)) 0 gauss_bins.

Definition smart_gauss_fit (distr : list R) (gauss_bins : Z) (gauss_smooth : option Z)
  : result (list (list R) * list R) :=
  snd (smart_gauss_fit_calls distr gauss_bins gauss_smooth).

(** [determine_state_limits(distr, gauss_bins, gauss_smooth)]. *)
Definition determine_state_limits (distr : list R) (gauss_bins : Z)
    (gauss_smooth : option Z) : result (list R) :=
  let new_dist := distr in
  let distribution := filter (fun item => negb (Reqb item 10000)) new_dist in
  '(gaussians, xline) <- smart_gauss_fit distribution gauss_bins gauss_smooth ;;
  intersection_of_states <- get_intersects numpy gaussians distribution xline ;;
  let intersection_of_states :=
    if (1 <=? length (filter (fun item => Reqb item 10000) distr))%nat
    then intersection_of_states ++ [20000]
    else intersection_of_states in
  Ok (np_sort intersection_of_states).

End Pipeline.

(** * Vocabulary of the properties *)

(** ** Outcomes *)

Definition unblocked {A : Type} (m : result A) : Prop := m <> Blocked.

(** ** The single-Gaussian evaluator *)

(** The value an evaluator without a test on [sigma] would hand back. *)
Definition gauss_formula (x0 sigma a xi : R) : R :=
  Rabs a * exp (- (xi - x0) ^ 2 / (2 * sigma ^ 2)).

(** The widths whose square is a positive double with a finite double: at
    least [2^-1074], the least positive double, so that the square is not
    rounded to [0.0], and at most [2^1022], so that twice the square is still
    finite. *)
Definition square_in_range (sigma : R) : Prop :=
  / 2 ^ 1074 <= sigma ^ 2 <= 2 ^ 1022.

(** ** The Gaussian mixtures *)

(** The widths among the arguments [mu1, sigma1, A1, mu2, ...] of a mixture,
    and the sum of its components at one point. *)
Fixpoint widths (args : list R) : list R :=
  match args with
  | _ :: sigma :: _ :: rest => sigma :: widths rest
  | _ => []
  end.

Fixpoint mixture_value (args : list R) (xi : R) : R :=
  match args with
  | mu :: sigma :: A :: rest => gauss_formula mu sigma A xi + mixture_value rest xi
  | _ => 0
  end.

(** ** The heap of the k-closest selector *)

(** The order [get] follows puts the larger priority later. *)
Definition by_priority (a b : entry) : Prop := fst a <= fst b.

(** How far the entry at position [q] is from the target. *)
Definition gap (arr : list R) (x : R) (q : Z) : R :=
  Rabs (nth (Z.to_nat q) arr 0 - x).

(** The heap after the entries below [m] have been seen: ordered for [get],
    each tuple the negated gap of a position below [m], no position twice, and
    no position left out that is closer than one that is in. *)
Record heap_ok (arr : list R) (x : R) (m : Z) (pq : list entry) : Prop := {
  ok_sorted : StronglySorted by_priority pq;
  ok_entries :
    Forall (fun e => (0 <= snd e < m)%Z /\ fst e = - gap arr x (snd e)) pq;
  ok_nodup : NoDup (map snd pq);
  ok_best : forall j, (0 <= j < m)%Z -> ~ In j (map snd pq) ->
                      Forall (fun e => gap arr x (snd e) <= gap arr x j) pq
}.

(** ** The retry loop *)

(** Two arrays in alternation, the first one leading. *)
Fixpoint alternate (down up : list Z) : list Z :=
  match down, up with
  | d :: down', u :: up' => d :: u :: alternate down' up'
  | _, _ => []
  end.

(** The window a call is given when none, or [w], was configured. *)
Definition window_used (gauss_bins : Z) (gauss_smooth : option Z) : Z :=
  match gauss_smooth with
  | None => int_tenth gauss_bins
  | Some w => w
  end.

(** ** The intersection resolver and the orchestrator *)

(** Where the sign of [g1 - g2] changes along the grid. *)
Definition crossings (g1 g2 : list R) : result (list nat) :=
  d <- np_sub g1 g2 ;; Ok (np_argwhere (np_diff (map np_sign d))).

(** The x at which a curve peaks. *)
Definition peak_x (g xline : list R) : result R :=
  top_at <- peak_position g ;; item xline top_at.

(** The fallback is sound for a pair when its two peaks have a sum that is
    not negative; for a sequence of curves, when it is for every pair of
    neighbours that do not cross. *)
Fixpoint fallback_sound (reorder_gaussians : list (list R)) (xline : list R) : Prop :=
  match reorder_gaussians with
  | g1 :: ((g2 :: _) as rest) =>
      (forall x1 x2,
          crossings g1 g2 = Ok [] ->
          peak_x g1 xline = Ok x1 -> peak_x g2 xline = Ok x2 -> 0 <= x1 + x2)
      /\ fallback_sound rest xline
  | _ => True
  end.

(** The sign of [g1 - g2] is not the same at the positions [i] and [i + 1]. *)
Definition sign_change (g1 g2 : list R) (i : nat) : Prop :=
  exists a1 a2 b1 b2,
    nth_error g1 i = Some a1 /\ nth_error g2 i = Some a2
    /\ nth_error g1 (S i) = Some b1 /\ nth_error g2 (S i) = Some b2
    /\ np_sign (b1 - b2) <> np_sign (a1 - a2).

(** The sample without the sentinel, as [determine_state_limits] filters it. *)
Definition without_sentinel (distr : list R) : list R :=
  filter (fun item => negb (Reqb item 10000)) distr.

(** ** Concrete inputs *)

(** A sample of five values between 25000 and 25005.8, its density histogram
    over 29 bins of width 0.2, and the left bin edges. *)
Definition sample : list R := [25000; 25000.3; 25000.3; 25000.5; 25005.8].

Definition sample_edges : list R :=
  [25000; 25000.2; 25000.4; 25000.6; 25000.8; 25001; 25001.2; 25001.4;
   25001.6; 25001.8; 25002; 25002.2; 25002.4; 25002.6; 25002.8; 25003;
   25003.2; 25003.4; 25003.6; 25003.8; 25004; 25004.2; 25004.4; 25004.6;
   25004.8; 25005; 25005.2; 25005.4; 25005.6; 25005.8].

Definition sample_density : list R :=
  [1; 2; 1; 0; 0; 0; 0; 0; 0; 0; 0; 0; 0; 0; 0; 0; 0; 0; 0; 0; 0; 0; 0; 0; 0;
   0; 0; 0; 1].

Definition sample_x : list R := removelast sample_edges.

(** What NumPy and SciPy do on that sample: the histogram of [sample] over
    29 bins; a fit that settles on one Gaussian at the peak; and a two-valued
    stand-in for [math.erf], which is within 0.32 of it everywhere and decides
    the pruning test the same way here. *)
Definition sample_histogram (distribution : list R) (bins : Z)
  : exn + (list R * list R) :=
  inr (sample_density, sample_edges).

Definition sample_fit (mode : model) (x y p0 : list R) : exn + list R :=
  inr [25000.2; 0.2; 2].

Definition step_erf (t : R) : R := if Rltb 0 t then 1 else -1.

(** A run without peaks: a histogram whose one inner maximum, of height 1,
    is below 0.75 % of the top density 1000, and a fit that gives up. *)
Definition flat_histogram (distribution : list R) (bins : Z)
  : exn + (list R * list R) :=
  inr ([1000; 0; 1; 0; 1000], [0; 1; 2; 3; 4; 5]).

Definition fit_gives_up (mode : model) (x y p0 : list R) : exn + list R :=
  inl FitError.

(** A sample of twenty values between 0 and 3.2, most of them in two
    clusters near 0.15 and 0.55, its density histogram over 32 bins of width
    0.1, and the bin edges. *)
Definition two_peaks : list R :=
  [0; 0.05; 0.15; 0.15; 0.15; 0.15; 0.15; 0.15; 0.15; 0.15; 0.25; 0.25;
   0.45; 0.55; 0.55; 0.55; 0.55; 0.65; 3.15; 3.2].

Definition two_peaks_density : list R :=
  [1; 4; 1; 0; 0.5; 2; 0.5; 0; 0; 0; 0; 0; 0; 0; 0; 0; 0; 0; 0; 0; 0; 0; 0; 0;
   0; 0; 0; 0; 0; 0; 0; 1].

Definition two_peaks_edges : list R :=
  [0; 0.1; 0.2; 0.3; 0.4; 0.5; 0.6; 0.7; 0.8; 0.9; 1; 1.1; 1.2; 1.3; 1.4; 1.5;
   1.6; 1.7; 1.8; 1.9; 2; 2.1; 2.2; 2.3; 2.4; 2.5; 2.6; 2.7; 2.8; 2.9; 3; 3.1;
   3.2].

Definition two_peaks_x : list R := removelast two_peaks_edges.

(** What NumPy and SciPy are taken to do on that sample: the histogram of
    [two_peaks] over 32 bins; a fit of the two-component mode that settles
    on a broad component centred at the least value and a small one centred
    at the greatest; and a three-valued stand-in for [math.erf], exact at 0
    and at both infinities. *)
Definition two_peaks_histogram (distribution : list R) (bins : Z)
  : exn + (list R * list R) :=
  inr (two_peaks_density, two_peaks_edges).

Definition two_peaks_fit (mode : model) (x y p0 : list R) : exn + list R :=
  inr [0; 3.2; 4; 3.2; 0.1; 0.1].

Definition sign_erf (t : R) : R :=
  if Rltb 0 t then 1 else if Rltb t 0 then -1 else 0.

(** The grid of that run and the two fitted curves on it: a broad one that
    peaks at 0 with height 4, and a thin one that peaks at 3.2 with height
    0.1. *)
Definition two_peaks_grid : list R := np_linspace 0 3.2 grid_points.
Definition two_peaks_wide : list R := map (gauss_formula 0 3.2 4) two_peaks_grid.
Definition two_peaks_thin : list R := map (gauss_formula 3.2 0.1 0.1) two_peaks_grid.

(** Two curves on the grid [-3, -2, -1, 0] that peak at -2 and at -1, the
    first above the second everywhere. *)
Definition grid4 : list R := [-3; -2; -1; 0].
Definition upper_curve : list R := [2; 3; 2; 2].
Definition lower_curve : list R := [1; 1; 1.5; 1].

(** * Properties *)

(** ** Outcomes *)

Lemma bind_Ok {A B : Type} (m : result A) (k : A -> result B) (b : B) :
  bind m k = Ok b -> exists a, m = Ok a /\ k a = Ok b.
Proof.
  destruct m as [a | e | ]; simpl; intros H; try discriminate.
  exists a; split; [reflexivity | exact H].
Qed.

Lemma Ok_inj {A : Type} (a b : A) : Ok a = Ok b -> a = b.
Proof. intros H; injection H as ->; reflexivity. Qed.

Lemma mapM_Ok_Forall2 {A B : Type} (f : A -> result B) (l : list A) (bs : list B) :
  mapM f l = Ok bs -> Forall2 (fun a b => f a = Ok b) l bs.
Proof.
  revert bs; induction l as [| a l IH]; simpl; intros bs H.
  - injection H as <-; constructor.
  - apply bind_Ok in H as (b & Hb & H).
    apply bind_Ok in H as (bs' & Hbs & H).
    injection H as <-; constructor; [exact Hb | apply IH; exact Hbs].
Qed.

(** ** The smoothing filter *)

Lemma size_array1 (l : list R) : size (array1 l) = len l.
Proof. unfold size, array1, len; simpl; f_equal; lia. Qed.

Lemma slice_rev_length (l : list R) (start stop : Z) :
  length (slice_rev l start stop)
  = Z.to_nat (clamp_rev (len l) start - clamp_rev (len l) stop).
Proof. unfold slice_rev; rewrite length_map, length_seq; reflexivity. Qed.



Lemma np_hanning_length (M : Z) : (2 <= M)%Z -> len (np_hanning M) = M.
Proof.
  intros HM; unfold np_hanning, np_window, len.
  destruct (M <? 1)%Z eqn:E1; [apply Z.ltb_lt in E1; lia |].
  destruct (M =? 1)%Z eqn:E2; [apply Z.eqb_eq in E2; lia |].
  unfold window_axis; rewrite !length_map, length_seq; lia.
Qed.

Lemma clamp_rev_inside (n i : Z) : (0 <= i < n)%Z -> clamp_rev n i = i.
Proof.
  intros H; unfold clamp_rev.
  destruct (Z.ltb_spec i 0); [lia |].
  destruct (Z.ltb_spec i 0); [lia |].
  destruct (Z.leb_spec n i); lia.
Qed.

Lemma clamp_rev_from_end (n i : Z) :
  (i < 0)%Z -> (0 <= n)%Z -> clamp_rev n i = Z.max (-1) (i + n).
Proof.
  intros Hi Hn; unfold clamp_rev.
  destruct (Z.ltb_spec i 0); [| lia].
  destruct (Z.ltb_spec (i + n) 0); [lia |].
  destruct (Z.leb_spec n (i + n)); lia.
Qed.

(** The padded sequence [s] of [smooth] has [window_len - 1] reflected points
    on each side. *)
Lemma smooth_padding_length (l : list R) (window_len : Z) :
  (3 <= window_len <= len l)%Z ->
  len (slice_rev l (window_len - 1) 0 ++ l ++ slice_rev l (-2) (- window_len - 1))
  = (len l + 2 * (window_len - 1))%Z.
Proof.
  intros H; unfold len in *.
  rewrite !length_app, !slice_rev_length; unfold len.
  rewrite (clamp_rev_inside _ (window_len - 1)), (clamp_rev_inside _ 0) by lia.
  rewrite (clamp_rev_from_end _ (-2)), (clamp_rev_from_end _ (- window_len - 1))
    by lia.
  lia.
Qed.

(** C6, as the code has it: below a window of three points the input comes
    back unchanged, provided it passed the two checks made first, that it is
    one-dimensional and has at least [window_len] entries.  The [window]
    argument plays no part. *)
Theorem smooth_short_window_returns_input
    (x : ndarray) (window_len : Z) (window : option string) :
  ndim x = 1%nat -> (window_len <= size x)%Z -> (window_len < 3)%Z ->
  smooth x window_len window = Ok x.
Proof.
  intros Hdim Hsize Hwin; unfold smooth.
  rewrite Hdim; simpl.
  destruct (Z.ltb_spec (size x) window_len); [lia |].
  destruct (Z.ltb_spec window_len 3); [reflexivity | lia].
Qed.

(** Three points and a window of two, with a window name that is never
    read. *)
Lemma smooth_short_window_returns_input_witness :
  smooth (array1 [1; 2; 3]) 2 (Some "flat"%string) = Ok (array1 [1; 2; 3]).
Proof.
  apply smooth_short_window_returns_input;
    [reflexivity | rewrite size_array1; unfold len; simpl; lia | lia].
Defined.

(** C6 does not hold regardless of dimensionality and length: a 2 x 2 array,
    and a one-entry sequence with a window of two, are refused with
    [ValueError] although the window is below three. *)
Lemma smooth_short_window_refused :
  smooth (mk_ndarray [2; 2]%nat [1; 2; 3; 4]) 1 None = Raise ValueError
  /\ smooth (array1 [1]) 2 None = Raise ValueError.
Proof. split; reflexivity. Qed.





(** ** Comparisons on [R] *)

Lemma Rltb_true (a b : R) : a < b -> Rltb a b = true.
Proof. intros H; unfold Rltb; destruct (Rlt_dec a b); [reflexivity | contradiction]. Qed.

Lemma Rltb_false (a b : R) : b <= a -> Rltb a b = false.
Proof. intros H; unfold Rltb; destruct (Rlt_dec a b); [lra | reflexivity]. Qed.

Lemma Rleb_true (a b : R) : a <= b -> Rleb a b = true.
Proof. intros H; unfold Rleb; destruct (Rle_dec a b); [reflexivity | contradiction]. Qed.

Lemma Rleb_false (a b : R) : b < a -> Rleb a b = false.
Proof. intros H; unfold Rleb; destruct (Rle_dec a b); [lra | reflexivity]. Qed.

Lemma Reqb_true (a b : R) : a = b -> Reqb a b = true.
Proof. intros H; unfold Reqb; destruct (Req_dec_T a b); [reflexivity | contradiction]. Qed.

Lemma Reqb_false (a b : R) : a <> b -> Reqb a b = false.
Proof. intros H; unfold Reqb; destruct (Req_dec_T a b); [contradiction | reflexivity]. Qed.

Lemma Rltb_spec (a b : R) : BoolSpec (a < b) (b <= a) (Rltb a b).
Proof.
  unfold Rltb; destruct (Rlt_dec a b); constructor; lra.
Qed.

Lemma Rleb_spec (a b : R) : BoolSpec (a <= b) (b < a) (Rleb a b).
Proof.
  unfold Rleb; destruct (Rle_dec a b); constructor; lra.
Qed.

Lemma Reqb_spec (a b : R) : BoolSpec (a = b) (a <> b) (Reqb a b).
Proof.
  unfold Reqb; destruct (Req_dec_T a b); constructor; assumption.
Qed.

(** ** The single-Gaussian evaluator *)

(** The sign of the amplitude is dropped: [|a * e| = |a| * e] for the
    positive [e] an exponential is. *)
Lemma _gauss_nonzero_sigma (x : list R) (x0 sigma a : R) :
  sigma <> 0 -> _gauss x x0 sigma a = Ok (map (gauss_formula x0 sigma a) x).
Proof.
  intros Hs; unfold _gauss; rewrite (Reqb_false _ _ Hs); simpl.
  f_equal; apply map_ext; intros xi; unfold gauss_formula.
  rewrite Rabs_mult; f_equal.
  apply Rabs_right; left; apply exp_pos.
Qed.

Lemma square_in_range_nonzero (sigma : R) : square_in_range sigma -> sigma <> 0.
Proof.
  intros [Hlow _] ->.
  assert (0 < / 2 ^ 1074) by (apply Rinv_0_lt_compat, pow_lt; lra).
  replace (0 ^ 2) with 0 in Hlow by ring; lra.
Qed.

(** Squares between [2^-20] and [2^20] are well inside the range. *)
Lemma square_in_range_moderate (sigma : R) :
  / 2 ^ 20 < sigma ^ 2 < 2 ^ 20 -> square_in_range sigma.
Proof.
  intros [Hlow Hhigh]; unfold square_in_range.
  assert (Hpos : 0 < 2 ^ 20) by (apply pow_lt; lra).
  assert (Hup : 2 ^ 20 <= 2 ^ 1022) by (apply Rle_pow; [lra | lia]).
  assert (Hdown : 2 ^ 20 <= 2 ^ 1074) by (apply Rle_pow; [lra | lia]).
  assert (Hinv : / 2 ^ 1074 <= / 2 ^ 20) by (apply Rinv_le_contravar; assumption).
  split; lra.
Qed.




(** ** The k-closest selector *)

Lemma py_range_empty (a b : Z) : (b <= a)%Z -> py_range a b = [].
Proof.
  intros H; unfold py_range.
  replace (Z.to_nat (b - a)) with O by lia; reflexivity.
Qed.

Lemma py_range_cons (a b : Z) :
  (a < b)%Z -> py_range a b = a :: py_range (a + 1) b.
Proof.
  intros H; unfold py_range.
  replace (Z.to_nat (b - a)) with (S (Z.to_nat (b - (a + 1)))) by lia.
  simpl; f_equal; [lia |].
  rewrite <- seq_shift, map_map; apply map_ext; intros i; lia.
Qed.

Lemma getitem_inside {A : Type} (l : list A) (i : Z) (d : A) :
  (0 <= i < len l)%Z -> getitem l i = Ok (nth (Z.to_nat i) l d).
Proof.
  intros H; unfold getitem, item, len in *.
  destruct (Z.ltb_spec i 0); [lia |].
  destruct (Z.ltb_spec i 0); [lia |].
  destruct (nth_error l (Z.to_nat i)) eqn:E.
  - rewrite (nth_error_nth _ _ d E); reflexivity.
  - apply nth_error_None in E; lia.
Qed.

Lemma pq_put_In (e e' : entry) (q : list entry) :
  In e' (pq_put e q) <-> e' = e \/ In e' q.
Proof.
  induction q as [| h q IH]; simpl.
  - intuition.
  - destruct (entry_ltb e h); simpl; [intuition |].
    rewrite IH; intuition.
Qed.

Lemma pq_put_length (e : entry) (q : list entry) :
  length (pq_put e q) = S (length q).
Proof.
  induction q as [| h q IH]; simpl; [reflexivity |].
  destruct (entry_ltb e h); simpl; [reflexivity | rewrite IH; reflexivity].
Qed.

Lemma pq_put_Permutation (e : entry) (q : list entry) :
  Permutation (pq_put e q) (e :: q).
Proof.
  induction q as [| h q IH]; simpl; [reflexivity |].
  destruct (entry_ltb e h); [reflexivity |].
  rewrite IH; apply perm_swap.
Qed.

Lemma entry_ltb_true (a b : entry) : entry_ltb a b = true -> fst a <= fst b.
Proof.
  unfold entry_ltb; intros H.
  apply orb_true_iff in H as [H | H].
  - destruct (Rltb_spec (fst a) (fst b)); [lra | discriminate].
  - apply andb_true_iff in H as [H _].
    destruct (Reqb_spec (fst a) (fst b)); [lra | discriminate].
Qed.

Lemma entry_ltb_false (a b : entry) : entry_ltb a b = false -> fst b <= fst a.
Proof.
  unfold entry_ltb; intros H.
  apply orb_false_iff in H as [H _].
  destruct (Rltb_spec (fst a) (fst b)); [discriminate | assumption].
Qed.

Lemma pq_put_sorted (e : entry) (q : list entry) :
  StronglySorted by_priority q -> StronglySorted by_priority (pq_put e q).
Proof.
  induction q as [| h q IH]; simpl; intros Hs.
  - repeat constructor.
  - inversion Hs as [| ? ? Hq Hh]; subst.
    destruct (entry_ltb e h) eqn:E.
    + apply entry_ltb_true in E.
      constructor; [exact Hs |].
      constructor; [exact E |].
      eapply Forall_impl; [| exact Hh].
      unfold by_priority; intros b Hb; lra.
    + apply entry_ltb_false in E.
      constructor; [apply IH; exact Hq |].
      apply Forall_forall; intros b Hb.
      apply pq_put_In in Hb as [-> | Hb]; [exact E |].
      rewrite Forall_forall in Hh; apply Hh; exact Hb.
Qed.

Lemma mapM_pure {A B : Type} (f : A -> result B) (g : A -> B) (l : list A) :
  (forall a, In a l -> f a = Ok (g a)) -> mapM f l = Ok (map g l).
Proof.
  induction l as [| a l IH]; simpl; intros H; [reflexivity |].
  rewrite (H a (or_introl eq_refl)); simpl.
  rewrite IH by (intros; apply H; right; assumption); reflexivity.
Qed.

Section KClosest.

Variables (arr : list R) (x : R).

Local Abbreviation gap := (gap arr x).
Local Abbreviation heap_ok := (heap_ok arr x).

Lemma fill_step_ok (m : Z) (pq : list entry) :
  (0 <= m < len arr)%Z ->
  heap_ok m pq -> (forall j, (0 <= j < m)%Z -> In j (map snd pq)) ->
  exists pq', fill_step arr x m pq = Ok pq'
              /\ heap_ok (m + 1) pq'
              /\ (forall j, (0 <= j < m + 1)%Z -> In j (map snd pq'))
              /\ length pq' = S (length pq).
Proof.
  intros Hm [Hs He Hn Hb] Hall; unfold fill_step.
  rewrite (getitem_inside arr m 0 Hm); simpl.
  fold (gap m).
  eexists; split; [reflexivity |].
  assert (Hperm := pq_put_Permutation (- gap m, m) pq).
  assert (Hperm' := Permutation_map snd Hperm).
  split; [| split].
  - constructor.
    + apply pq_put_sorted; exact Hs.
    + apply Forall_forall; intros e Hin.
      apply pq_put_In in Hin as [-> | Hin]; simpl; [split; [lia | reflexivity] |].
      rewrite Forall_forall in He; destruct (He e Hin); split; [lia | assumption].
    + eapply Permutation_NoDup; [symmetry; exact Hperm' |].
      simpl; constructor; [| exact Hn].
      intros Hin; apply in_map_iff in Hin as (e & Hsnd & Hin).
      rewrite Forall_forall in He; destruct (He e Hin); lia.
    + intros j Hj Hout; exfalso; apply Hout.
      apply (Permutation_in _ (Permutation_sym Hperm')); simpl.
      destruct (Z.eq_dec j m) as [-> | Hne]; [left; reflexivity |].
      right; apply Hall; lia.
  - intros j Hj.
    apply (Permutation_in _ (Permutation_sym Hperm')); simpl.
    destruct (Z.eq_dec j m) as [-> | Hne]; [left; reflexivity |].
    right; apply Hall; lia.
  - apply pq_put_length.
Qed.

Lemma select_step_ok (m : Z) (pq : list entry) :
  (0 <= m < len arr)%Z -> pq <> [] -> heap_ok m pq ->
  exists pq', select_step arr x m pq = Ok pq'
              /\ heap_ok (m + 1) pq' /\ length pq' = length pq.
Proof.
  intros Hm Hne [Hs He Hn Hb]; unfold select_step.
  rewrite (getitem_inside arr m 0 Hm); simpl.
  fold (gap m).
  destruct pq as [| [p pi] q]; [contradiction |]; simpl.
  destruct (StronglySorted_inv Hs) as [Hsq Hhead].
  destruct (Forall_inv He) as [Hpi Hp]; simpl in Hpi, Hp.
  assert (Heq := Forall_inv_tail He).
  assert (Hnq : NoDup (map snd q)) by (simpl in Hn; apply NoDup_cons_iff in Hn; tauto).
  rewrite Forall_forall in Hhead, Heq.
  assert (Htop : forall e, In e q -> gap (snd e) <= gap pi).
  { intros e Hin; destruct (Heq e Hin) as [_ Hfe].
    specialize (Hhead e Hin); unfold by_priority in Hhead; simpl in Hhead; lra. }
  destruct (Rltb_spec (- p) (gap m)) as [Hlt | Hge].
  - (* the root goes back *)
    rewrite Ropp_involutive.
    eexists; split; [reflexivity |].
    assert (Hperm := pq_put_Permutation (p, pi) q).
    assert (Hperm' := Permutation_map snd Hperm).
    split; [| rewrite pq_put_length; reflexivity].
    constructor.
    + apply pq_put_sorted; exact Hsq.
    + apply Forall_forall; intros e Hin.
      apply pq_put_In in Hin as [-> | Hin]; simpl; [split; [lia | assumption] |].
      destruct (Heq e Hin); split; [lia | assumption].
    + eapply Permutation_NoDup; [symmetry; exact Hperm' | exact Hn].
    + intros j Hj Hout.
      assert (Hout' : ~ In j (map snd ((p, pi) :: q))).
      { intros Hin; apply Hout.
        apply (Permutation_in _ (Permutation_sym Hperm')); exact Hin. }
      apply Forall_forall; intros e Hin.
      apply (Permutation_in _ Hperm) in Hin.
      destruct (Z.eq_dec j m) as [-> | Hjm].
      * destruct Hin as [<- | Hin]; simpl; [lra |].
        specialize (Htop e Hin); lra.
      * assert (Hold := Hb j ltac:(lia) Hout').
        rewrite Forall_forall in Hold; apply Hold; exact Hin.
  - (* the new entry takes the root's place *)
    eexists; split; [reflexivity |].
    assert (Hperm := pq_put_Permutation (- gap m, m) q).
    assert (Hperm' := Permutation_map snd Hperm).
    split; [| rewrite pq_put_length; reflexivity].
    constructor.
    + apply pq_put_sorted; exact Hsq.
    + apply Forall_forall; intros e Hin.
      apply pq_put_In in Hin as [-> | Hin]; simpl; [split; [lia | reflexivity] |].
      destruct (Heq e Hin); split; [lia | assumption].
    + eapply Permutation_NoDup; [symmetry; exact Hperm' |].
      simpl; constructor; [| exact Hnq].
      intros Hin; apply in_map_iff in Hin as (e & Hsnd & Hin).
      destruct (Heq e Hin); lia.
    + intros j Hj Hout.
      assert (Hjm : j <> m).
      { intros ->; apply Hout.
        apply (Permutation_in _ (Permutation_sym Hperm')); left; reflexivity. }
      assert (Hjq : ~ In j (map snd q)).
      { intros Hin; apply Hout.
        apply (Permutation_in _ (Permutation_sym Hperm')); right; exact Hin. }
      assert (Hroot : gap pi <= gap j).
      { destruct (Z.eq_dec j pi) as [-> | Hjpi]; [lra |].
        assert (Hold := Hb j ltac:(lia)).
        simpl in Hold.
        assert (Hold' := Hold ltac:(intros [Heq' | Hin]; [congruence | contradiction])).
        inversion Hold'; subst; assumption. }
      apply Forall_forall; intros e Hin.
      apply (Permutation_in _ Hperm) in Hin.
      destruct Hin as [<- | Hin]; simpl; [lra |].
      specialize (Htop e Hin); lra.
Qed.

End KClosest.

Lemma heap_ok_empty (arr : list R) (x : R) : heap_ok arr x 0 [].
Proof.
  constructor; simpl; intros; constructor.
Qed.

Lemma fill_loop (arr : list R) (x : R) (cnt : nat) :
  forall (m : Z) (pq : list entry),
    (0 <= m)%Z -> (m + Z.of_nat cnt <= len arr)%Z ->
    heap_ok arr x m pq -> (forall j, (0 <= j < m)%Z -> In j (map snd pq)) ->
    exists pq',
      for_each (py_range m (m + Z.of_nat cnt)) pq (fill_step arr x) = Ok pq'
      /\ heap_ok arr x (m + Z.of_nat cnt) pq'
      /\ length pq' = (length pq + cnt)%nat.
Proof.
  induction cnt as [| cnt IH]; intros m pq Hm Hlen Hok Hall.
  - rewrite py_range_empty by lia; simpl.
    exists pq; rewrite Z.add_0_r, Nat.add_0_r; auto.
  - replace (m + Z.of_nat (S cnt))%Z with (m + 1 + Z.of_nat cnt)%Z in * by lia.
    rewrite py_range_cons by lia; cbn [for_each].
    destruct (fill_step_ok arr x m pq) as (pq1 & -> & Hok1 & Hall1 & Hlen1);
      [lia | exact Hok | exact Hall |]; cbn [bind].
    destruct (IH (m + 1)%Z pq1) as (pq' & Hrun & Hok' & Hlen');
      [lia | lia | exact Hok1 | exact Hall1 |].
    exists pq'; split; [exact Hrun | split; [exact Hok' | lia]].
Qed.

Lemma select_loop (arr : list R) (x : R) (cnt : nat) :
  forall (m : Z) (pq : list entry),
    (0 <= m)%Z -> (m + Z.of_nat cnt <= len arr)%Z ->
    pq <> [] -> heap_ok arr x m pq ->
    exists pq',
      for_each (py_range m (m + Z.of_nat cnt)) pq (select_step arr x) = Ok pq'
      /\ heap_ok arr x (m + Z.of_nat cnt) pq'
      /\ length pq' = length pq.
Proof.
  induction cnt as [| cnt IH]; intros m pq Hm Hlen Hne Hok.
  - rewrite py_range_empty by lia; simpl.
    exists pq; rewrite Z.add_0_r; auto.
  - replace (m + Z.of_nat (S cnt))%Z with (m + 1 + Z.of_nat cnt)%Z in * by lia.
    rewrite py_range_cons by lia; cbn [for_each].
    destruct (select_step_ok arr x m pq) as (pq1 & -> & Hok1 & Hlen1);
      [lia | exact Hne | exact Hok |]; cbn [bind].
    destruct (IH (m + 1)%Z pq1) as (pq' & Hrun & Hok' & Hlen');
      [lia | lia | | exact Hok1 |].
    { destruct pq1; [destruct pq; [contradiction | discriminate] | discriminate]. }
    exists pq'; split; [exact Hrun | split; [exact Hok' | lia]].
Qed.

(** The positions [printKclosest] reports on, for [1 <= k <= n <= len(arr)]. *)
Lemma closest_positions_ok (arr : list R) (n : Z) (x : R) (k : Z) :
  (1 <= k <= n)%Z -> (n <= len arr)%Z ->
  exists pq, closest_positions arr n x k = Ok (map snd pq)
             /\ heap_ok arr x n pq /\ len pq = k.
Proof.
  intros Hk Hn; unfold closest_positions.
  destruct (fill_loop arr x (Z.to_nat k) 0 []) as (pq1 & Hrun1 & Hok1 & Hlen1);
    [lia | lia | apply heap_ok_empty | intros j Hj; lia |].
  rewrite Z.add_0_l, Z2Nat.id in Hrun1, Hok1 by lia.
  rewrite Hrun1; simpl in *.
  destruct (select_loop arr x (Z.to_nat (n - k)) k pq1) as (pq & Hrun & Hok & Hlen);
    [lia | lia | | exact Hok1 |].
  { intros ->; simpl in Hlen1; lia. }
  replace (k + Z.of_nat (Z.to_nat (n - k)))%Z with n in Hrun, Hok by lia.
  rewrite Hrun; simpl.
  exists pq; split; [reflexivity | split; [exact Hok | unfold len, entry in *; lia]].
Qed.

(** C7, as the code has it.  With [k <= n <= len(arr)] and [k] positive (or
    nothing to search), the selector returns the texts of exactly [k] entries,
    taken at [k] different positions among the first [n], and no position left
    out is strictly closer to [x] than a selected one. *)
Theorem printKclosest_selects (arr : list R) (n : Z) (x : R) (k : Z) :
  (0 <= k <= n)%Z -> (n <= len arr)%Z -> (k = 0 -> n = 0)%Z ->
  exists qs : list Z,
    printKclosest arr n x k = Ok (map (fun q => Fmt (nth (Z.to_nat q) arr 0)) qs)
    /\ len qs = k
    /\ NoDup qs
    /\ (forall q, In q qs -> (0 <= q < n)%Z)
    /\ (forall j, (0 <= j < n)%Z -> ~ In j qs ->
        forall q, In q qs -> gap arr x q <= gap arr x j).
Proof.
  intros Hk Hn Hzero.
  destruct (Z.eq_dec k 0) as [-> | Hpos].
  - rewrite (Hzero eq_refl); exists []; unfold printKclosest, closest_positions.
    simpl; repeat split; try constructor; intros; contradiction.
  - destruct (closest_positions_ok arr n x k) as (pq & Hrun & [Hs He Hnd Hb] & Hlen);
      [lia | lia |].
    exists (map snd pq); unfold printKclosest; rewrite Hrun; simpl.
    assert (Hrange : forall q, In q (map snd pq) -> (0 <= q < n)%Z).
    { intros q Hin; apply in_map_iff in Hin as (e & <- & Hin).
      rewrite Forall_forall in He; apply (He e Hin). }
    split; [| split; [| split; [| split]]].
    + apply mapM_pure; intros q Hin.
      rewrite (getitem_inside arr q 0) by (specialize (Hrange q Hin); lia).
      reflexivity.
    + unfold len in *; rewrite length_map; exact Hlen.
    + exact Hnd.
    + exact Hrange.
    + intros j Hj Hout q Hin.
      apply in_map_iff in Hin as (e & <- & Hin).
      specialize (Hb j Hj Hout); rewrite Forall_forall in Hb; apply Hb; exact Hin.
Qed.

(** The two entries of [3, 1, 2] closest to 0. *)
Lemma printKclosest_selects_witness :
  exists qs : list Z,
    printKclosest [3; 1; 2] 3 0 2
    = Ok (map (fun q => Fmt (nth (Z.to_nat q) [3; 1; 2] 0)) qs)
    /\ len qs = 2%Z
    /\ NoDup qs
    /\ (forall q, In q qs -> (0 <= q < 3)%Z)
    /\ (forall j, (0 <= j < 3)%Z -> ~ In j qs ->
        forall q, In q qs -> gap [3; 1; 2] 0 q <= gap [3; 1; 2] 0 j).
Proof.
  apply (printKclosest_selects [3; 1; 2] 3 0 2); unfold len; simpl; lia.
Defined.

(** C7 does not hold for every [k <= n]: with [k = 0] and one entry to
    search, the first [get] finds the queue empty and the call never
    returns. *)
Lemma printKclosest_zero_k_blocks :
  (0 <= 1)%Z /\ (1 <= len [1])%Z /\ printKclosest [1] 1 0 0 = Blocked.
Proof.
  split; [lia | split; [unfold len; simpl; lia |]].
  unfold printKclosest, closest_positions; simpl.
  unfold select_step, getitem, item; simpl; reflexivity.
Qed.

(** ** Minimum, maximum and nearest value *)

Lemma fold_max_spec (l : list R) (m : R) :
  let r := fold_left (fun m x => if Rltb m x then x else m) l m in
  (r = m \/ In r l) /\ m <= r /\ Forall (fun x => x <= r) l.
Proof.
  revert m; induction l as [| a l IH]; intros m; simpl.
  - split; [left; reflexivity | split; [lra | constructor]].
  - destruct (Rltb_spec m a) as [Hlt | Hge].
    + destruct (IH a) as ([Hr | Hr] & Hle & Hall).
      * split; [right; left; symmetry; exact Hr |].
        split; [lra | constructor; assumption].
      * split; [right; right; exact Hr |].
        split; [lra | constructor; assumption].
    + destruct (IH m) as ([Hr | Hr] & Hle & Hall).
      * split; [left; exact Hr |].
        split; [lra | constructor; [lra | assumption]].
      * split; [right; right; exact Hr |].
        split; [lra | constructor; [lra | assumption]].
Qed.

Lemma fold_min_spec (l : list R) (m : R) :
  let r := fold_left (fun m x => if Rltb x m then x else m) l m in
  (r = m \/ In r l) /\ r <= m /\ Forall (fun x => r <= x) l.
Proof.
  revert m; induction l as [| a l IH]; intros m; simpl.
  - split; [left; reflexivity | split; [lra | constructor]].
  - destruct (Rltb_spec a m) as [Hlt | Hge].
    + destruct (IH a) as ([Hr | Hr] & Hle & Hall).
      * split; [right; left; symmetry; exact Hr |].
        split; [lra | constructor; assumption].
      * split; [right; right; exact Hr |].
        split; [lra | constructor; assumption].
    + destruct (IH m) as ([Hr | Hr] & Hle & Hall).
      * split; [left; exact Hr |].
        split; [lra | constructor; [lra | assumption]].
      * split; [right; right; exact Hr |].
        split; [lra | constructor; [lra | assumption]].
Qed.

Lemma py_max_spec (l : list R) (v : R) :
  py_max l = Ok v -> In v l /\ Forall (fun x => x <= v) l.
Proof.
  destruct l as [| a l]; simpl; [discriminate |].
  intros H; injection H as <-.
  destruct (fold_max_spec l a) as ([Hr | Hr] & Hle & Hall).
  - split; [left; symmetry; exact Hr | constructor; assumption].
  - split; [right; exact Hr | constructor; assumption].
Qed.

Lemma py_min_spec (l : list R) (v : R) :
  py_min l = Ok v -> In v l /\ Forall (fun x => v <= x) l.
Proof.
  destruct l as [| a l]; simpl; [discriminate |].
  intros H; injection H as <-.
  destruct (fold_min_spec l a) as ([Hr | Hr] & Hle & Hall).
  - split; [left; symmetry; exact Hr | constructor; assumption].
  - split; [right; exact Hr | constructor; assumption].
Qed.

Lemma py_max_total (l : list R) : l <> [] -> returns (py_max l).
Proof. destruct l; [contradiction | intros _; eexists; reflexivity]. Qed.

Lemma py_min_total (l : list R) : l <> [] -> returns (py_min l).
Proof. destruct l; [contradiction | intros _; eexists; reflexivity]. Qed.

(** The greatest entry is the value of [max], wherever it is first met. *)
Lemma py_max_is (l : list R) (v : R) :
  In v l -> Forall (fun x => x <= v) l -> py_max l = Ok v.
Proof.
  intros Hin Hall.
  destruct (py_max_total l) as [w Hw]; [intros ->; contradiction |].
  destruct (py_max_spec l w Hw) as [Hw_in Hw_all].
  rewrite Forall_forall in Hall, Hw_all.
  specialize (Hall w Hw_in); specialize (Hw_all v Hin).
  rewrite Hw; f_equal; lra.
Qed.

Lemma py_min_is (l : list R) (v : R) :
  In v l -> Forall (fun x => v <= x) l -> py_min l = Ok v.
Proof.
  intros Hin Hall.
  destruct (py_min_total l) as [w Hw]; [intros ->; contradiction |].
  destruct (py_min_spec l w Hw) as [Hw_in Hw_all].
  rewrite Forall_forall in Hall, Hw_all.
  specialize (Hall w Hw_in); specialize (Hw_all v Hin).
  rewrite Hw; f_equal; lra.
Qed.

Lemma argmin_from_spec (l : list R) (best : R) (best_at next : nat) (d : R) :
  let i := argmin_from best best_at next l in
  (i = best_at /\ Forall (fun a => best <= a) l)
  \/ ((next <= i < next + length l)%nat
      /\ nth (i - next) l d < best
      /\ Forall (fun a => nth (i - next) l d <= a) l).
Proof.
  revert best best_at next; induction l as [| a l IH]; intros best best_at next; simpl.
  - left; split; [reflexivity | constructor].
  - destruct (Rltb_spec a best) as [Hlt | Hge].
    + right.
      destruct (IH a next (S next)) as [[Hi Hall] | (Hi & Hnth & Hall)].
      * rewrite Hi, Nat.sub_diag.
        split; [lia | split; [exact Hlt | constructor; [lra | exact Hall]]].
      * replace (argmin_from a next (S next) l - next)%nat
          with (S (argmin_from a next (S next) l - S next)) by lia.
        split; [lia | split; [lra | constructor; [lra | exact Hall]]].
    + destruct (IH best best_at (S next)) as [[Hi Hall] | (Hi & Hnth & Hall)].
      * left; split; [exact Hi | constructor; assumption].
      * right.
        replace (argmin_from best best_at (S next) l - next)%nat
          with (S (argmin_from best best_at (S next) l - S next)) by lia.
        split; [lia | split; [exact Hnth | constructor; [lra | exact Hall]]].
Qed.

Lemma np_argmin_spec (l : list R) (i : nat) (d : R) :
  np_argmin l = Ok i ->
  (i < length l)%nat /\ Forall (fun a => nth i l d <= a) l.
Proof.
  destruct l as [| a l]; simpl; [discriminate |].
  intros H; injection H as <-.
  destruct (argmin_from_spec l a 0 1 d) as [[Hi Hall] | (Hi & Hnth & Hall)].
  - rewrite Hi; split; [lia | constructor; [lra | exact Hall]].
  - destruct (argmin_from a 0 1 l) as [| j]; [lia |].
    simpl in *; rewrite Nat.sub_0_r in *.
    split; [lia | constructor; [lra | exact Hall]].
Qed.

Lemma find_nearest_spec (distr : list R) (value v : R) :
  find_nearest distr value = Ok v ->
  In v distr /\ Forall (fun a => Rabs (v - value) <= Rabs (a - value)) distr.
Proof.
  unfold find_nearest; intros H.
  apply bind_Ok in H as (i & Hi & Hv).
  apply (np_argmin_spec _ _ (Rabs (v - value))) in Hi as [Hlt Hall].
  rewrite length_map in Hlt.
  unfold item in Hv.
  destruct (nth_error distr i) as [w |] eqn:E; [| discriminate].
  injection Hv as ->.
  split; [eapply nth_error_In; exact E |].
  apply Forall_forall; intros a Ha.
  rewrite Forall_forall in Hall.
  assert (Hnth : nth i (map (fun a => Rabs (a - value)) distr) (Rabs (v - value))
                 = Rabs (v - value)).
  { rewrite (nth_indep _ _ (Rabs (0 - value))) by (rewrite length_map; exact Hlt).
    change (Rabs (0 - value)) with ((fun a => Rabs (a - value)) 0).
    rewrite map_nth; f_equal; f_equal.
    apply nth_error_nth; exact E. }
  rewrite Hnth in Hall; apply Hall.
  apply in_map_iff; exists a; split; [reflexivity | exact Ha].
Qed.

Lemma find_nearest_total (distr : list R) (value : R) :
  distr <> [] -> returns (find_nearest distr value).
Proof.
  intros Hne; unfold find_nearest.
  destruct distr as [| a l]; [contradiction |].
  destruct (np_argmin (map (fun a => Rabs (a - value)) (a :: l))) as [i | |] eqn:E;
    try discriminate.
  apply (np_argmin_spec _ _ 0) in E as [Hlt _]; rewrite length_map in Hlt.
  simpl bind; unfold item.
  destruct (nth_error (a :: l) i) eqn:E'; [eexists; reflexivity |].
  apply nth_error_None in E'; lia.
Qed.

(** When one value of [distr] is strictly nearer to [value] than every other
    value, it is the one found. *)
Lemma find_nearest_is (distr : list R) (value v : R) :
  In v distr ->
  Forall (fun a => a = v \/ Rabs (v - value) < Rabs (a - value)) distr ->
  find_nearest distr value = Ok v.
Proof.
  intros Hin Hall.
  destruct (find_nearest_total distr value) as [w Hw]; [intros ->; contradiction |].
  destruct (find_nearest_spec _ _ _ Hw) as [Hw_in Hw_all].
  rewrite Forall_forall in Hall, Hw_all.
  destruct (Hall w Hw_in) as [-> | Hfar]; [exact Hw |].
  specialize (Hw_all v Hin); lra.
Qed.

(** ** Evaluating on concrete samples *)

(** Comparisons of closed real expressions are settled one at a time by
    [lra]; everything else is computed.  [max], [min] and [find_nearest] are
    left for the lemmas above. *)
Ltac r_decide :=
  repeat match goal with
    | |- context [Rabs ?a] =>
        first [rewrite (Rabs_pos_eq a) by lra | rewrite (Rabs_left1 a) by lra]
    | |- context [Rltb ?a ?b] =>
        first [rewrite (Rltb_true a b) by lra | rewrite (Rltb_false a b) by lra]
    | |- context [Rleb ?a ?b] =>
        first [rewrite (Rleb_true a b) by lra | rewrite (Rleb_false a b) by lra]
    | |- context [Reqb ?a ?b] =>
        first [rewrite (Reqb_true a b) by lra | rewrite (Reqb_false a b) by lra]
    end.

Ltac r_eval :=
  repeat (progress
            (cbv -[Rltb Rleb Reqb Rabs Rminus Rdiv IZR INR pow sqrt exp ln cos
                   Rplus Rmult Ropp Rinv py_max py_min find_nearest];
             r_decide)).

Ltac r_in := simpl; repeat first [left; reflexivity | left; lra | right].

Ltac r_forall tac := repeat (constructor; [tac |]); try constructor.

Lemma sample_closest :
  printKclosest sample_density (len sample_density) (2 * 0.5) noc
  = Ok (repeat (Fmt 0) 25 ++ repeat (Fmt 1) 3).
Proof.
  unfold printKclosest, closest_positions, noc.
  change (len sample_density) with 29%Z.
  let l := eval vm_compute in (py_range 0 28) in change (py_range 0 28) with l.
  let l := eval vm_compute in (py_range 28 29) in change (py_range 28 29) with l.
  r_eval; reflexivity.
Qed.

(** The peak of height 2 sits at 25000.2, and the nearest of the 28 samples
    closest to half its height sits one bin to the left. *)
Lemma sample_half_height :
  half_height_x sample_x sample_density 2 = Ok (25000.2, 25000).
Proof.
  unfold half_height_x; rewrite sample_closest.
  r_eval.
  rewrite (find_nearest_is _ _ 25000).
  - reflexivity.
  - r_in.
  - r_forall ltac:(first [left; reflexivity | right; r_decide; lra]).
Qed.

(** ** The width estimate of a peak *)

Lemma sqrt_2ln2_pos : 0 < sqrt (2 * ln 2).
Proof.
  apply sqrt_lt_R0.
  assert (H : ln 1 < ln 2) by (apply ln_increasing; lra).
  rewrite ln_1 in H; lra.
Qed.

(** What the source binds to [FWHM] is the distance from the peak to the
    half-height sample, once, and [sigma] is that distance over
    [2 * sqrt(2 * ln 2)]. *)
Lemma peak_sigma_from_half_height
    (distributionx distributiony : list R) (extrema mean_xval xsig : R) :
  half_height_x distributionx distributiony extrema = Ok (mean_xval, xsig) ->
  peak_FWHM distributionx distributiony extrema = Ok (Rabs (xsig - mean_xval))
  /\ peak_sigma distributionx distributiony extrema
     = Ok (Rabs (xsig - mean_xval) / (2 * sqrt (2 * ln 2))).
Proof.
  intros H; unfold peak_sigma, peak_FWHM; rewrite H; split; reflexivity.
Qed.

(** C3 on the sample: the peak is at 25000.2 and the half-height sample at
    25000.  The code binds [FWHM] to their distance, not to twice it, and
    [sigma] to that distance over [2 * sqrt(2 * ln 2)], not over
    [sqrt(2 * ln 2)]. *)
Theorem peak_width_is_single_distance :
  half_height_x sample_x sample_density 2 = Ok (25000.2, 25000)
  /\ peak_FWHM sample_x sample_density 2 = Ok (Rabs (25000 - 25000.2))
  /\ peak_sigma sample_x sample_density 2
     = Ok (Rabs (25000 - 25000.2) / (2 * sqrt (2 * ln 2)))
  /\ Rabs (25000 - 25000.2) <> 2 * Rabs (25000 - 25000.2)
  /\ Rabs (25000 - 25000.2) / (2 * sqrt (2 * ln 2))
     <> Rabs (25000 - 25000.2) / sqrt (2 * ln 2).
Proof.
  destruct (peak_sigma_from_half_height _ _ _ _ _ sample_half_height) as [HF Hs].
  split; [exact sample_half_height | split; [exact HF | split; [exact Hs |]]].
  assert (Habs : Rabs (25000 - 25000.2) = 0.2).
  { rewrite Rabs_left1 by lra; lra. }
  rewrite Habs; split; [lra |].
  assert (Hc := sqrt_2ln2_pos).
  assert (Hinv : 0 < / sqrt (2 * ln 2)) by (apply Rinv_0_lt_compat; exact Hc).
  unfold Rdiv; rewrite Rinv_mult; lra.
Qed.

(** ** Mode selection without peaks *)

Lemma significant_none (distributiony maxima : list R) (top : R) :
  py_max distributiony = Ok top ->
  Forall (fun item => item <= top * 0.0075) maxima ->
  significant distributiony maxima = Ok [].
Proof.
  intros Htop Hall; unfold significant.
  assert (Hnone : filter (fun item => Rltb (top * 0.0075) item) maxima = []).
  { induction Hall as [| a l Ha Hl IH]; [reflexivity |].
    simpl; rewrite (Rltb_false _ _ Ha); exact IH. }
  destruct maxima as [| m maxima]; [reflexivity |].
  rewrite Htop; cbn [bind]; rewrite Hnone; reflexivity.
Qed.

(** C9: when the cutoff leaves no peak, [len(sig_vals) - 1] is [-1], the
    table lookup wraps to its last entry [_decamodal], the first guess is
    empty, and [gauss_fit] goes on to call [curve_fit] with both (after the
    x-axis is laid out, which needs a non-empty sample). *)
Theorem zero_peaks_select_decamodal
    (np_histogram : list R -> Z -> exn + (list R * list R))
    (curve_fit : model -> list R -> list R -> list R -> exn + list R)
    (erf : R -> R)
    (distribution : list R) (gauss_bin gauss_smooth : Z)
    (histo : list R * list R) (sx sy : ndarray) (base : R) (maxima : list R) :
  np_histogram distribution gauss_bin = inr histo ->
  smooth (array1 (removelast (snd histo))) gauss_smooth None = Ok sx ->
  py_min (fst histo) = Ok base ->
  smooth (array1 (map (fun h => h - base) (fst histo))) gauss_smooth None = Ok sy ->
  take_items (flat sy) (argrelextrema_greater (flat sy)) = Ok maxima ->
  significant (flat sy) maxima = Ok [] ->
  first_guess (flat sx) (flat sy) [] = Ok ([], [])
  /\ select_mode [] = Ok _decamodal
  /\ components _decamodal = 10%nat
  /\ interleave3 [] [] [] = []
  /\ gauss_fit np_histogram curve_fit erf distribution gauss_bin gauss_smooth
     = (lo <- py_min distribution ;;
        hi <- py_max distribution ;;
        params <- external (curve_fit _decamodal (flat sx) (flat sy) []) ;;
        kept <- mapM (keep_component erf distribution
                        (np_linspace lo hi grid_points) params)
                  (gauss_num_space (length params)) ;;
        Ok (concat kept, np_linspace lo hi grid_points)).
Proof.
  intros Hh Hsx Hb Hsy Hm Hsig.
  do 4 (split; [reflexivity |]).
  unfold gauss_fit; rewrite Hh; cbn [bind external].
  rewrite Hsx; cbn [bind]; rewrite Hb; cbn [bind]; rewrite Hsy; cbn [bind].
  rewrite Hm; cbn [bind]; rewrite Hsig; cbn [bind first_guess mapM interleave3].
  change (select_mode []) with (Ok _decamodal); reflexivity.
Qed.

(** The histogram [flat_histogram] has one inner maximum, and it is below
    the cutoff. *)
Lemma zero_peaks_select_decamodal_witness :
  select_mode [] = Ok _decamodal
  /\ gauss_fit flat_histogram fit_gives_up (fun t => t) [0; 5] 5 1
     = (lo <- py_min [0; 5] ;;
        hi <- py_max [0; 5] ;;
        params <- external (fit_gives_up _decamodal [0; 1; 2; 3; 4]
                              [1000; 0; 1; 0; 1000] []) ;;
        kept <- mapM (keep_component (fun t => t) [0; 5]
                        (np_linspace lo hi grid_points) params)
                  (gauss_num_space (length params)) ;;
        Ok (concat kept, np_linspace lo hi grid_points)).
Proof.
  assert (Hmin : py_min [1000; 0; 1; 0; 1000] = Ok 0).
  { apply py_min_is; [r_in | r_forall lra]. }
  assert (Hy : map (fun h => h - 0) [1000; 0; 1; 0; 1000] = [1000; 0; 1; 0; 1000]).
  { simpl; repeat f_equal; lra. }
  destruct (zero_peaks_select_decamodal flat_histogram fit_gives_up (fun t => t)
              [0; 5] 5 1 ([1000; 0; 1; 0; 1000], [0; 1; 2; 3; 4; 5])
              (array1 [0; 1; 2; 3; 4]) (array1 [1000; 0; 1; 0; 1000]) 0 [1])
    as (_ & Hmode & _ & _ & Hfit).
  - reflexivity.
  - reflexivity.
  - exact Hmin.
  - cbn [fst]; rewrite Hy; reflexivity.
  - cbn [flat array1]; r_eval; reflexivity.
  - apply (significant_none _ _ 1000).
    + apply py_max_is; [r_in | r_forall lra].
    + r_forall lra.
  - split; [exact Hmode | exact Hfit].
Defined.

(** ** Calls that cannot block *)

Lemma unblocked_bind {A B : Type} (m : result A) (k : A -> result B) :
  unblocked m -> (forall a, m = Ok a -> unblocked (k a)) -> unblocked (bind m k).
Proof.
  unfold unblocked; destruct m as [a | e |]; simpl; intros Hm Hk.
  - apply Hk; reflexivity.
  - discriminate.
  - contradiction.
Qed.

Lemma unblocked_mapM {A B : Type} (f : A -> result B) (l : list A) :
  (forall a, In a l -> unblocked (f a)) -> unblocked (mapM f l).
Proof.
  induction l as [| a l IH]; simpl; intros H; [discriminate |].
  apply unblocked_bind; [apply H; left; reflexivity |].
  intros b _; apply unblocked_bind; [apply IH; intros; apply H; right; assumption |].
  intros bs _; discriminate.
Qed.

Lemma unblocked_item {A : Type} (l : list A) (i : nat) : unblocked (item l i).
Proof. unfold unblocked, item; destruct (nth_error l i); discriminate. Qed.

Lemma unblocked_getitem {A : Type} (l : list A) (i : Z) : unblocked (getitem l i).
Proof.
  unfold getitem; destruct (_ <? 0)%Z; [discriminate | apply unblocked_item].
Qed.

Lemma unblocked_where_first (l : list R) (v : R) : unblocked (where_first l v).
Proof. unfold unblocked, where_first; destruct (find_index v l); discriminate. Qed.

Lemma unblocked_find_nearest (l : list R) (v : R) : unblocked (find_nearest l v).
Proof.
  unfold find_nearest; apply unblocked_bind.
  - unfold np_argmin; destruct (map _ l); discriminate.
  - intros; apply unblocked_item.
Qed.

Lemma fill_loop_grows (arr : list R) (x : R) (l : list Z) :
  forall pq pq', for_each l pq (fill_step arr x) = Ok pq' ->
                 length pq' = (length pq + length l)%nat.
Proof.
  induction l as [| a l IH]; simpl; intros pq pq' H.
  - injection H as <-; lia.
  - apply bind_Ok in H as (pq1 & H1 & H).
    apply IH in H; rewrite H.
    unfold fill_step in H1; apply bind_Ok in H1 as (v & _ & H1).
    injection H1 as <-; rewrite pq_put_length; lia.
Qed.

Lemma unblocked_fill_loop (arr : list R) (x : R) (l : list Z) :
  forall pq, unblocked (for_each l pq (fill_step arr x)).
Proof.
  induction l as [| a l IH]; simpl; intros pq; [discriminate |].
  apply unblocked_bind; [| intros; apply IH].
  unfold fill_step; apply unblocked_bind; [apply unblocked_getitem |].
  intros; discriminate.
Qed.

Lemma select_step_keeps (arr : list R) (x : R) (a : Z) (pq pq' : list entry) :
  select_step arr x a pq = Ok pq' -> length pq' = length pq.
Proof.
  unfold select_step; intros H.
  apply bind_Ok in H as (v & _ & H).
  destruct pq as [| [p pi] q]; [discriminate |]; simpl in H.
  destruct (Rltb _ _); injection H as <-; rewrite pq_put_length; reflexivity.
Qed.

Lemma unblocked_select_loop (arr : list R) (x : R) (l : list Z) :
  forall pq, pq <> [] -> unblocked (for_each l pq (select_step arr x)).
Proof.
  induction l as [| a l IH]; simpl; intros pq Hne; [discriminate |].
  apply unblocked_bind.
  - unfold select_step; apply unblocked_bind; [apply unblocked_getitem |].
    intros v _; destruct pq as [| [p pi] q]; [contradiction |]; simpl.
    destruct (Rltb _ _); discriminate.
  - intros pq1 H1; apply IH.
    apply select_step_keeps in H1.
    destruct pq1; [destruct pq; [contradiction | discriminate] | discriminate].
Qed.

(** With [k] positive the queue is never empty when the second loop reads it,
    so [printKclosest] returns or raises. *)
Lemma unblocked_printKclosest (arr : list R) (n : Z) (x : R) (k : Z) :
  (0 < k)%Z -> unblocked (printKclosest arr n x k).
Proof.
  intros Hk; unfold printKclosest, closest_positions.
  apply unblocked_bind.
  - apply unblocked_bind; [apply unblocked_fill_loop |].
    intros pq Hfill; apply unblocked_bind; [| intros; discriminate].
    apply unblocked_select_loop.
    apply fill_loop_grows in Hfill.
    unfold py_range in Hfill; rewrite length_map, length_seq in Hfill.
    intros ->; simpl in Hfill; lia.
  - intros qs _; apply unblocked_mapM; intros q _.
    apply unblocked_bind; [apply unblocked_getitem | intros; discriminate].
Qed.

Lemma unblocked_half_height_x (dx dy : list R) (extrema : R) :
  unblocked (half_height_x dx dy extrema).
Proof.
  unfold half_height_x.
  apply unblocked_bind; [apply unblocked_where_first | intros peak_at _].
  apply unblocked_bind; [apply unblocked_item | intros mean_xval _].
  apply unblocked_bind; [apply unblocked_printKclosest; reflexivity | intros closest _].
  apply unblocked_bind;
    [apply unblocked_mapM; intros; apply unblocked_where_first | intros xlist _].
  apply unblocked_bind;
    [apply unblocked_mapM; intros; apply unblocked_item | intros xs _].
  apply unblocked_bind; [apply unblocked_find_nearest | intros; discriminate].
Qed.

Lemma unblocked_first_guess (dx dy corrected_extrema : list R) :
  unblocked (first_guess dx dy corrected_extrema).
Proof.
  unfold first_guess.
  apply unblocked_bind.
  - apply unblocked_mapM; intros e _; unfold peak_sigma, peak_FWHM.
    apply unblocked_bind; [| intros; discriminate].
    apply unblocked_bind; [apply unblocked_half_height_x |].
    intros [m s] _; discriminate.
  - intros sig_vals _; apply unblocked_bind; [| intros; discriminate].
    apply unblocked_mapM; intros e _.
    apply unblocked_bind; [apply unblocked_where_first | intros; apply unblocked_item].
Qed.

Lemma unblocked_smooth (x : ndarray) (window_len : Z) (window : option string) :
  unblocked (smooth x window_len window).
Proof.
  unfold smooth, unblocked.
  destruct (negb _); [discriminate |].
  destruct (_ <? _)%Z; [discriminate |].
  destruct (_ <? _)%Z; [discriminate |].
  destruct window; [discriminate |].
  destruct (negb _); [discriminate |].
  apply unblocked_bind; [| intros; discriminate].
  unfold np_convolve_valid.
  destruct (map _ _); [discriminate |].
  destruct (_ ++ _); [discriminate |].
  destruct (_ <? _)%nat; discriminate.
Qed.

Lemma unblocked_py_min (l : list R) : unblocked (py_min l).
Proof. destruct l; discriminate. Qed.

Lemma unblocked_py_max (l : list R) : unblocked (py_max l).
Proof. destruct l; discriminate. Qed.

Lemma unblocked_external {A : Type} (r : exn + A) : unblocked (external r).
Proof. destruct r; discriminate. Qed.

Lemma unblocked__gauss (x : list R) (x0 sigma a : R) : unblocked (_gauss x x0 sigma a).
Proof. unfold _gauss; destruct (negb _); discriminate. Qed.

(** ** The table of bin adjustments *)

Lemma np_insert_from_passed (i' i : nat) (v : Z) (arr : list Z) (ins : list (nat * Z)) :
  (i' < i)%nat ->
  np_insert_from i arr ((i', v) :: ins) = np_insert_from i arr ins.
Proof.
  revert i; induction arr as [| a arr IH]; intros i Hlt; simpl.
  - destruct (Nat.leb_spec i i'); [lia | reflexivity].
  - destruct (Nat.eqb_spec i' i); [lia |].
    rewrite IH by lia; reflexivity.
Qed.

Lemma filter_later_positions (i j : nat) (vals : list Z) :
  (i < j)%nat ->
  filter (fun p : nat * Z => (fst p =? i)%nat) (combine (seq j (length vals)) vals) = [].
Proof.
  revert j; induction vals as [| v vals IH]; intros j Hlt; simpl; [reflexivity |].
  destruct (Nat.eqb_spec j i); [lia |].
  apply IH; lia.
Qed.

(** Inserting [values[j]] in front of position [j], for every [j], puts the
    two arrays in alternation, the inserted one first. *)
Lemma np_insert_from_alternate (arr values : list Z) :
  forall i, length values = length arr ->
            np_insert_from i arr (combine (seq i (length values)) values)
            = alternate values arr.
Proof.
  revert values; induction arr as [| a arr IH]; intros values i Hlen.
  - destruct values; [reflexivity | discriminate].
  - destruct values as [| v values]; [discriminate |].
    simpl length; simpl seq; simpl combine.
    cbn [np_insert_from filter fst].
    rewrite Nat.eqb_refl; cbn [map snd app].
    rewrite filter_later_positions by lia; cbn [map app alternate].
    rewrite np_insert_from_passed by lia.
    rewrite IH by (simpl in Hlen; lia); reflexivity.
Qed.

Lemma nth_error_alternate (down up : list Z) (j : nat) :
  length down = length up ->
  nth_error (alternate down up) (2 * j) = nth_error down j
  /\ nth_error (alternate down up) (2 * j + 1) = nth_error up j.
Proof.
  revert up j; induction down as [| d down IH]; intros up j Hlen.
  - destruct up; [| discriminate].
    simpl; rewrite !nth_error_nil; split; reflexivity.
  - destruct up as [| u up]; [discriminate |].
    destruct j as [| j]; [split; reflexivity |].
    replace (2 * S j)%nat with (S (S (2 * j))) by lia.
    replace (S (S (2 * j)) + 1)%nat with (S (S (2 * j + 1))) by lia.
    simpl alternate; cbn [nth_error].
    apply IH; simpl in Hlen; lia.
Qed.

Lemma alternate_length (down up : list Z) :
  length down = length up -> length (alternate down up) = (2 * length up)%nat.
Proof.
  revert up; induction down as [| d down IH]; intros [| u up] Hlen;
    try discriminate; [reflexivity |].
  simpl; rewrite IH by (simpl in Hlen; lia); lia.
Qed.

Lemma bin_adjust_alternates : bin_adjust = alternate bin_adjust_down bin_adjust_up.
Proof.
  unfold bin_adjust, np_insert.
  apply np_insert_from_alternate.
  unfold bin_adjust_down; apply length_map.
Qed.

Lemma bin_adjust_up_length : length bin_adjust_up = Z.to_nat 9999.
Proof. unfold bin_adjust_up, py_range; rewrite length_map, length_seq; reflexivity. Qed.

Lemma bin_adjust_length : len bin_adjust = 19998%Z.
Proof.
  unfold len; rewrite bin_adjust_alternates, alternate_length.
  - rewrite bin_adjust_up_length; lia.
  - unfold bin_adjust_down; apply length_map.
Qed.

Lemma bin_adjust_up_item (j : nat) :
  (Z.of_nat j < 9999)%Z -> nth_error bin_adjust_up j = Some (Z.of_nat j + 1)%Z.
Proof.
  intros Hj; unfold bin_adjust_up, py_range.
  rewrite nth_error_map, nth_error_seq.
  destruct (Nat.ltb_spec j (Z.to_nat (10000 - 1))) as [_ | Hge]; [| lia].
  cbn [option_map]; f_equal; lia.
Qed.

(** The table reads [-1, +1, -2, +2, ..., -9999, +9999]: position [2j] holds
    [-(j+1)] and position [2j+1] holds [j+1]. *)
Lemma bin_adjust_item (j : nat) :
  (Z.of_nat j < 9999)%Z ->
  item bin_adjust (2 * j) = Ok (- (Z.of_nat j + 1))%Z
  /\ item bin_adjust (2 * j + 1) = Ok (Z.of_nat j + 1)%Z.
Proof.
  intros Hj; unfold item; rewrite bin_adjust_alternates.
  destruct (nth_error_alternate bin_adjust_down bin_adjust_up j) as [He Ho].
  { unfold bin_adjust_down; apply length_map. }
  rewrite He, Ho; unfold bin_adjust_down.
  rewrite nth_error_map, (bin_adjust_up_item j Hj); simpl.
  split; [f_equal; lia | reflexivity].
Qed.

Opaque bin_adjust.

(** ** The retry loop *)

Lemma grid_points_value : grid_points = Z.to_nat 10000.
Proof. reflexivity. Qed.

Opaque grid_points.

Section Retry.

Variable np_histogram : list R -> Z -> exn + (list R * list R).
Variable curve_fit : model -> list R -> list R -> list R -> exn + list R.
Variable erf : R -> R.

Local Abbreviation fit := (gauss_fit np_histogram curve_fit erf).
Local Abbreviation loop := (retry_loop np_histogram curve_fit erf).
Local Abbreviation calls_of := (smart_gauss_fit_calls np_histogram curve_fit erf).

Lemma unblocked_gauss_fit (distribution : list R) (gauss_bin gauss_smooth : Z) :
  unblocked (fit distribution gauss_bin gauss_smooth).
Proof.
  unfold gauss_fit.
  apply unblocked_bind; [apply unblocked_external | intros histo _].
  apply unblocked_bind; [apply unblocked_smooth | intros sx _].
  apply unblocked_bind; [apply unblocked_py_min | intros base _].
  apply unblocked_bind; [apply unblocked_smooth | intros sy _].
  apply unblocked_bind;
    [apply unblocked_mapM; intros; apply unblocked_item | intros maxima _].
  apply unblocked_bind.
  { unfold significant; destruct maxima; [discriminate |].
    apply unblocked_bind; [apply unblocked_py_max | intros; discriminate]. }
  intros corrected _.
  apply unblocked_bind; [apply unblocked_first_guess | intros [mean_pop sigma_pop] _].
  apply unblocked_bind; [apply unblocked_py_min | intros lo _].
  apply unblocked_bind; [apply unblocked_py_max | intros hi _].
  apply unblocked_bind; [apply unblocked_getitem | intros mode _].
  apply unblocked_bind; [apply unblocked_external | intros params _].
  apply unblocked_bind; [| intros; discriminate].
  apply unblocked_mapM; intros gauss_index _; unfold keep_component.
  apply unblocked_bind; [apply unblocked_py_max | intros top _].
  apply unblocked_bind; [apply unblocked_item | intros mu _].
  apply unblocked_bind; [apply unblocked_item | intros sigma _].
  apply unblocked_bind; [apply unblocked_item | intros A _].
  apply unblocked_bind; [apply unblocked_py_min | intros bottom _].
  destruct (differ_by_more_than _ _ _); [| discriminate].
  apply unblocked_bind; [apply unblocked__gauss | intros; discriminate].
Qed.

(** What a returning [gauss_fit] hands back: the sample is not empty, the
    x-axis is the grid between its extremes, and every curve is a Gaussian
    drawn on that grid. *)
Lemma gauss_fit_returns (distribution : list R) (gauss_bin gauss_smooth : Z)
    (gaussians : list (list R)) (xline : list R) :
  fit distribution gauss_bin gauss_smooth = Ok (gaussians, xline) ->
  exists lo hi,
    py_min distribution = Ok lo /\ py_max distribution = Ok hi
    /\ xline = np_linspace lo hi grid_points
    /\ Forall (fun g => exists mu sigma A, _gauss xline mu sigma A = Ok g) gaussians.
Proof.
  unfold gauss_fit; intros H.
  apply bind_Ok in H as (histo & _ & H).
  apply bind_Ok in H as (sx & _ & H).
  apply bind_Ok in H as (base & _ & H).
  apply bind_Ok in H as (sy & _ & H).
  apply bind_Ok in H as (maxima & _ & H).
  apply bind_Ok in H as (corrected & _ & H).
  apply bind_Ok in H as ([mean_pop sigma_pop] & _ & H).
  apply bind_Ok in H as (lo & Hlo & H).
  apply bind_Ok in H as (hi & Hhi & H).
  apply bind_Ok in H as (mode & _ & H).
  apply bind_Ok in H as (params & _ & H).
  apply bind_Ok in H as (kept & Hkept & H).
  apply Ok_inj, pair_equal_spec in H as [<- <-].
  exists lo, hi; split; [exact Hlo | split; [exact Hhi | split; [reflexivity |]]].
  apply mapM_Ok_Forall2 in Hkept.
  induction Hkept as [| gi k gis ks Hk _ IH]; cbn [concat]; [constructor |].
  apply Forall_app; split; [| exact IH].
  unfold keep_component in Hk.
  apply bind_Ok in Hk as (top & _ & Hk).
  apply bind_Ok in Hk as (mu & _ & Hk).
  apply bind_Ok in Hk as (sigma & _ & Hk).
  apply bind_Ok in Hk as (A & _ & Hk).
  apply bind_Ok in Hk as (bottom & _ & Hk).
  destruct (differ_by_more_than _ _ _).
  - apply bind_Ok in Hk as (g & Hg & Hk); injection Hk as <-.
    constructor; [exists mu, sigma, A; exact Hg | constructor].
  - injection Hk as <-; constructor.
Qed.

(** On an empty sample every attempt raises, whatever the bin count. *)
Lemma gauss_fit_empty (gauss_bin gauss_smooth : Z) :
  exists e, fit [] gauss_bin gauss_smooth = Raise e.
Proof.
  destruct (fit [] gauss_bin gauss_smooth) as [[gs xl] | e |] eqn:E.
  - apply gauss_fit_returns in E as (lo & hi & Hlo & _); discriminate.
  - exists e; reflexivity.
  - exfalso; exact (unblocked_gauss_fit _ _ _ E).
Qed.

Section Loop.

Variables (distr : list R) (bin_origin gauss_smooth : Z).

Lemma retry_loop_step (fuel attempt_no : nat) (gauss_bins : Z) :
  loop distr bin_origin gauss_smooth (S fuel) attempt_no gauss_bins
  = match fit distr gauss_bins gauss_smooth with
    | Ok fitted => ([(gauss_bins, gauss_smooth)], Ok fitted)
    | Blocked => ([(gauss_bins, gauss_smooth)], Blocked)
    | Raise _ =>
        match item bin_adjust (S attempt_no) with
        | Ok adjust =>
            let rest := loop distr bin_origin gauss_smooth fuel (S attempt_no)
                          (bin_origin + adjust)%Z in
            ((gauss_bins, gauss_smooth) :: fst rest, snd rest)
        | Raise e => ([(gauss_bins, gauss_smooth)], Raise e)
        | Blocked => ([(gauss_bins, gauss_smooth)], Blocked)
        end
    end.
Proof. reflexivity. Qed.

(** Every call of the loop is given the window the loop started with. *)
Lemma retry_loop_window (fuel : nat) :
  forall attempt_no gauss_bins,
    Forall (fun call : attempt => snd call = gauss_smooth)
      (fst (loop distr bin_origin gauss_smooth fuel attempt_no gauss_bins)).
Proof.
  induction fuel as [| fuel IH]; intros attempt_no gauss_bins;
    cbn [retry_loop fst]; [constructor |].
  destruct (fit distr gauss_bins gauss_smooth); cbn [fst];
    try (constructor; [reflexivity | constructor]).
  destruct (item bin_adjust (S attempt_no)); cbn [fst];
    constructor; try reflexivity; try constructor.
  apply IH.
Qed.

(** The loop ends by a success of [gauss_fit] or by running off the table. *)
Lemma retry_loop_ends (fuel : nat) :
  forall attempt_no gauss_bins,
    (length bin_adjust < fuel + attempt_no)%nat ->
    (attempt_no <= length bin_adjust)%nat ->
    unblocked (snd (loop distr bin_origin gauss_smooth fuel attempt_no gauss_bins)).
Proof.
  induction fuel as [| fuel IH]; intros attempt_no gauss_bins Hfuel Hno; [lia |].
  cbn [retry_loop].
  destruct (fit distr gauss_bins gauss_smooth) eqn:E; cbn [snd]; try discriminate.
  - unfold item.
    destruct (nth_error bin_adjust (S attempt_no)) eqn:En; cbn [snd]; [| discriminate].
    assert (Hlt : (S attempt_no < length bin_adjust)%nat).
    { apply nth_error_Some; rewrite En; discriminate. }
    apply IH; lia.
  - exfalso; exact (unblocked_gauss_fit _ _ _ E).
Qed.

(** A successful loop returns what one of its calls of [gauss_fit] returned. *)
Lemma retry_loop_returns (fuel : nat) :
  forall attempt_no gauss_bins fitted,
    snd (loop distr bin_origin gauss_smooth fuel attempt_no gauss_bins) = Ok fitted ->
    exists bins, fit distr bins gauss_smooth = Ok fitted.
Proof.
  induction fuel as [| fuel IH]; intros attempt_no gauss_bins fitted;
    cbn [retry_loop snd]; [discriminate |].
  destruct (fit distr gauss_bins gauss_smooth) eqn:E; cbn [snd].
  - intros H; injection H as <-; exists gauss_bins; exact E.
  - destruct (item bin_adjust (S attempt_no)); cbn [snd]; try discriminate.
    apply IH.
  - discriminate.
Qed.

Hypothesis always_fails : forall bins, exists e, fit distr bins gauss_smooth = Raise e.

(** When no attempt succeeds, the loop goes through the table from position
    1 on, adding each entry to the original bin count. *)
Lemma retry_loop_all_fail (fuel : nat) :
  forall attempt_no gauss_bins,
    fst (loop distr bin_origin gauss_smooth (S fuel) attempt_no gauss_bins)
    = (gauss_bins, gauss_smooth)
        :: map (fun adjust => ((bin_origin + adjust)%Z, gauss_smooth))
             (firstn fuel (skipn (S attempt_no) bin_adjust)).
Proof.
  induction fuel as [| fuel IH]; intros attempt_no gauss_bins.
  - cbn [retry_loop]; destruct (always_fails gauss_bins) as [e ->].
    destruct (item bin_adjust (S attempt_no)); reflexivity.
  - rewrite retry_loop_step.
    destruct (always_fails gauss_bins) as [e ->].
    unfold item.
    destruct (nth_error bin_adjust (S attempt_no)) as [d |] eqn:En.
    + cbv zeta; cbn [fst]; rewrite IH.
      apply nth_error_split in En as (l1 & l2 & Hsplit & Hlen).
      rewrite Hsplit.
      replace (skipn (S attempt_no) (l1 ++ d :: l2)) with (d :: l2)
        by (rewrite <- Hlen, skipn_app, skipn_all, Nat.sub_diag; reflexivity).
      replace (skipn (S (S attempt_no)) (l1 ++ d :: l2)) with l2.
      * reflexivity.
      * rewrite <- Hlen, skipn_app, skipn_all2 by lia.
        replace (S (length l1) - length l1)%nat with 1%nat by lia; reflexivity.
    + cbn [fst]; apply nth_error_None in En.
      rewrite skipn_all2 by lia; rewrite firstn_nil; reflexivity.
Qed.

Lemma retry_loop_all_fail_outcome (fuel : nat) :
  forall attempt_no gauss_bins,
    (length bin_adjust <= S attempt_no + fuel)%nat ->
    snd (loop distr bin_origin gauss_smooth (S fuel) attempt_no gauss_bins)
    = Raise IndexError.
Proof.
  induction fuel as [| fuel IH]; intros attempt_no gauss_bins Hfuel;
    rewrite retry_loop_step; destruct (always_fails gauss_bins) as [e ->];
    unfold item;
    destruct (nth_error bin_adjust (S attempt_no)) as [d |] eqn:En;
    try reflexivity.
  - assert (S attempt_no < length bin_adjust)%nat
      by (apply nth_error_Some; rewrite En; discriminate); lia.
  - cbv zeta; cbn [snd]; apply IH; lia.
Qed.

End Loop.

End Retry.

Lemma nth_error_tail {A : Type} (l : list A) (n : nat) :
  nth_error (tl l) n = nth_error l (S n).
Proof. destruct l; [destruct n; reflexivity | reflexivity]. Qed.

Lemma bin_adjust_starts :
  exists rest, bin_adjust = (-1 :: 1 :: -2 :: 2 :: -3 :: rest)%Z.
Proof.
  rewrite bin_adjust_alternates; unfold bin_adjust_down, bin_adjust_up.
  rewrite (py_range_cons 1), (py_range_cons (1 + 1)), (py_range_cons (1 + 1 + 1))
    by lia.
  cbn [map alternate]; eexists; reflexivity.
Qed.

Section Retries.

Variable np_histogram : list R -> Z -> exn + (list R * list R).
Variable curve_fit : model -> list R -> list R -> list R -> exn + list R.
Variable erf : R -> R.

Local Abbreviation fit := (gauss_fit np_histogram curve_fit erf).
Local Abbreviation calls_of := (smart_gauss_fit_calls np_histogram curve_fit erf).

(** The calls of a run in which no attempt succeeds: the original bin count,
    then the original plus each table entry from position 1 on; the run ends
    with the [IndexError] of reading past the table. *)
Lemma calls_when_all_fail (distr : list R) (gauss_bins : Z) (gauss_smooth : option Z) :
  (forall bins, exists e, fit distr bins (window_used gauss_bins gauss_smooth) = Raise e) ->
  calls_of distr gauss_bins gauss_smooth
  = ((gauss_bins, window_used gauss_bins gauss_smooth)
       :: map (fun adjust => ((gauss_bins + adjust)%Z,
                              window_used gauss_bins gauss_smooth))
            (tl bin_adjust),
     Raise IndexError).
Proof.
  intros Hfail; unfold smart_gauss_fit_calls.
  fold (window_used gauss_bins gauss_smooth).
  rewrite (surjective_pairing (retry_loop _ _ _ _ _ _ _ _ _)).
  rewrite (retry_loop_all_fail _ _ _ _ _ _ Hfail).
  rewrite (retry_loop_all_fail_outcome _ _ _ _ _ _ Hfail) by lia.
  rewrite firstn_all2 by (rewrite length_skipn; lia).
  reflexivity.
Qed.

(** The table is finite, so [smart_gauss_fit] returns or raises. *)
Lemma smart_gauss_fit_ends (distr : list R) (gauss_bins : Z) (gauss_smooth : option Z) :
  unblocked (smart_gauss_fit np_histogram curve_fit erf distr gauss_bins gauss_smooth).
Proof.
  unfold smart_gauss_fit, smart_gauss_fit_calls; apply retry_loop_ends; lia.
Qed.

(** C5, as the code has it: the window is fixed before the loop, from the
    original bin count when none was configured, and every call of
    [gauss_fit], the first and each retry, is given that same window. *)
Theorem retries_keep_the_first_window
    (distr : list R) (gauss_bins : Z) (gauss_smooth : option Z) :
  Forall (fun call : attempt => snd call = window_used gauss_bins gauss_smooth)
    (fst (calls_of distr gauss_bins gauss_smooth))
  /\ window_used gauss_bins None = int_tenth gauss_bins.
Proof.
  split; [| reflexivity].
  unfold smart_gauss_fit_calls; fold (window_used gauss_bins gauss_smooth).
  apply retry_loop_window.
Qed.

(** C4 on a sample that is empty once the sentinel is filtered out: every
    attempt fails, and the bin counts tried are the original, then [+1],
    [-2], [+2], [-3], ...  The table starts with [-1], but the first retry
    reads it at position 1, so [-1] is never tried and the second retry uses
    the original minus two. *)
Theorem retries_skip_minus_one (gauss_bins : Z) (gauss_smooth : option Z) :
  exists later,
    map fst (fst (calls_of [] gauss_bins gauss_smooth))
    = [gauss_bins; gauss_bins + 1; gauss_bins + -2; gauss_bins + 2; gauss_bins + -3]%Z
        ++ later
    /\ hd_error bin_adjust = Some (-1)%Z
    /\ nth 2 (map fst (fst (calls_of [] gauss_bins gauss_smooth))) 0%Z
       <> (gauss_bins + -1)%Z
    /\ snd (calls_of [] gauss_bins gauss_smooth) = Raise IndexError.
Proof.
  rewrite calls_when_all_fail by (intros; apply gauss_fit_empty).
  destruct bin_adjust_starts as [rest ->].
  cbn [fst snd tl map hd_error nth app].
  eexists; split; [reflexivity |].
  split; [reflexivity | split; [lia | reflexivity]].
Qed.

(** Retry [n] of a run without success adds entry [n] of the table: [j+1]
    at retry [2j+1] and [-(j+2)] at retry [2j+2]. *)
Lemma retry_adjustments (distr : list R) (gauss_bins : Z) (gauss_smooth : option Z)
    (j : nat) :
  (forall bins, exists e, fit distr bins (window_used gauss_bins gauss_smooth) = Raise e) ->
  (Z.of_nat j < 9998)%Z ->
  nth_error (map fst (fst (calls_of distr gauss_bins gauss_smooth))) (2 * j + 1)
  = Some (gauss_bins + (Z.of_nat j + 1))%Z
  /\ nth_error (map fst (fst (calls_of distr gauss_bins gauss_smooth))) (2 * j + 2)
     = Some (gauss_bins + - (Z.of_nat j + 2))%Z.
Proof.
  intros Hfail Hj; rewrite calls_when_all_fail by exact Hfail.
  cbn [fst map].
  replace (2 * j + 1)%nat with (S (2 * j)) by lia.
  replace (2 * j + 2)%nat with (S (2 * j + 1)) by lia.
  cbn [nth_error].
  rewrite map_map; cbn [fst].
  rewrite !nth_error_map, !nth_error_tail.
  destruct (bin_adjust_item j) as [_ Hodd]; [lia |].
  destruct (bin_adjust_item (S j)) as [Heven _]; [lia |].
  unfold item in Hodd, Heven.
  replace (S (2 * j)) with (2 * j + 1)%nat by lia.
  replace (S (2 * j + 1)) with (2 * S j)%nat by lia.
  destruct (nth_error bin_adjust (2 * j + 1)); [| discriminate].
  destruct (nth_error bin_adjust (2 * S j)); [| discriminate].
  injection Hodd as ->; injection Heven as ->.
  split; cbn [option_map]; f_equal; lia.
Qed.

End Retries.

(** C5 does not hold as stated: from 129 bins with no window configured, the
    first retry is made with 130 bins and the window 12 of the first attempt,
    not with 10 % of 130. *)
Lemma retry_window_not_recomputed :
  nth 1 (fst (smart_gauss_fit_calls flat_histogram fit_gives_up (fun t => t)
                [] 129 None)) (0, 0)%Z
  = (130, 12)%Z
  /\ int_tenth 130 = 13%Z.
Proof.
  rewrite calls_when_all_fail by (intros; apply gauss_fit_empty).
  destruct bin_adjust_starts as [rest ->].
  split; reflexivity.
Qed.

(** ** The intersection resolver *)

Lemma state_limit_by_cases (numpy : numpy_release) (g1 g2 xline : list R) :
  state_limit numpy g1 g2 xline
  = (idx <- crossings g1 g2 ;;
     match idx with
     | [] =>
         gauss_max1 <- peak_position g1 ;;
         gauss_max2 <- peak_position g2 ;;
         x2 <- item xline gauss_max2 ;;
         x1 <- item xline gauss_max1 ;;
         Ok (0.5 * Rabs (x2 + x1))
     | [i] => xs <- take_items xline [i] ;; item xs 0
     | _ =>
         ys <- take_items g1 idx ;;
         intersect_ymax <- py_max ys ;;
         xs <- take_items xline
                 (filter (fun item => Reqb (nth item g1 0) intersect_ymax) idx) ;;
         float_of_array numpy xs
     end).
Proof.
  unfold state_limit, crossings.
  destruct (np_sub g1 g2) as [d | e |]; cbn [bind]; try reflexivity.
  destruct (np_argwhere (np_diff (map np_sign d))) as [| i [| i' idx]]; reflexivity.
Qed.

(** What the fallback computes for two curves that do not cross: half the
    absolute value of the sum of the two peak positions.  It is their
    midpoint exactly when that sum is not negative. *)
Lemma state_limit_without_crossing (numpy : numpy_release)
    (g1 g2 xline : list R) (x1 x2 : R) :
  crossings g1 g2 = Ok [] ->
  peak_x g1 xline = Ok x1 -> peak_x g2 xline = Ok x2 ->
  state_limit numpy g1 g2 xline = Ok (0.5 * Rabs (x2 + x1))
  /\ (0 <= x1 + x2 -> 0.5 * Rabs (x2 + x1) = (x1 + x2) / 2)
  /\ (x1 + x2 < 0 -> 0.5 * Rabs (x2 + x1) = - ((x1 + x2) / 2)).
Proof.
  intros Hc H1 H2; rewrite state_limit_by_cases, Hc; cbn [bind].
  unfold peak_x in H1, H2.
  apply bind_Ok in H1 as (p1 & Hp1 & Hx1).
  apply bind_Ok in H2 as (p2 & Hp2 & Hx2).
  rewrite Hp1, Hp2; cbn [bind]; rewrite Hx2, Hx1; cbn [bind].
  split; [reflexivity | split; intros Hs].
  - rewrite Rabs_pos_eq by lra; lra.
  - rewrite Rabs_left by lra; lra.
Qed.

Lemma upper_curve_peak : peak_position upper_curve = Ok 1%nat.
Proof.
  unfold peak_position, upper_curve.
  rewrite (py_max_is _ 3) by first [solve [r_in] | solve [r_forall lra]].
  r_eval; reflexivity.
Qed.

Lemma lower_curve_peak : peak_position lower_curve = Ok 2%nat.
Proof.
  unfold peak_position, lower_curve.
  rewrite (py_max_is _ 1.5) by first [solve [r_in] | solve [r_forall lra]].
  r_eval; reflexivity.
Qed.

Lemma curves_do_not_cross : crossings upper_curve lower_curve = Ok [].
Proof. unfold crossings, upper_curve, lower_curve; r_eval; reflexivity. Qed.

(** C2 on these curves: no crossing, peaks at -2 and -1, and the limit the
    code appends is [0.5 * |-1 + -2| = 1.5], not the midpoint -1.5; it lies
    outside the sample range [-3, 0]. *)
Theorem fallback_limit_is_not_the_midpoint (numpy : numpy_release) :
  crossings upper_curve lower_curve = Ok []
  /\ peak_x upper_curve grid4 = Ok (-2)
  /\ peak_x lower_curve grid4 = Ok (-1)
  /\ state_limit numpy upper_curve lower_curve grid4 = Ok (0.5 * Rabs (-1 + -2))
  /\ 0.5 * Rabs (-1 + -2) = 1.5
  /\ 0.5 * Rabs (-1 + -2) <> (-2 + -1) / 2
  /\ get_intersects numpy [upper_curve; lower_curve] [-3; 0] grid4
     = Ok [-3; 0.5 * Rabs (-1 + -2); 0].
Proof.
  assert (Hx1 : peak_x upper_curve grid4 = Ok (-2)).
  { unfold peak_x; rewrite upper_curve_peak; reflexivity. }
  assert (Hx2 : peak_x lower_curve grid4 = Ok (-1)).
  { unfold peak_x; rewrite lower_curve_peak; reflexivity. }
  destruct (state_limit_without_crossing numpy _ _ _ _ _ curves_do_not_cross Hx1 Hx2)
    as (Hlimit & _ & _).
  assert (Habs : 0.5 * Rabs (-1 + -2) = 1.5).
  { rewrite Rabs_left by lra; lra. }
  split; [exact curves_do_not_cross |].
  split; [exact Hx1 | split; [exact Hx2 | split; [exact Hlimit |]]].
  split; [exact Habs | split; [lra |]].
  unfold get_intersects, reorder.
  rewrite (py_min_is _ (-3)) by first [solve [r_in] | solve [r_forall lra]].
  cbn [bind mapM]; rewrite upper_curve_peak, lower_curve_peak.
  cbn [bind item nth_error grid4].
  replace (py_sorted [-2; -1]) with [-2; -1] by (r_eval; reflexivity).
  replace (mapM (index_of [-2; -1]) [-2; -1]) with (Ok [0; 1]%nat)
    by (r_eval; reflexivity).
  cbn [bind mapM item nth_error].
  rewrite (py_max_is upper_curve 3) by first [solve [r_in] | solve [r_forall lra]].
  rewrite (py_max_is lower_curve 1.5) by first [solve [r_in] | solve [r_forall lra]].
  cbn [bind]; rewrite !Rltb_true by lra.
  cbn [bind concat app state_limits_between]; rewrite Hlimit.
  cbn [bind].
  rewrite (py_max_is _ 0) by first [solve [r_in] | solve [r_forall lra]].
  reflexivity.
Qed.

(** ** Sorting *)

Lemma insert_sorted_Permutation (a : R) (l : list R) :
  Permutation (insert_sorted a l) (a :: l).
Proof.
  induction l as [| b l IH]; simpl; [reflexivity |].
  destruct (Rleb a b); [reflexivity |].
  rewrite IH; apply perm_swap.
Qed.

Lemma insert_sorted_sorted (a : R) (l : list R) :
  StronglySorted Rle l -> StronglySorted Rle (insert_sorted a l).
Proof.
  induction l as [| b l IH]; simpl; intros Hs; [repeat constructor |].
  destruct (StronglySorted_inv Hs) as [Hl Hb].
  destruct (Rleb_spec a b) as [Hab | Hba].
  - constructor; [exact Hs |].
    constructor; [exact Hab |].
    eapply Forall_impl; [| exact Hb]; intros c Hc; simpl in Hc; lra.
  - constructor; [apply IH; exact Hl |].
    apply Forall_forall; intros c Hc.
    apply (Permutation_in _ (insert_sorted_Permutation a l)) in Hc.
    destruct Hc as [<- | Hc]; [lra |].
    rewrite Forall_forall in Hb; apply Hb; exact Hc.
Qed.

Lemma py_sorted_Permutation (l : list R) : Permutation (py_sorted l) l.
Proof.
  induction l as [| a l IH]; simpl; [reflexivity |].
  rewrite insert_sorted_Permutation; constructor; exact IH.
Qed.

Lemma py_sorted_sorted (l : list R) : StronglySorted Rle (py_sorted l).
Proof.
  induction l as [| a l IH]; simpl; [constructor |].
  apply insert_sorted_sorted; exact IH.
Qed.

(** An ascending list starts with its least entry and ends with its
    greatest. *)
Lemma sorted_first (l : list R) (m : R) :
  StronglySorted Rle l -> In m l -> Forall (fun x => m <= x) l ->
  hd_error l = Some m.
Proof.
  intros Hs Hin Hall; destruct l as [| a l]; [contradiction |].
  destruct (StronglySorted_inv Hs) as [_ Ha].
  rewrite Forall_forall in Ha, Hall.
  simpl; f_equal.
  assert (m <= a) by (apply Hall; left; reflexivity).
  destruct Hin as [-> | Hin]; [reflexivity |].
  specialize (Ha m Hin); lra.
Qed.

Lemma sorted_last (l : list R) (top d : R) :
  StronglySorted Rle l -> In top l -> Forall (fun x => x <= top) l ->
  last l d = top.
Proof.
  induction l as [| a l IH]; intros Hs Hin Hall; [contradiction |].
  destruct (StronglySorted_inv Hs) as [Hl Ha].
  destruct l as [| b l].
  - destruct Hin as [-> | []]; reflexivity.
  - change (last (a :: b :: l) d) with (last (b :: l) d).
    apply IH; [exact Hl | | exact (Forall_inv_tail Hall)].
    destruct Hin as [<- | Hin]; [| exact Hin].
    rewrite Forall_forall in Ha, Hall.
    assert (a <= b) by (apply Ha; left; reflexivity).
    assert (b <= a) by (apply Hall; right; left; reflexivity).
    left; lra.
Qed.

Lemma sorted_hd_least (l : list R) (m : R) :
  StronglySorted Rle l -> hd_error l = Some m -> Forall (fun x => m <= x) l.
Proof.
  intros Hs Hhd; destruct l as [| a l]; [constructor |].
  injection Hhd as ->.
  apply StronglySorted_inv in Hs as [_ Hall].
  constructor; [lra | exact Hall].
Qed.

Lemma sorted_last_greatest (l : list R) (d : R) :
  StronglySorted Rle l -> l <> [] -> Forall (fun x => x <= last l d) l.
Proof.
  induction 1 as [| a l Hs IH Hall]; intros Hne; [contradiction |].
  destruct l as [| b l]; [constructor; [cbn; lra | constructor] |].
  specialize (IH ltac:(discriminate)).
  change (last (a :: b :: l) d) with (last (b :: l) d).
  constructor; [| exact IH].
  pose proof (Forall_inv Hall); pose proof (Forall_inv IH); cbn beta in *; lra.
Qed.

(** In a sorted list a member comes first exactly when nothing is below it,
    and last exactly when nothing is above it. *)
Lemma sorted_first_iff (l : list R) (m : R) :
  StronglySorted Rle l -> In m l ->
  (hd_error l = Some m <-> Forall (fun x => m <= x) l).
Proof.
  intros Hs Hin; split; [apply sorted_hd_least; exact Hs | apply sorted_first; assumption].
Qed.

Lemma sorted_last_iff (l : list R) (top d : R) :
  StronglySorted Rle l -> In top l ->
  (last l d = top <-> Forall (fun x => x <= top) l).
Proof.
  intros Hs Hin; split; [| apply sorted_last; assumption].
  intros <-; apply sorted_last_greatest; [exact Hs |].
  intros ->; contradiction.
Qed.

(** ** The grid *)

Lemma np_linspace_length (start stop : R) (num : nat) :
  length (np_linspace start stop num) = num.
Proof.
  destruct num as [| [| n]]; try reflexivity.
  unfold np_linspace; rewrite length_app, length_map, length_seq; simpl; lia.
Qed.

Lemma np_linspace_between (start stop : R) (num : nat) :
  start <= stop ->
  Forall (fun x => start <= x <= stop) (np_linspace start stop num).
Proof.
  intros Hle; destruct num as [| [| n]].
  - constructor.
  - constructor; [lra | constructor].
  - unfold np_linspace; apply Forall_app; split;
      [| constructor; [lra | constructor]].
    apply Forall_forall; intros x Hx.
    apply in_map_iff in Hx as (i & <- & Hi).
    apply in_seq in Hi.
    assert (Hi0 : 0 <= INR i) by apply pos_INR.
    assert (Hin : INR i <= INR (S n)) by (apply le_INR; lia).
    assert (Hn : 0 < INR (S n)) by (apply lt_0_INR; lia).
    set (step := (stop - start) / INR (S n)).
    assert (Hstep : 0 <= step).
    { unfold step; apply Rmult_le_pos; [lra |].
      left; apply Rinv_0_lt_compat; exact Hn. }
    assert (Hfull : INR (S n) * step = stop - start).
    { unfold step; field; lra. }
    split; nra.
Qed.

(** ** State limits inside the sample range *)

Lemma item_In {A : Type} (l : list A) (i : nat) (a : A) : item l i = Ok a -> In a l.
Proof.
  unfold item; destruct (nth_error l i) eqn:E; [| discriminate].
  intros H; injection H as <-; eapply nth_error_In; exact E.
Qed.

Lemma take_items_In {A : Type} (l : list A) (idx : list nat) (xs : list A) :
  take_items l idx = Ok xs -> Forall (fun x => In x l) xs.
Proof.
  unfold take_items; intros H; apply mapM_Ok_Forall2 in H.
  induction H as [| i x idx' xs' Hx _ IH]; constructor; [| exact IH].
  eapply item_In; exact Hx.
Qed.

Section InRange.

Variable numpy : numpy_release.
Variables (xline : list R) (lo hi : R).
Hypothesis xline_between : Forall (fun x => lo <= x <= hi) xline.

Lemma state_limit_between (g1 g2 : list R) (b : R) :
  (forall x1 x2,
      crossings g1 g2 = Ok [] ->
      peak_x g1 xline = Ok x1 -> peak_x g2 xline = Ok x2 -> 0 <= x1 + x2) ->
  state_limit numpy g1 g2 xline = Ok b -> lo <= b <= hi.
Proof.
  intros Hsound; rewrite state_limit_by_cases; intros H.
  rewrite Forall_forall in xline_between.
  apply bind_Ok in H as (idx & Hidx & H).
  destruct idx as [| i [| i' idx]].
  - apply bind_Ok in H as (p1 & Hp1 & H).
    apply bind_Ok in H as (p2 & Hp2 & H).
    apply bind_Ok in H as (x2 & Hx2 & H).
    apply bind_Ok in H as (x1 & Hx1 & H).
    injection H as <-.
    assert (Hsum : 0 <= x1 + x2).
    { apply Hsound; [exact Hidx | |]; unfold peak_x.
      - rewrite Hp1; exact Hx1.
      - rewrite Hp2; exact Hx2. }
    apply item_In, xline_between in Hx1.
    apply item_In, xline_between in Hx2.
    rewrite Rabs_pos_eq by lra; lra.
  - apply bind_Ok in H as (xs & Hxs & H).
    apply take_items_In in Hxs; rewrite Forall_forall in Hxs.
    apply item_In in H; apply xline_between, Hxs; exact H.
  - apply bind_Ok in H as (ys & _ & H).
    apply bind_Ok in H as (ymax & _ & H).
    apply bind_Ok in H as (xs & Hxs & H).
    apply take_items_In in Hxs.
    unfold float_of_array in H.
    destruct numpy; [| discriminate].
    destruct xs as [| v [| v' xs]]; try discriminate.
    injection H as <-.
    apply xline_between; exact (Forall_inv Hxs).
Qed.

Lemma state_limits_between_between (rg : list (list R)) :
  forall between,
    fallback_sound rg xline ->
    state_limits_between numpy rg xline = Ok between ->
    Forall (fun b => lo <= b <= hi) between.
Proof.
  induction rg as [| g1 rg IH]; intros between Hsound H.
  - injection H as <-; constructor.
  - destruct rg as [| g2 rg].
    + injection H as <-; constructor.
    + cbn [state_limits_between] in H.
      destruct Hsound as [Hpair Hrest].
      apply bind_Ok in H as (b & Hb & H).
      apply bind_Ok in H as (bs & Hbs & H).
      injection H as <-.
      constructor; [eapply state_limit_between; eassumption |].
      apply IH; assumption.
Qed.

(** The fallback included, no state limit lies below the grid: half the
    absolute value of a sum of two grid points is not below the lower of the
    two, and a limit at a crossing is a grid point. *)
Lemma state_limit_above_minimum (g1 g2 : list R) (b : R) :
  state_limit numpy g1 g2 xline = Ok b -> lo <= b.
Proof.
  rewrite state_limit_by_cases; intros H.
  rewrite Forall_forall in xline_between.
  apply bind_Ok in H as (idx & Hidx & H).
  destruct idx as [| i [| i' idx]].
  - apply bind_Ok in H as (p1 & Hp1 & H).
    apply bind_Ok in H as (p2 & Hp2 & H).
    apply bind_Ok in H as (x2 & Hx2 & H).
    apply bind_Ok in H as (x1 & Hx1 & H).
    injection H as <-.
    apply item_In, xline_between in Hx1.
    apply item_In, xline_between in Hx2.
    destruct (Rle_dec 0 (x2 + x1)) as [Hs | Hs].
    + rewrite Rabs_pos_eq by lra; lra.
    + rewrite Rabs_left by lra; lra.
  - apply bind_Ok in H as (xs & Hxs & H).
    apply take_items_In in Hxs; rewrite Forall_forall in Hxs.
    apply item_In in H; apply xline_between, Hxs; exact H.
  - apply bind_Ok in H as (ys & _ & H).
    apply bind_Ok in H as (ymax & _ & H).
    apply bind_Ok in H as (xs & Hxs & H).
    apply take_items_In in Hxs.
    unfold float_of_array in H.
    destruct numpy; [| discriminate].
    destruct xs as [| v [| v' xs]]; try discriminate.
    injection H as <-.
    apply xline_between; exact (Forall_inv Hxs).
Qed.

Lemma state_limits_between_above_minimum (rg : list (list R)) :
  forall between,
    state_limits_between numpy rg xline = Ok between ->
    Forall (fun b => lo <= b) between.
Proof.
  induction rg as [| g1 rg IH]; intros between H.
  - injection H as <-; constructor.
  - destruct rg as [| g2 rg].
    + injection H as <-; constructor.
    + cbn [state_limits_between] in H.
      apply bind_Ok in H as (b & Hb & H).
      apply bind_Ok in H as (bs & Hbs & H).
      injection H as <-.
      constructor; [eapply state_limit_above_minimum; eassumption |].
      apply IH; assumption.
Qed.

End InRange.

(** On a grid without negative points the fallback is sound. *)
Lemma fallback_sound_nonnegative (rg : list (list R)) (xline : list R) :
  Forall (fun x => 0 <= x) xline -> fallback_sound rg xline.
Proof.
  intros Hpos; rewrite Forall_forall in Hpos.
  induction rg as [| g1 [| g2 rg] IH]; simpl; try exact I.
  split; [| exact IH].
  intros x1 x2 _ H1 H2; unfold peak_x in H1, H2.
  apply bind_Ok in H1 as (p1 & _ & H1); apply item_In, Hpos in H1.
  apply bind_Ok in H2 as (p2 & _ & H2); apply item_In, Hpos in H2.
  lra.
Qed.

(** ** The state-limit orchestrator *)

Lemma sentinel_counted (distr : list R) :
  (1 <=? length (filter (fun item => Reqb item 10000) distr))%nat = true
  <-> In 10000 distr.
Proof.
  rewrite Nat.leb_le; split.
  - intros H.
    destruct (filter (fun item => Reqb item 10000) distr) as [| v l] eqn:E;
      [simpl in H; lia |].
    assert (Hv : In v (filter (fun item => Reqb item 10000) distr))
      by (rewrite E; left; reflexivity).
    apply filter_In in Hv as [Hin Heq].
    destruct (Reqb_spec v 10000); [subst; exact Hin | discriminate].
  - intros Hin.
    assert (Hf : In 10000 (filter (fun item => Reqb item 10000) distr)).
    { apply filter_In; split; [exact Hin | apply Reqb_true; reflexivity]. }
    destruct (filter (fun item => Reqb item 10000) distr); [contradiction |].
    simpl; lia.
Qed.

Lemma get_intersects_returns (numpy : numpy_release)
    (gaussians : list (list R)) (distribution xline ios : list R) :
  get_intersects numpy gaussians distribution xline = Ok ios ->
  exists lo hi rg between,
    py_min distribution = Ok lo /\ py_max distribution = Ok hi
    /\ reorder gaussians xline = Ok rg
    /\ state_limits_between numpy rg xline = Ok between
    /\ ios = (lo :: between) ++ [hi].
Proof.
  unfold get_intersects; intros H.
  apply bind_Ok in H as (lo & Hlo & H).
  apply bind_Ok in H as (rg & Hrg & H).
  apply bind_Ok in H as (between & Hb & H).
  apply bind_Ok in H as (hi & Hhi & H).
  injection H as <-.
  exists lo, hi, rg, between; auto.
Qed.

Section Orchestrator.

Variable np_histogram : list R -> Z -> exn + (list R * list R).
Variable curve_fit : model -> list R -> list R -> list R -> exn + list R.
Variable erf : R -> R.
Variable numpy : numpy_release.

Local Abbreviation limits_of := (determine_state_limits np_histogram curve_fit erf numpy).
Local Abbreviation smart_fit := (smart_gauss_fit np_histogram curve_fit erf).

(** A returning [smart_gauss_fit] hands back the grid between the extremes
    of its sample. *)
Lemma smart_gauss_fit_returns (distr : list R) (gauss_bins : Z)
    (gauss_smooth : option Z) (gaussians : list (list R)) (xline : list R) :
  smart_fit distr gauss_bins gauss_smooth = Ok (gaussians, xline) ->
  exists lo hi,
    py_min distr = Ok lo /\ py_max distr = Ok hi
    /\ xline = np_linspace lo hi grid_points
    /\ Forall (fun g => exists mu sigma A, _gauss xline mu sigma A = Ok g) gaussians.
Proof.
  unfold smart_gauss_fit, smart_gauss_fit_calls; intros H.
  apply retry_loop_returns in H as [bins H].
  eapply gauss_fit_returns; exact H.
Qed.

(** C1, as the code has it.  When [determine_state_limits] returns, the
    limits are in ascending order, and no limit between the two extremes of
    the sample without the sentinel is below its minimum; none is above its
    maximum either when the fallback is sound for every pair of neighbours.
    The minimum comes first exactly when the sample holds no sentinel or the
    minimum does not exceed 20000.  With the sentinel, 20000 comes last
    exactly when neither the maximum nor a limit in between exceeds it;
    without it, the maximum comes last exactly when no limit in between
    exceeds it. *)
Theorem state_limits_sorted_between_extremes
    (distr : list R) (gauss_bins : Z) (gauss_smooth : option Z) (limits : list R) :
  limits_of distr gauss_bins gauss_smooth = Ok limits ->
  exists gaussians xline reorder_gaussians between lo hi,
    smart_fit (without_sentinel distr) gauss_bins gauss_smooth = Ok (gaussians, xline)
    /\ reorder gaussians xline = Ok reorder_gaussians
    /\ state_limits_between numpy reorder_gaussians xline = Ok between
    /\ py_min (without_sentinel distr) = Ok lo
    /\ py_max (without_sentinel distr) = Ok hi
    /\ StronglySorted Rle limits
    /\ Forall (fun b => lo <= b) between
    /\ (fallback_sound reorder_gaussians xline -> Forall (fun b => b <= hi) between)
    /\ (hd_error limits = Some lo <-> (In 10000 distr -> lo <= 20000))
    /\ (In 10000 distr ->
        (last limits 0 = 20000
         <-> hi <= 20000 /\ Forall (fun b => b <= 20000) between))
    /\ (~ In 10000 distr ->
        (last limits 0 = hi <-> Forall (fun b => b <= hi) between)).
Proof.
  unfold determine_state_limits; fold (without_sentinel distr); intros H.
  apply bind_Ok in H as ([gaussians xline] & Hfit & H).
  apply bind_Ok in H as (ios & Hios & H).
  apply Ok_inj in H.
  destruct (smart_gauss_fit_returns _ _ _ _ _ Hfit) as (lo & hi & Hlo & Hhi & Hx & _).
  destruct (get_intersects_returns _ _ _ _ _ Hios)
    as (lo' & hi' & rg & between & Hlo' & Hhi' & Hrg & Hbetween & ->).
  rewrite Hlo in Hlo'; rewrite Hhi in Hhi'.
  apply Ok_inj in Hlo'; apply Ok_inj in Hhi'; subst lo' hi'.
  exists gaussians, xline, rg, between, lo, hi.
  assert (Hlohi : lo <= hi).
  { destruct (py_min_spec _ _ Hlo) as [Hin _].
    destruct (py_max_spec _ _ Hhi) as [_ Hall].
    rewrite Forall_forall in Hall; apply Hall; exact Hin. }
  assert (Hgrid : Forall (fun x => lo <= x <= hi) xline).
  { rewrite Hx; apply np_linspace_between; exact Hlohi. }
  assert (Hlow : Forall (fun b => lo <= b) between)
    by exact (state_limits_between_above_minimum numpy xline lo hi Hgrid rg between
                Hbetween).
  assert (Hsorted : StronglySorted Rle limits)
    by (rewrite <- H; apply py_sorted_sorted).
  split; [exact Hfit | split; [exact Hrg | split; [exact Hbetween |]]].
  split; [exact Hlo | split; [exact Hhi | split; [exact Hsorted |]]].
  split; [exact Hlow | split].
  { intros Hsound.
    pose proof (state_limits_between_between numpy xline lo hi Hgrid rg between
                  Hsound Hbetween) as Hin_range.
    eapply Forall_impl; [| exact Hin_range]; intros b Hb; cbn beta in Hb; lra. }
  destruct (1 <=? length (filter (fun item => Reqb item 10000) distr))%nat eqn:Ecount.
  - apply sentinel_counted in Ecount.
    assert (Hperm : Permutation limits (((lo :: between) ++ [hi]) ++ [20000]))
      by (rewrite <- H; apply py_sorted_Permutation).
    assert (Hall : forall P : R -> Prop,
               Forall P limits <-> P lo /\ Forall P between /\ P hi /\ P 20000).
    { intros P; split.
      - intros HP; apply (Permutation_Forall Hperm) in HP.
        apply Forall_app in HP as [HP H20]; apply Forall_app in HP as [HP Hhi'].
        split; [exact (Forall_inv HP) | split; [exact (Forall_inv_tail HP) |]].
        split; [exact (Forall_inv Hhi') | exact (Forall_inv H20)].
      - intros (Pl & Pb & Ph & P2).
        apply (Permutation_Forall (Permutation_sym Hperm)).
        apply Forall_app; split; [apply Forall_app; split |];
          repeat constructor; assumption. }
    split; [| split; [intros _ | intros Hout; contradiction]].
    + rewrite sorted_first_iff, Hall;
        [| exact Hsorted
         | apply (Permutation_in _ (Permutation_sym Hperm)); left; reflexivity].
      split; [intros (_ & _ & _ & H20) _; exact H20 |].
      intros H20; split; [lra | split; [exact Hlow | split; [exact Hlohi |]]].
      apply H20; exact Ecount.
    + rewrite sorted_last_iff, Hall;
        [| exact Hsorted
         | apply (Permutation_in _ (Permutation_sym Hperm));
           apply in_or_app; right; left; reflexivity].
      split; [intros (_ & Hb & Hh & _); split; assumption |].
      intros [Hh Hb]; split; [lra | split; [exact Hb | split; [exact Hh | lra]]].
  - assert (Hnot : ~ In 10000 distr).
    { intros Hin; apply sentinel_counted in Hin; congruence. }
    assert (Hperm : Permutation limits ((lo :: between) ++ [hi]))
      by (rewrite <- H; apply py_sorted_Permutation).
    assert (Hall : forall P : R -> Prop,
               Forall P limits <-> P lo /\ Forall P between /\ P hi).
    { intros P; split.
      - intros HP; apply (Permutation_Forall Hperm) in HP.
        apply Forall_app in HP as [HP Hhi'].
        split; [exact (Forall_inv HP) | split; [exact (Forall_inv_tail HP) |]].
        exact (Forall_inv Hhi').
      - intros (Pl & Pb & Ph).
        apply (Permutation_Forall (Permutation_sym Hperm)).
        apply Forall_app; split; repeat constructor; assumption. }
    split; [| split; [intros Hin; contradiction | intros _]].
    + rewrite sorted_first_iff, Hall;
        [| exact Hsorted
         | apply (Permutation_in _ (Permutation_sym Hperm)); left; reflexivity].
      split; [intros _ Hin; contradiction |].
      intros _; split; [lra | split; [exact Hlow | exact Hlohi]].
    + rewrite sorted_last_iff, Hall;
        [| exact Hsorted
         | apply (Permutation_in _ (Permutation_sym Hperm));
           apply in_or_app; right; left; reflexivity].
      split; [intros (_ & Hb & _); exact Hb |].
      intros Hb; split; [exact Hlohi | split; [exact Hb | lra]].
Qed.

End Orchestrator.

(** ** A complete run on the sample *)

Lemma sample_peak_sigma :
  peak_sigma sample_x sample_density 2
  = Ok (Rabs (25000 - 25000.2) / (2 * sqrt (2 * ln 2))).
Proof.
  exact (proj2 (peak_sigma_from_half_height _ _ _ _ _ sample_half_height)).
Qed.

Lemma sqrt2_pos : 0 < sqrt 2.
Proof. apply sqrt_lt_R0; lra. Qed.

Lemma sample_gauss_fit :
  exists g,
    _gauss (np_linspace 25000 25005.8 grid_points) 25000.2 0.2 2 = Ok g
    /\ gauss_fit sample_histogram sample_fit step_erf sample 29 1
       = Ok ([g], np_linspace 25000 25005.8 grid_points).
Proof.
  assert (Hg : _gauss (np_linspace 25000 25005.8 grid_points) 25000.2 0.2 2
               = Ok (map (gauss_formula 25000.2 0.2 2)
                       (np_linspace 25000 25005.8 grid_points))).
  { apply _gauss_nonzero_sigma; lra. }
  eexists; split; [exact Hg |].
  unfold gauss_fit, sample_histogram; cbn [external bind fst snd].
  replace (smooth (array1 (removelast sample_edges)) 1 None)
    with (Ok (array1 sample_x)) by reflexivity.
  rewrite (py_min_is sample_density 0)
    by first [solve [r_in] | solve [r_forall lra]].
  cbn [bind flat array1].
  replace (map (fun h => h - 0) sample_density) with sample_density
    by (unfold sample_density; cbn [map]; repeat f_equal; lra).
  replace (smooth (array1 sample_density) 1 None)
    with (Ok (array1 sample_density)) by reflexivity.
  cbn [bind flat array1].
  replace (take_items sample_density (argrelextrema_greater sample_density))
    with (Ok [2]) by (r_eval; reflexivity).
  cbn [bind]; unfold significant.
  rewrite (py_max_is sample_density 2)
    by first [solve [r_in] | solve [r_forall lra]].
  cbn [bind filter]; rewrite Rltb_true by lra.
  unfold first_guess; cbn [mapM bind]; rewrite sample_peak_sigma.
  replace (where_first sample_density 2) with (Ok 1%nat) by (r_eval; reflexivity).
  cbn [bind].
  replace (item sample_x 1) with (Ok 25000.2) by reflexivity.
  cbn [bind].
  rewrite (py_min_is sample 25000) by first [solve [r_in] | solve [r_forall lra]].
  rewrite (py_max_is sample 25005.8) by first [solve [r_in] | solve [r_forall lra]].
  cbn [bind].
  change (select_mode [Rabs (25000 - 25000.2) / (2 * sqrt (2 * ln 2))])
    with (Ok gauss_model).
  cbn [bind interleave3 external sample_fit length].
  change (gauss_num_space 3) with [0%nat].
  cbn [mapM bind]; unfold keep_component.
  rewrite (py_min_is sample 25000) by first [solve [r_in] | solve [r_forall lra]].
  rewrite (py_max_is sample 25005.8) by first [solve [r_in] | solve [r_forall lra]].
  cbn [bind item nth_error Nat.add].
  unfold _integral, erf_of_quotient, step_erf.
  assert (Hs := sqrt2_pos).
  rewrite (Reqb_false (0.2 * sqrt 2) 0) by nra.
  cbn [option_map differ_by_more_than].
  assert (Hden : 0 < / (0.2 * sqrt 2)) by (apply Rinv_0_lt_compat; nra).
  rewrite (Rltb_true 0 ((25005.8 - 25000.2) / (0.2 * sqrt 2)))
    by (unfold Rdiv; nra).
  rewrite (Rltb_false 0 ((25000 - 25000.2) / (0.2 * sqrt 2)))
    by (unfold Rdiv; nra).
  rewrite (Rltb_true 0.02) by (rewrite Rabs_pos_eq; lra).
  rewrite Hg; reflexivity.
Qed.

Lemma find_index_In (v : R) (l : list R) :
  In v l -> exists i, find_index v l = Some i /\ (i < length l)%nat.
Proof.
  induction l as [| a l IH]; intros Hin; [contradiction |].
  simpl; destruct (Reqb_spec a v) as [Heq | Hne].
  - exists 0%nat; split; [reflexivity | simpl; lia].
  - destruct Hin as [Heq | Hin]; [contradiction |].
    destruct (IH Hin) as (i & -> & Hi).
    exists (S i); split; [reflexivity | simpl; lia].
Qed.

(** A curve peaks at one of its own positions. *)
Lemma peak_position_total (g : list R) :
  g <> [] -> exists top i, py_max g = Ok top /\ peak_position g = Ok i
                           /\ (i < length g)%nat.
Proof.
  intros Hne; destruct (py_max_total g Hne) as [top Htop].
  destruct (py_max_spec g top Htop) as [Hin _].
  destruct (find_index_In top g Hin) as (i & Hi & Hlt).
  exists top, i; unfold peak_position, index_of.
  rewrite Htop; cbn [bind]; rewrite Hi; auto.
Qed.

(** With a single fitted curve there is nothing between the two extremes. *)
Lemma get_intersects_single (numpy : numpy_release)
    (g distribution xline : list R) (lo hi : R) :
  g <> [] -> (length g <= length xline)%nat ->
  py_min distribution = Ok lo -> py_max distribution = Ok hi ->
  get_intersects numpy [g] distribution xline = Ok [lo; hi].
Proof.
  intros Hne Hlen Hlo Hhi.
  destruct (peak_position_total g Hne) as (top & i & Htop & Hi & Hlt).
  unfold get_intersects, reorder; rewrite Hlo, Hhi.
  cbn [bind mapM]; rewrite Hi; cbn [bind].
  unfold item at 1.
  destruct (nth_error xline i) as [m |] eqn:Em;
    [| apply nth_error_None in Em; lia].
  cbn [bind py_sorted fold_right insert_sorted mapM].
  unfold index_of; cbn [find_index]; rewrite Reqb_true by reflexivity.
  cbn [bind mapM item nth_error]; rewrite Htop; cbn [bind].
  destruct (Rltb 0.0001 top); reflexivity.
Qed.

Lemma sample_smart_gauss_fit :
  exists g,
    g <> [] /\ length g = grid_points
    /\ smart_gauss_fit sample_histogram sample_fit step_erf sample 29 (Some 1%Z)
       = Ok ([g], np_linspace 25000 25005.8 grid_points).
Proof.
  destruct sample_gauss_fit as (g & Hg & Hfit).
  assert (Hlen : length g = grid_points).
  { rewrite _gauss_nonzero_sigma in Hg by lra; apply Ok_inj in Hg; subst g.
    rewrite length_map; apply np_linspace_length. }
  exists g; split; [| split; [exact Hlen |]].
  - intros ->; rewrite grid_points_value in Hlen; simpl in Hlen; lia.
  - unfold smart_gauss_fit, smart_gauss_fit_calls.
    rewrite retry_loop_step, Hfit; reflexivity.
Qed.

Lemma sample_limits (numpy : numpy_release) (distr : list R) :
  without_sentinel distr = sample ->
  determine_state_limits sample_histogram sample_fit step_erf numpy distr 29 (Some 1%Z)
  = Ok (np_sort (if (1 <=? length (filter (fun item => Reqb item 10000) distr))%nat
                 then [25000; 25005.8; 20000] else [25000; 25005.8])).
Proof.
  intros Hsample; unfold determine_state_limits.
  fold (without_sentinel distr); rewrite Hsample.
  destruct sample_smart_gauss_fit as (g & Hne & Hlen & ->); cbn [bind].
  rewrite (get_intersects_single numpy g sample _ 25000 25005.8).
  - cbn [bind]; destruct (1 <=? _)%nat; reflexivity.
  - exact Hne.
  - rewrite Hlen, np_linspace_length; lia.
  - apply py_min_is; [r_in | r_forall lra].
  - apply py_max_is; [r_in | r_forall lra].
Qed.

(** C1 does not hold for every input: with the sentinel next to values above
    20000, the limits come back as [20000, 25000, 25005.8]; they start with
    20000, not with the least value 25000 of the filtered sample, and end
    with its greatest value, not with 20000. *)
Lemma sentinel_limit_not_last :
  determine_state_limits sample_histogram sample_fit step_erf numpy_2_4
    (10000 :: sample) 29 (Some 1%Z)
  = Ok [20000; 25000; 25005.8]
  /\ In 10000 (10000 :: sample)
  /\ py_min (without_sentinel (10000 :: sample)) = Ok 25000
  /\ hd_error [20000; 25000; 25005.8] <> Some 25000
  /\ last [20000; 25000; 25005.8] 0 <> 20000.
Proof.
  assert (Hsample : without_sentinel (10000 :: sample) = sample).
  { unfold without_sentinel, sample; r_eval; reflexivity. }
  split; [| split; [left; reflexivity | split; [| split]]].
  - rewrite (sample_limits _ _ Hsample).
    replace (1 <=? length (filter (fun item => Reqb item 10000)
                             (10000%R :: sample)))%nat
      with true by (unfold sample; r_eval; reflexivity).
    unfold np_sort; r_eval; reflexivity.
  - rewrite Hsample; apply py_min_is; [r_in | r_forall lra].
  - intros H; injection H as H; lra.
  - simpl; lra.
Qed.


(** * Further properties *)

(** ** The nearest-value finder *)

(** [argmin_from] stops at the first of the least entries: everything before
    it is strictly larger. *)
Lemma argmin_from_first (l : list R) :
  forall (best : R) (best_at next : nat) (d : R),
    let i := argmin_from best best_at next l in
    (i = best_at /\ Forall (fun a => best <= a) l)
    \/ ((next <= i < next + length l)%nat
        /\ nth (i - next) l d < best
        /\ Forall (fun a => nth (i - next) l d <= a) l
        /\ forall j, (j < i - next)%nat -> nth (i - next) l d < nth j l d).
Proof.
  induction l as [| a l IH]; intros best best_at next d; simpl.
  - left; split; [reflexivity | constructor].
  - destruct (Rltb_spec a best) as [Hlt | Hge].
    + right.
      destruct (IH a next (S next) d) as [[Hi Hall] | (Hi & Hnth & Hall & Hfirst)].
      * rewrite Hi, Nat.sub_diag.
        split; [lia | split; [exact Hlt | split; [constructor; [lra | exact Hall] |]]].
        intros j Hj; lia.
      * replace (argmin_from a next (S next) l - next)%nat
          with (S (argmin_from a next (S next) l - S next)) by lia.
        split; [lia | split; [lra | split; [constructor; [lra | exact Hall] |]]].
        intros [| j] Hj; [exact Hnth | apply Hfirst; lia].
    + destruct (IH best best_at (S next) d) as [[Hi Hall] | (Hi & Hnth & Hall & Hfirst)].
      * left; split; [exact Hi | constructor; assumption].
      * right.
        replace (argmin_from best best_at (S next) l - next)%nat
          with (S (argmin_from best best_at (S next) l - S next)) by lia.
        split; [lia | split; [exact Hnth | split; [constructor; [lra | exact Hall] |]]].
        intros [| j] Hj; [lra | apply Hfirst; lia].
Qed.

(** X1.  On an array that is not empty [find_nearest] returns an entry of the
    array that is at least as near to [value] as every entry, and of several
    such entries the one at the lowest position: every entry before it is
    strictly farther from [value]. *)
Theorem find_nearest_first_of_nearest (distr : list R) (value : R) :
  distr <> [] ->
  exists (i : nat) (v : R),
    find_nearest distr value = Ok v
    /\ nth_error distr i = Some v
    /\ Forall (fun a => Rabs (v - value) <= Rabs (a - value)) distr
    /\ forall j a, (j < i)%nat -> nth_error distr j = Some a ->
                   Rabs (v - value) < Rabs (a - value).
Proof.
  destruct distr as [| a l]; [contradiction | intros _].
  unfold find_nearest; cbn [map np_argmin bind].
  set (f := fun a => Rabs (a - value)).
  change (Rabs (a - value)) with (f a).
  destruct (argmin_from_first (map f l) (f a) 0 1 (f a))
    as [[Hi Hall] | (Hi & Hnth & Hall & Hfirst)].
  - exists 0%nat, a; rewrite Hi.
    split; [reflexivity | split; [reflexivity | split]].
    + constructor; [lra |].
      apply Forall_forall; intros b Hb; rewrite Forall_forall in Hall.
      apply (Hall (f b)), in_map; exact Hb.
    + intros j b Hj; lia.
  - set (i := argmin_from (f a) 0 1 (map f l)) in *.
    rewrite length_map in Hi.
    destruct i as [| i]; [lia |].
    cbn [Nat.sub] in *; rewrite Nat.sub_0_r in *.
    rewrite map_nth in Hnth, Hall, Hfirst.
    assert (E : nth_error l i = Some (nth i l a)) by (apply nth_error_nth'; lia).
    exists (S i), (nth i l a).
    split; [unfold item; cbn [nth_error]; rewrite E; reflexivity |].
    split; [exact E | split].
    + constructor; [unfold f in Hnth; lra |].
      apply Forall_forall; intros b Hb; rewrite Forall_forall in Hall.
      apply (Hall (f b)), in_map; exact Hb.
    + intros [| j] b Hj Hb; cbn [nth_error] in Hb.
      * injection Hb as <-; exact Hnth.
      * specialize (Hfirst j ltac:(lia)).
        rewrite map_nth in Hfirst.
        rewrite (nth_error_nth _ _ a Hb) in Hfirst; exact Hfirst.
Qed.

(** The first of two entries at the same distance from the target is found. *)
Lemma find_nearest_first_of_nearest_witness :
  exists (i : nat) (v : R),
    find_nearest [4; 1; 3; 1] 2 = Ok v
    /\ nth_error [4; 1; 3; 1] i = Some v
    /\ Forall (fun a => Rabs (v - 2) <= Rabs (a - 2)) [4; 1; 3; 1]
    /\ forall j a, (j < i)%nat -> nth_error [4; 1; 3; 1] j = Some a ->
                   Rabs (v - 2) < Rabs (a - 2).
Proof.
  apply (find_nearest_first_of_nearest [4; 1; 3; 1] 2); discriminate.
Defined.

(** ** The Gaussian family *)

Lemma gauss_formula_range (x0 sigma a xi : R) :
  0 <= gauss_formula x0 sigma a xi <= Rabs a.
Proof.
  unfold gauss_formula.
  pose proof (Rabs_pos a) as Ha.
  set (t := - (xi - x0) ^ 2 / (2 * sigma ^ 2)).
  assert (Ht : t <= 0).
  { unfold t.
    destruct (Req_dec_T sigma 0) as [-> | Hs].
    - replace (2 * 0 ^ 2) with 0 by ring.
      unfold Rdiv; rewrite Rinv_0; lra.
    - assert (0 < 2 * sigma ^ 2) by nra.
      apply Rmult_le_reg_r with (2 * sigma ^ 2); [assumption |].
      unfold Rdiv; rewrite Rmult_assoc, Rinv_l by lra.
      pose proof (pow2_ge_0 (xi - x0)); lra. }
  assert (He : 0 < exp t <= 1).
  { split; [apply exp_pos |].
    destruct Ht as [Ht | ->]; [| rewrite exp_0; lra].
    left; rewrite <- exp_0; apply exp_increasing; exact Ht. }
  nra.
Qed.

(** X2.  With a width whose square is a positive finite double, [_gauss]
    returns one value per point of the x-axis, each between 0 and the
    magnitude of the amplitude [a], and that magnitude itself wherever the
    x-axis holds the centre [x0]. *)
Theorem _gauss_between_zero_and_amplitude (x : list R) (x0 sigma a : R) :
  square_in_range sigma ->
  exists g,
    _gauss x x0 sigma a = Ok g
    /\ length g = length x
    /\ Forall (fun y => 0 <= y <= Rabs a) g
    /\ (forall i, nth_error x i = Some x0 -> nth_error g i = Some (Rabs a)).
Proof.
  intros Hs; apply square_in_range_nonzero in Hs.
  exists (map (gauss_formula x0 sigma a) x).
  split; [apply _gauss_nonzero_sigma; exact Hs |].
  split; [apply length_map | split].
  - apply Forall_forall; intros y Hy.
    apply in_map_iff in Hy as (xi & <- & _); apply gauss_formula_range.
  - intros i Hi; rewrite nth_error_map, Hi; cbn [option_map]; f_equal.
    unfold gauss_formula.
    replace (- (x0 - x0) ^ 2 / (2 * sigma ^ 2)) with 0
      by (unfold Rdiv; ring).
    rewrite exp_0; ring.
Qed.

(** A width of -3, whose square 9 is between [2^-20] and [2^20]. *)
Lemma minus_three_in_range : square_in_range (-3).
Proof.
  apply square_in_range_moderate.
  assert (2 ^ 4 <= 2 ^ 20) by (apply Rle_pow; [lra | lia]).
  assert (/ 2 ^ 20 <= / 2 ^ 4).
  { apply Rinv_le_contravar; [apply pow_lt; lra | assumption]. }
  assert (/ 2 ^ 4 < 1) by (rewrite <- Rinv_1; apply Rinv_lt_contravar; lra).
  split; lra.
Qed.

Lemma _gauss_between_zero_and_amplitude_witness :
  exists g,
    _gauss [-1; 0; 2] 0 (-3) (-5) = Ok g
    /\ length g = length [-1; 0; 2]
    /\ Forall (fun y => 0 <= y <= Rabs (-5)) g
    /\ (forall i, nth_error [-1; 0; 2] i = Some 0 -> nth_error g i = Some (Rabs (-5))).
Proof.
  apply (_gauss_between_zero_and_amplitude [-1; 0; 2] 0 (-3) (-5)).
  exact minus_three_in_range.
Defined.

(** X3.  [_gauss] does not see the sign of the width or of the amplitude: a
    negative [sigma] or [a] gives the curve, or the failure, of its
    magnitude. *)
Theorem _gauss_ignores_signs (x : list R) (x0 sigma a : R) :
  _gauss x x0 (- sigma) a = _gauss x x0 sigma a
  /\ _gauss x x0 sigma (- a) = _gauss x x0 sigma a.
Proof.
  unfold _gauss; split.
  - destruct (Reqb_spec sigma 0) as [-> | Hs].
    + rewrite Reqb_true by lra; reflexivity.
    + rewrite Reqb_false by lra; cbn [negb]; f_equal.
      apply map_ext; intros xi.
      replace ((- sigma) ^ 2) with (sigma ^ 2) by ring; reflexivity.
  - destruct (Reqb sigma 0); cbn [negb]; [reflexivity | f_equal].
    apply map_ext; intros xi.
    rewrite Ropp_mult_distr_l_reverse, Rabs_Ropp; reflexivity.
Qed.

(** ** The Gaussian mixtures *)

Lemma np_add_map {A : Type} (f g : A -> R) (x : list A) :
  np_add (map f x) (map g x) = map (fun xi => f xi + g xi) x.
Proof.
  unfold np_add; induction x as [| xi x IH]; [reflexivity |].
  cbn [map combine fst snd] in *; rewrite IH; reflexivity.
Qed.

Lemma add_gauss_sum (x : list R) (n : nat) :
  forall (args : list R) (f : R -> R),
    length args = (3 * n)%nat ->
    Forall (fun sigma => sigma <> 0) (widths args) ->
    add_gauss (map f x) x args n
    = Ok (map (fun xi => f xi + mixture_value args xi) x).
Proof.
  induction n as [| n IH]; intros args f Hlen Hw.
  - destruct args; [| discriminate].
    cbn [add_gauss mixture_value]; f_equal.
    apply map_ext; intros xi; ring.
  - destruct args as [| mu [| sigma [| A rest]]]; try (cbn in Hlen; lia).
    cbn [widths] in Hw.
    cbn [add_gauss].
    rewrite (_gauss_nonzero_sigma x mu sigma A) by (apply (Forall_inv Hw)).
    cbn [bind]; rewrite np_add_map, IH;
      [| cbn [length] in Hlen; lia | apply (Forall_inv_tail Hw)].
    f_equal; apply map_ext; intros xi; cbn [mixture_value]; ring.
Qed.

Lemma mixture_value_nonnegative (args : list R) (xi : R) :
  0 <= mixture_value args xi.
Proof.
  revert xi.
  assert (H : forall n (args : list R), (length args <= n)%nat ->
                                         forall xi, 0 <= mixture_value args xi).
  { induction n as [| n IH]; intros l Hl xi.
    - destruct l; [cbn; lra | cbn in Hl; lia].
    - destruct l as [| mu [| sigma [| A rest]]]; try (cbn; lra).
      cbn [mixture_value].
      pose proof (gauss_formula_range mu sigma A xi).
      specialize (IH rest ltac:(cbn [length] in Hl; lia) xi); lra. }
  exact (H (length args) args (le_n _)).
Qed.

(** X4.  Each of the fitting modes, from [_gauss] alone to [_decamodal],
    called with three parameters per component and widths whose squares are
    positive finite doubles, returns at every point of the x-axis the sum of
    its components' values there, which is never negative. *)
Theorem mixture_is_sum_of_components (m : model) (x args : list R) :
  length args = (3 * components m)%nat ->
  Forall square_in_range (widths args) ->
  call_model m x args = Ok (map (mixture_value args) x)
  /\ Forall (fun y => 0 <= y) (map (mixture_value args) x).
Proof.
  intros Hlen Hrange.
  assert (Hw : Forall (fun sigma => sigma <> 0) (widths args)).
  { eapply Forall_impl; [| exact Hrange]; exact square_in_range_nonzero. }
  split.
  - unfold call_model.
    rewrite (proj2 (Nat.eqb_eq _ _) Hlen).
    destruct args as [| mu [| sigma [| A rest]]];
      try (destruct m; cbn in Hlen; lia).
    cbn [widths] in Hw.
    rewrite (_gauss_nonzero_sigma x mu sigma A) by (apply (Forall_inv Hw)).
    cbn [bind]; rewrite add_gauss_sum;
      [reflexivity | cbn [length] in Hlen; lia | apply (Forall_inv_tail Hw)].
  - apply Forall_forall; intros y Hy.
    apply in_map_iff in Hy as (xi & <- & _); apply mixture_value_nonnegative.
Qed.

(** A width of 1. *)
Lemma one_in_range : square_in_range 1.
Proof.
  apply square_in_range_moderate.
  assert (1 < 2 ^ 20) by (apply Rlt_pow_R1; [lra | lia]).
  assert (/ 2 ^ 20 < 1) by (rewrite <- Rinv_1; apply Rinv_lt_contravar; lra).
  split; lra.
Qed.

Lemma minus_one_in_range : square_in_range (-1).
Proof.
  destruct one_in_range as [Hlow Hhigh]; unfold square_in_range.
  replace ((-1) ^ 2) with (1 ^ 2) by ring; split; assumption.
Qed.

Lemma mixture_is_sum_of_components_witness :
  call_model _bimodal [0; 1] [0; 1; 2; 1; -1; -3]
  = Ok (map (mixture_value [0; 1; 2; 1; -1; -3]) [0; 1])
  /\ Forall (fun y => 0 <= y) (map (mixture_value [0; 1; 2; 1; -1; -3]) [0; 1]).
Proof.
  apply (mixture_is_sum_of_components _bimodal [0; 1] [0; 1; 2; 1; -1; -3]).
  - reflexivity.
  - cbn [widths].
    constructor; [exact one_in_range |].
    constructor; [exact minus_one_in_range | constructor].
Defined.

Lemma add_gauss_zero_width (x : list R) (n : nat) :
  forall (args acc : list R),
    length args = (3 * n)%nat ->
    Exists (fun sigma => sigma = 0) (widths args) ->
    add_gauss acc x args n = Raise UnboundLocalError.
Proof.
  induction n as [| n IH]; intros args acc Hlen Hw.
  - destruct args; [| discriminate].
    cbn [widths] in Hw; inversion Hw.
  - destruct args as [| mu [| sigma [| A rest]]]; try (cbn in Hlen; lia).
    cbn [widths] in Hw; cbn [add_gauss].
    unfold _gauss at 1.
    destruct (Reqb_spec sigma 0) as [Hz | Hnz]; cbn [negb bind]; [reflexivity |].
    apply Exists_cons in Hw as [Hw | Hw]; [contradiction |].
    apply IH; [cbn [length] in Hlen; lia | exact Hw].
Qed.

(** X5.  A fitting mode called with the right number of parameters, one of
    whose widths is zero, raises [UnboundLocalError], whichever component
    the zero width belongs to. *)
Theorem mixture_zero_width_unbound (m : model) (x args : list R) :
  length args = (3 * components m)%nat ->
  Exists (fun sigma => sigma = 0) (widths args) ->
  call_model m x args = Raise UnboundLocalError.
Proof.
  intros Hlen Hw; unfold call_model.
  rewrite (proj2 (Nat.eqb_eq _ _) Hlen).
  destruct args as [| mu [| sigma [| A rest]]];
    try (destruct m; cbn in Hlen; lia).
  cbn [widths] in Hw.
  unfold _gauss at 1.
  destruct (Reqb_spec sigma 0) as [Hz | Hnz]; cbn [negb bind]; [reflexivity |].
  apply Exists_cons in Hw as [Hw | Hw]; [contradiction |].
  apply add_gauss_zero_width; [cbn [length] in Hlen; lia | exact Hw].
Qed.

Lemma mixture_zero_width_unbound_witness :
  call_model _trimodal [0; 1] [0; 1; 2; 1; 3; 1; 2; 0; 5] = Raise UnboundLocalError.
Proof.
  apply (mixture_zero_width_unbound _trimodal [0; 1] [0; 1; 2; 1; 3; 1; 2; 0; 5]).
  - reflexivity.
  - cbn [widths]; right; right; left; reflexivity.
Defined.

(** ** The k-closest selector *)

Lemma getitem_at_len {A : Type} (l : list A) : getitem l (len l) = Raise IndexError.
Proof.
  unfold getitem, len, item.
  destruct (Z.ltb_spec (Z.of_nat (length l)) 0) as [H | H]; [lia |].
  destruct (Z.ltb_spec (Z.of_nat (length l)) 0) as [H' | H']; [lia |].
  rewrite Nat2Z.id.
  rewrite (proj2 (nth_error_None l (length l))) by lia; reflexivity.
Qed.

(** The first loop runs off the end of an array shorter than its range. *)
Lemma fill_loop_overrun (arr : list R) (x : R) (cnt : nat) :
  forall (m : Z) (pq : list entry),
    (0 <= m <= len arr)%Z -> (len arr < m + Z.of_nat cnt)%Z ->
    for_each (py_range m (m + Z.of_nat cnt)) pq (fill_step arr x) = Raise IndexError.
Proof.
  induction cnt as [| cnt IH]; intros m pq Hm Hlen; [lia |].
  replace (m + Z.of_nat (S cnt))%Z with (m + 1 + Z.of_nat cnt)%Z in * by lia.
  rewrite py_range_cons by lia; cbn [for_each].
  unfold fill_step at 1.
  destruct (Z.eq_dec m (len arr)) as [-> | Hne].
  - rewrite getitem_at_len; reflexivity.
  - rewrite (getitem_inside arr m 0) by lia; cbn [bind].
    apply IH; lia.
Qed.

Lemma printKclosest_overrun (arr : list R) (n : Z) (x : R) (k : Z) :
  (len arr < k)%Z -> printKclosest arr n x k = Raise IndexError.
Proof.
  intros Hk; unfold printKclosest, closest_positions.
  assert (Hlen : (0 <= len arr)%Z) by (unfold len; lia).
  replace k with (0 + Z.of_nat (Z.to_nat k))%Z at 1 by lia.
  rewrite fill_loop_overrun by lia; reflexivity.
Qed.

(** X6.  Asked for more neighbours than the array has entries,
    [printKclosest] raises [IndexError], whatever [n] and the target are. *)
Theorem printKclosest_too_few_entries (arr : list R) (n : Z) (x : R) (k : Z) :
  (len arr < k)%Z -> printKclosest arr n x k = Raise IndexError.
Proof. exact (printKclosest_overrun arr n x k). Qed.

Lemma printKclosest_too_few_entries_witness :
  printKclosest [3; 1; 2] 3 0 4 = Raise IndexError.
Proof.
  apply (printKclosest_too_few_entries [3; 1; 2] 3 0 4); unfold len; simpl; lia.
Defined.

Lemma sorted_by_gap (arr : list R) (x : R) (m : Z) (pq : list entry) :
  StronglySorted by_priority pq ->
  Forall (fun e => (0 <= snd e < m)%Z /\ fst e = - gap arr x (snd e)) pq ->
  StronglySorted
    (fun s s' => Rabs (float_of s' - x) <= Rabs (float_of s - x))
    (map (fun q => Fmt (nth (Z.to_nat q) arr 0)) (map snd pq)).
Proof.
  induction 1 as [| e pq Hs IH Hall]; intros He; cbn [map]; constructor.
  - apply IH; exact (Forall_inv_tail He).
  - pose proof (Forall_inv He) as [_ Hfst].
    apply Forall_forall; intros s Hin.
    apply in_map_iff in Hin as (q & <- & Hin).
    apply in_map_iff in Hin as (e' & <- & Hin).
    rewrite Forall_forall in Hall; specialize (Hall e' Hin).
    apply Forall_inv_tail in He; rewrite Forall_forall in He.
    destruct (He e' Hin) as [_ Hfst'].
    unfold by_priority in Hall; rewrite Hfst, Hfst' in Hall.
    unfold gap in Hall; cbn [float_of]; lra.
Qed.

(** X7.  With [1 <= k <= n <= len(arr)] the values [printKclosest] returns
    come farthest first: each is at least as far from the target [x] as
    every value after it in the list, so the last one is the nearest. *)
Theorem printKclosest_farthest_first (arr : list R) (n : Z) (x : R) (k : Z) :
  (1 <= k <= n)%Z -> (n <= len arr)%Z ->
  exists out : list pystr,
    printKclosest arr n x k = Ok out
    /\ len out = k
    /\ StronglySorted
         (fun s s' => Rabs (float_of s' - x) <= Rabs (float_of s - x)) out.
Proof.
  intros Hk Hn.
  destruct (closest_positions_ok arr n x k Hk Hn) as (pq & Hrun & [Hs He Hnd Hb] & Hlen).
  exists (map (fun q => Fmt (nth (Z.to_nat q) arr 0)) (map snd pq)).
  split; [| split].
  - unfold printKclosest; rewrite Hrun; cbn [bind].
    apply mapM_pure; intros q Hin.
    apply in_map_iff in Hin as (e & <- & Hin).
    rewrite Forall_forall in He; destruct (He e Hin) as [Hrange _].
    rewrite (getitem_inside arr (snd e) 0) by lia; reflexivity.
  - unfold len in *; rewrite !length_map; exact Hlen.
  - eapply sorted_by_gap; eassumption.
Qed.

Lemma printKclosest_farthest_first_witness :
  exists out : list pystr,
    printKclosest [3; 1; 2; 5] 4 0 3 = Ok out
    /\ len out = 3%Z
    /\ StronglySorted
         (fun s s' => Rabs (float_of s' - 0) <= Rabs (float_of s - 0)) out.
Proof.
  apply (printKclosest_farthest_first [3; 1; 2; 5] 4 0 3); unfold len; simpl; lia.
Defined.

(** ** The first guess of the fit *)

Lemma mapM_length {A B : Type} (f : A -> result B) (l : list A) (bs : list B) :
  mapM f l = Ok bs -> length bs = length l.
Proof.
  intros H; apply mapM_Ok_Forall2 in H.
  symmetry; eapply Forall2_length; exact H.
Qed.

Lemma half_height_x_overrun (dx dy : list R) (extrema : R) :
  (len dy < noc)%Z -> half_height_x dx dy extrema = Raise IndexError.
Proof.
  intros Hlen; unfold half_height_x, where_first, item.
  destruct (find_index extrema dy) as [i |]; [| reflexivity]; cbn [bind].
  destruct (nth_error dx i); [| reflexivity]; cbn [bind].
  rewrite printKclosest_overrun by exact Hlen; reflexivity.
Qed.

(** X8.  When the smoothed histogram has fewer than 28 points, the first
    guess fails with [IndexError] as soon as one peak is retained: the 28
    neighbours of its half height cannot be collected. *)
Theorem first_guess_needs_28_points (dx dy corrected_extrema : list R) :
  (len dy < 28)%Z -> corrected_extrema <> [] ->
  first_guess dx dy corrected_extrema = Raise IndexError.
Proof.
  intros Hlen Hne.
  destruct corrected_extrema as [| extrema rest]; [contradiction |].
  unfold first_guess; cbn [mapM].
  unfold peak_sigma at 1, peak_FWHM.
  rewrite half_height_x_overrun by exact Hlen; reflexivity.
Qed.

Lemma first_guess_needs_28_points_witness :
  first_guess [0; 1; 2] [0; 5; 0] [5] = Raise IndexError.
Proof.
  apply (first_guess_needs_28_points [0; 1; 2] [0; 5; 0] [5]).
  - unfold len; simpl; lia.
  - discriminate.
Defined.

Lemma half_height_x_members (dx dy : list R) (extrema mean_xval xsig : R) :
  half_height_x dx dy extrema = Ok (mean_xval, xsig) ->
  In mean_xval dx /\ In xsig dx.
Proof.
  unfold half_height_x; intros H.
  apply bind_Ok in H as (peak_at & _ & H).
  apply bind_Ok in H as (m & Hm & H).
  apply bind_Ok in H as (closest & _ & H).
  apply bind_Ok in H as (xlist & _ & H).
  apply bind_Ok in H as (xs & Hxs & H).
  apply bind_Ok in H as (s & Hs & H).
  apply Ok_inj in H; apply pair_equal_spec in H as [<- <-].
  split; [eapply item_In; exact Hm |].
  apply find_nearest_spec in Hs as [Hin _].
  apply take_items_In in Hxs; rewrite Forall_forall in Hxs.
  apply Hxs; exact Hin.
Qed.

Lemma peak_sigma_returns (dx dy : list R) (extrema sigma : R) :
  peak_sigma dx dy extrema = Ok sigma ->
  exists mean_xval xsig,
    half_height_x dx dy extrema = Ok (mean_xval, xsig)
    /\ sigma = Rabs (xsig - mean_xval) / (2 * sqrt (2 * ln 2)).
Proof.
  unfold peak_sigma, peak_FWHM; intros H.
  apply bind_Ok in H as (FWHM & H & Hs).
  apply bind_Ok in H as ([m s] & Hh & H).
  apply Ok_inj in H; apply Ok_inj in Hs; subst.
  exists m, s; split; [exact Hh | reflexivity].
Qed.

Lemma peak_sigma_nonnegative (dx dy : list R) (extrema sigma : R) :
  peak_sigma dx dy extrema = Ok sigma -> 0 <= sigma.
Proof.
  intros H; apply peak_sigma_returns in H as (m & s & _ & ->).
  pose proof sqrt_2ln2_pos as Hpos.
  pose proof (Rabs_pos (s - m)) as Habs.
  apply Rmult_le_pos; [exact Habs |].
  left; apply Rinv_0_lt_compat; lra.
Qed.

Lemma interleave3_length (means sigmas heights : list R) :
  length means = length heights -> length sigmas = length heights ->
  length (interleave3 means sigmas heights) = (3 * length heights)%nat.
Proof.
  revert means sigmas; induction heights as [| h hs IH];
    intros [| m ms] [| s ss] Hm Hs; try discriminate; [reflexivity |].
  cbn [interleave3 length] in *.
  rewrite IH by lia; lia.
Qed.

(** The table [peak_number] holds, at position [k - 1], the mode of [k]
    components. *)
Lemma select_mode_table (sig_vals : list R) :
  (1 <= length sig_vals <= 10)%nat ->
  exists mode, select_mode sig_vals = Ok mode
               /\ components mode = length sig_vals.
Proof.
  intros H.
  do 11 (destruct sig_vals as [| ? sig_vals];
         [cbn [length] in H; try lia; eexists; split; reflexivity |]).
  cbn [length] in H; lia.
Qed.

(** X9.  When the first guess returns for one to ten retained peaks, it
    holds one mean and one width per peak, every mean a point of the
    histogram's x-axis and no width negative, and the mode selected has as
    many components as there are peaks, so that the guess handed to the fit
    has exactly the three parameters per component the mode takes. *)
Theorem first_guess_fits_mode (dx dy corrected_extrema mean_pop sigma_pop : list R) :
  first_guess dx dy corrected_extrema = Ok (mean_pop, sigma_pop) ->
  (1 <= length corrected_extrema <= 10)%nat ->
  exists mode,
    select_mode sigma_pop = Ok mode
    /\ components mode = length corrected_extrema
    /\ length (interleave3 mean_pop sigma_pop corrected_extrema)
       = (3 * components mode)%nat
    /\ Forall (fun mean => In mean dx) mean_pop
    /\ Forall (fun sigma => 0 <= sigma) sigma_pop.
Proof.
  unfold first_guess; intros H Hlen.
  apply bind_Ok in H as (sig_vals & Hsig & H).
  apply bind_Ok in H as (mean_vals & Hmean & H).
  apply Ok_inj in H; apply pair_equal_spec in H as [<- <-].
  pose proof (mapM_length _ _ _ Hsig) as Lsig.
  pose proof (mapM_length _ _ _ Hmean) as Lmean.
  destruct (select_mode_table sig_vals) as (mode & Hmode & Hcomp); [lia |].
  exists mode.
  split; [exact Hmode | split; [lia | split; [| split]]].
  - rewrite interleave3_length by assumption; lia.
  - apply mapM_Ok_Forall2 in Hmean.
    clear - Hmean; induction Hmean as [| e m es ms He _ IH]; constructor; [| exact IH].
    apply bind_Ok in He as (peak_at & _ & He).
    eapply item_In; exact He.
  - apply mapM_Ok_Forall2 in Hsig.
    clear - Hsig; induction Hsig as [| e s es ss He _ IH]; constructor; [| exact IH].
    eapply peak_sigma_nonnegative; exact He.
Qed.

Lemma sample_first_guess :
  first_guess sample_x sample_density [2]
  = Ok ([25000.2], [Rabs (25000 - 25000.2) / (2 * sqrt (2 * ln 2))]).
Proof.
  unfold first_guess; cbn [mapM bind]; rewrite sample_peak_sigma.
  replace (where_first sample_density 2) with (Ok 1%nat) by (r_eval; reflexivity).
  reflexivity.
Qed.

Lemma first_guess_fits_mode_witness :
  exists mode,
    select_mode [Rabs (25000 - 25000.2) / (2 * sqrt (2 * ln 2))] = Ok mode
    /\ components mode = length [2]
    /\ length (interleave3 [25000.2]
                 [Rabs (25000 - 25000.2) / (2 * sqrt (2 * ln 2))] [2])
       = (3 * components mode)%nat
    /\ Forall (fun mean => In mean sample_x) [25000.2]
    /\ Forall (fun sigma => 0 <= sigma)
         [Rabs (25000 - 25000.2) / (2 * sqrt (2 * ln 2))].
Proof.
  apply (first_guess_fits_mode sample_x sample_density [2]).
  - exact sample_first_guess.
  - simpl; lia.
Defined.

(** X10.  With more than ten retained peaks the mode cannot be chosen:
    the lookup in the table of ten modes raises [IndexError]. *)
Theorem select_mode_above_ten_peaks (sig_vals : list R) :
  (10 < length sig_vals)%nat -> select_mode sig_vals = Raise IndexError.
Proof.
  intros H; unfold select_mode, getitem, len.
  destruct (Z.ltb_spec (Z.of_nat (length sig_vals) - 1) 0) as [H1 | H1]; [lia |].
  destruct (Z.ltb_spec (Z.of_nat (length sig_vals) - 1) 0) as [H2 | H2]; [lia |].
  unfold item.
  rewrite (proj2 (nth_error_None peak_number _)); [reflexivity |].
  change (length peak_number) with 10%nat; lia.
Qed.

Lemma select_mode_above_ten_peaks_witness :
  select_mode (repeat 0.1 11) = Raise IndexError.
Proof.
  apply (select_mode_above_ten_peaks (repeat 0.1 11)); simpl; lia.
Defined.

Lemma find_index_sound (v : R) (l : list R) :
  forall i, find_index v l = Some i -> nth_error l i = Some v.
Proof.
  induction l as [| a l IH]; intros i; cbn [find_index]; [discriminate |].
  destruct (Reqb_spec a v) as [-> | Hne].
  - intros [= <-]; reflexivity.
  - destruct (find_index v l) as [j |]; cbn [option_map]; [| discriminate].
    intros [= <-]; cbn [nth_error]; apply IH; reflexivity.
Qed.

Lemma In_py_range (a b q : Z) : (a <= q < b)%Z -> In q (py_range a b).
Proof.
  intros H; unfold py_range; apply in_map_iff.
  exists (Z.to_nat (q - a)); split; [lia | apply in_seq; lia].
Qed.

Lemma Rabs_zero (r : R) : Rabs r <= 0 -> r = 0.
Proof.
  intros H; destruct (Req_dec_T r 0) as [E | E]; [exact E |].
  pose proof (Rabs_pos_lt r E); lra.
Qed.

(** When all the positions of the histogram are selected, the peak is among
    them, and nothing is nearer to the peak than the peak itself. *)
Lemma half_height_x_of_all (dx dy : list R) (extrema : R) :
  len dy = noc -> (length dy <= length dx)%nat -> In extrema dy ->
  exists mean_xval, half_height_x dx dy extrema = Ok (mean_xval, mean_xval).
Proof.
  intros Hlen Hdx Hin.
  destruct (find_index_In extrema dy Hin) as (i & Hi & Hilt).
  pose proof (find_index_sound _ _ _ Hi) as Hnth.
  exists (nth i dx 0).
  destruct (closest_positions_ok dy (len dy) (extrema * 0.5) noc)
    as (pq & Hrun & [Hs He Hnd Hb] & Hpq); [unfold noc in *; lia | lia |].
  assert (Hrange : forall q, In q (map snd pq) -> (0 <= q < len dy)%Z).
  { intros q Hq; apply in_map_iff in Hq as (e & <- & Hq).
    rewrite Forall_forall in He; apply (He e Hq). }
  assert (Hall : In (Z.of_nat i) (map snd pq)).
  { apply (NoDup_length_incl Hnd (l' := py_range 0 (len dy))).
    - unfold py_range; rewrite !length_map, length_seq.
      unfold len in *; lia.
    - intros q Hq; apply In_py_range, Hrange, Hq.
    - apply In_py_range; unfold len; lia. }
  set (g := fun s : pystr =>
              match find_index (float_of s) dy with Some j => j | None => 0%nat end).
  set (closest := map (fun q => Fmt (nth (Z.to_nat q) dy 0)) (map snd pq)).
  assert (Hclosest : printKclosest dy (len dy) (extrema * 0.5) noc = Ok closest).
  { unfold printKclosest; rewrite Hrun; cbn [bind].
    apply mapM_pure; intros q Hq.
    rewrite (getitem_inside dy q 0) by (apply Hrange; exact Hq); reflexivity. }
  assert (Hfound : forall s, In s closest ->
                             find_index (float_of s) dy = Some (g s)
                             /\ (g s < length dy)%nat).
  { intros s Hs'; apply in_map_iff in Hs' as (q & <- & Hq).
    specialize (Hrange q Hq); unfold len in Hrange.
    destruct (find_index_In (nth (Z.to_nat q) dy 0) dy) as (j & Hj & Hjlt);
      [apply nth_In; lia |].
    unfold g; cbn [float_of]; rewrite Hj; split; [reflexivity | exact Hjlt]. }
  assert (Hxlist : mapM (fun closesty => where_first dy (float_of closesty)) closest
                   = Ok (map g closest)).
  { apply mapM_pure; intros s Hs'.
    unfold where_first; rewrite (proj1 (Hfound s Hs')); reflexivity. }
  assert (Hxs : take_items dx (map g closest)
                = Ok (map (fun j => nth j dx 0) (map g closest))).
  { apply mapM_pure; intros j Hj.
    apply in_map_iff in Hj as (s & <- & Hs').
    unfold item; rewrite (nth_error_nth' dx 0); [reflexivity |].
    pose proof (proj2 (Hfound s Hs')); lia. }
  assert (Hpeak : In (nth i dx 0) (map (fun j => nth j dx 0) (map g closest))).
  { apply in_map_iff; exists i; split; [reflexivity |].
    apply in_map_iff; exists (Fmt (nth i dy 0)); split.
    - unfold g; cbn [float_of].
      rewrite (nth_error_nth _ _ 0 Hnth), Hi; reflexivity.
    - apply in_map_iff; exists (Z.of_nat i); split; [| exact Hall].
      rewrite Nat2Z.id; reflexivity. }
  destruct (find_nearest_total (map (fun j => nth j dx 0) (map g closest)) (nth i dx 0))
    as (v & Hv); [intros E; rewrite E in Hpeak; exact Hpeak |].
  assert (Ev : v = nth i dx 0).
  { destruct (find_nearest_spec _ _ _ Hv) as [_ Hnear].
    rewrite Forall_forall in Hnear; specialize (Hnear _ Hpeak).
    replace (nth i dx 0 - nth i dx 0) with 0 in Hnear by ring.
    rewrite Rabs_R0 in Hnear; apply Rabs_zero in Hnear; lra. }
  unfold half_height_x.
  replace (where_first dy extrema) with (Ok i : result nat)
    by (unfold where_first; rewrite Hi; reflexivity).
  cbn [bind].
  unfold item at 1; rewrite (nth_error_nth' dx 0) by lia; cbn [bind].
  rewrite Hclosest; cbn [bind].
  rewrite Hxlist; cbn [bind].
  rewrite Hxs; cbn [bind].
  rewrite Hv, Ev; reflexivity.
Qed.

(** X11.  When the smoothed histogram has exactly 28 points, the 28
    neighbours of the half height are all of them, the peak included, and
    the width estimated for any peak is zero. *)
Theorem exactly_28_points_give_zero_width (dx dy : list R) (extrema : R) :
  len dy = 28%Z -> (length dy <= length dx)%nat -> In extrema dy ->
  peak_sigma dx dy extrema = Ok 0.
Proof.
  intros Hlen Hdx Hin.
  destruct (half_height_x_of_all dx dy extrema Hlen Hdx Hin) as (m & Hm).
  rewrite (proj2 (peak_sigma_from_half_height _ _ _ _ _ Hm)).
  f_equal; replace (m - m) with 0 by ring.
  rewrite Rabs_R0; unfold Rdiv; ring.
Qed.

Lemma exactly_28_points_give_zero_width_witness :
  peak_sigma (map INR (seq 0 28)) (repeat 0 27 ++ [1]) 1 = Ok 0.
Proof.
  apply (exactly_28_points_give_zero_width (map INR (seq 0 28)) (repeat 0 27 ++ [1]) 1).
  - reflexivity.
  - simpl; lia.
  - apply in_or_app; right; left; reflexivity.
Defined.

(** ** The smoothing filter *)

(** X12.  With an explicitly named window, whatever the name, [smooth]
    never filters: on a one-dimensional array at least as long as a window of
    three or more points it raises [UnboundLocalError], for the five names
    the source lists as for any other. *)
Theorem smooth_named_window_never_filters
    (x : ndarray) (window_len : Z) (name : string) :
  ndim x = 1%nat -> (3 <= window_len <= size x)%Z ->
  smooth x window_len (Some name) = Raise UnboundLocalError.
Proof.
  intros Hd [H3 Hn]; unfold smooth.
  rewrite Hd; cbn [Nat.eqb negb].
  destruct (Z.ltb_spec (size x) window_len); [lia |].
  destruct (Z.ltb_spec window_len 3); [lia | reflexivity].
Qed.

Lemma smooth_named_window_never_filters_witness :
  smooth (array1 [1; 2; 3; 4]) 3 (Some "flat"%string) = Raise UnboundLocalError.
Proof.
  apply (smooth_named_window_never_filters (array1 [1; 2; 3; 4]) 3 "flat").
  - reflexivity.
  - rewrite size_array1; unfold len; simpl; lia.
Defined.

Lemma clamp_rev_bounds (n i : Z) : (0 <= n)%Z -> (-1 <= clamp_rev n i <= n - 1)%Z.
Proof.
  intros Hn; unfold clamp_rev.
  destruct (i <? 0)%Z;
    repeat match goal with
      | |- context [(?a <? ?b)%Z] => destruct (Z.ltb_spec a b)
      | |- context [(?a <=? ?b)%Z] => destruct (Z.leb_spec a b)
      end; lia.
Qed.

(** A reversed slice holds entries of the array only. *)
Lemma slice_rev_Forall (P : R -> Prop) (l : list R) (start stop : Z) :
  Forall P l -> Forall P (slice_rev l start stop).
Proof.
  intros H; unfold slice_rev.
  assert (Hn : (0 <= len l)%Z) by (unfold len; lia).
  pose proof (clamp_rev_bounds (len l) start Hn) as Ha.
  pose proof (clamp_rev_bounds (len l) stop Hn) as Hb.
  set (a := clamp_rev (len l) start) in *.
  set (b := clamp_rev (len l) stop) in *.
  apply Forall_forall; intros v Hv.
  apply in_map_iff in Hv as (k & <- & Hk); apply in_seq in Hk.
  rewrite Forall_forall in H; apply H, nth_In.
  unfold len in *; lia.
Qed.

Lemma Rsum_app (l l' : list R) : Rsum (l ++ l') = Rsum l + Rsum l'.
Proof.
  unfold Rsum; induction l as [| a l IH]; cbn [app fold_right]; [ring |].
  rewrite IH; ring.
Qed.

Lemma Rsum_rev (l : list R) : Rsum (rev l) = Rsum l.
Proof.
  induction l as [| a l IH]; [reflexivity |].
  cbn [rev]; rewrite Rsum_app, IH; unfold Rsum; cbn [fold_right]; ring.
Qed.

Lemma Rsum_map_div (l : list R) (c : R) :
  Rsum (map (fun wi => wi / c) l) = Rsum l / c.
Proof.
  unfold Rsum; induction l as [| a l IH]; cbn [map fold_right].
  - unfold Rdiv; ring.
  - rewrite IH; unfold Rdiv; ring.
Qed.

Lemma Rsum_nonnegative (l : list R) : Forall (fun w => 0 <= w) l -> 0 <= Rsum l.
Proof.
  unfold Rsum; induction 1 as [| a l Ha _ IH]; cbn [fold_right]; lra.
Qed.

Lemma Rsum_positive (l : list R) :
  Forall (fun w => 0 <= w) l -> Exists (fun w => 0 < w) l -> 0 < Rsum l.
Proof.
  intros Hall Hex; induction Hex as [a l Ha | a l _ IH].
  - pose proof (Rsum_nonnegative l (Forall_inv_tail Hall)).
    unfold Rsum in *; cbn [fold_right]; lra.
  - pose proof (Forall_inv Hall); specialize (IH (Forall_inv_tail Hall)).
    unfold Rsum in *; cbn [fold_right]; lra.
Qed.

(** A weighted sum with weights that are not negative lies between the
    bounds of the entries, scaled by the sum of the weights. *)
Lemma dot_bounds (lo hi : R) (v : list R) :
  forall a : list R,
    Forall (fun x => lo <= x <= hi) a -> Forall (fun w => 0 <= w) v ->
    (length v <= length a)%nat ->
    lo * Rsum v <= dot a v <= hi * Rsum v.
Proof.
  induction v as [| w v IH]; intros a Ha Hv Hlen.
  - destruct a; unfold Rsum; cbn [dot fold_right]; lra.
  - destruct a as [| x a]; [cbn [length] in Hlen; lia |].
    specialize (IH a (Forall_inv_tail Ha) (Forall_inv_tail Hv)
                  ltac:(cbn [length] in Hlen; lia)).
    pose proof (Forall_inv Ha); pose proof (Forall_inv Hv).
    unfold Rsum in *; cbn [dot fold_right]; nra.
Qed.

Lemma correlate_valid_bounds (lo hi : R) (v : list R) :
  Forall (fun w => 0 <= w) v -> Rsum v = 1 ->
  forall (count : nat) (a : list R),
    Forall (fun x => lo <= x <= hi) a ->
    (length v + count <= length a + 1)%nat ->
    Forall (fun y => lo <= y <= hi) (correlate_valid a v count).
Proof.
  intros Hv Hsum; induction count as [| count IH]; intros a Ha Hlen;
    cbn [correlate_valid]; constructor.
  - pose proof (dot_bounds lo hi v a Ha Hv ltac:(lia)) as H.
    rewrite Hsum in H; lra.
  - destruct a as [| x a].
    + destruct v; [unfold Rsum in Hsum; cbn in Hsum; lra | cbn [length] in Hlen; lia].
    + apply IH; [exact (Forall_inv_tail Ha) | cbn [tl length] in *; lia].
Qed.

Lemma np_convolve_valid_longer (a v : list R) :
  (0 < length a < length v)%nat ->
  np_convolve_valid a v
  = Ok (correlate_valid v (rev a) (length v - length a + 1)).
Proof.
  intros [Ha Hav].
  destruct a as [| a0 a]; [cbn in Ha; lia |].
  destruct v as [| v0 v]; [cbn in Hav; lia |].
  unfold np_convolve_valid.
  rewrite (proj2 (Nat.ltb_lt _ _) Hav); reflexivity.
Qed.

Lemma np_hanning_nonnegative (M : Z) : Forall (fun w => 0 <= w) (np_hanning M).
Proof.
  unfold np_hanning, np_window.
  destruct (M <? 1)%Z; [constructor |].
  destruct (M =? 1)%Z; [constructor; [lra | constructor] |].
  apply Forall_forall; intros w Hw.
  apply in_map_iff in Hw as (n & <- & _).
  pose proof (COS_bound (PI * (n / (IZR M - 1)))); lra.
Qed.

Lemma cos_above_minus_one (x : R) : - PI < x < PI -> -1 < cos x.
Proof.
  intros [Hlo Hhi].
  replace x with (2 * (x / 2)) by field.
  rewrite cos_2a_cos.
  assert (0 < cos (x / 2)) by (apply cos_gt_0; lra).
  nra.
Qed.

(** The Hanning window of three or more points has weights that are not all
    zero: the second one is positive. *)
Lemma np_hanning_sum_positive (M : Z) : (3 <= M)%Z -> 0 < Rsum (np_hanning M).
Proof.
  intros HM; apply Rsum_positive; [apply np_hanning_nonnegative |].
  apply Exists_exists.
  exists (0.5 + 0.5 * cos (PI * ((1 - INR (Z.to_nat M) + 2 * INR 1) / (IZR M - 1)))).
  split.
  - unfold np_hanning, np_window.
    destruct (Z.ltb_spec M 1); [lia |].
    destruct (Z.eqb_spec M 1); [lia |].
    apply in_map_iff; eexists; split; [reflexivity |].
    unfold window_axis; apply in_map_iff.
    exists 1%nat; split; [reflexivity | apply in_seq; lia].
  - rewrite INR_IZR_INZ, Z2Nat.id by lia.
    assert (Hm : 3 <= IZR M) by (apply IZR_le; exact HM).
    set (m := IZR M) in *; cbn [INR].
    set (t := (1 - m + 2 * 1) / (m - 1)).
    assert (Ht : -1 < t <= 0).
    { unfold t, Rdiv.
      assert (Hinv : 0 < / (m - 1)) by (apply Rinv_0_lt_compat; lra).
      assert (Hone : (m - 1) * / (m - 1) = 1) by (apply Rinv_r; lra).
      split; nra. }
    pose proof PI_RGT_0 as Hpi.
    assert (-1 < cos (PI * t)) by (apply cos_above_minus_one; split; nra).
    lra.
Qed.

(** X13.  With the default window and [3 <= window_len <= len(x)], every
    value of the smoothed array lies between bounds that hold for every
    value of the input: the filter is a weighted mean, with weights that are
    not negative and sum to one, of entries of the input and of its mirrored
    ends. *)
Theorem smooth_within_input_range (l : list R) (window_len : Z) (lo hi : R) :
  (3 <= window_len <= len l)%Z ->
  Forall (fun v => lo <= v <= hi) l ->
  exists y, smooth (array1 l) window_len None = Ok (array1 y)
            /\ Forall (fun v => lo <= v <= hi) y.
Proof.
  intros [H3 Hn] Hl; unfold smooth.
  change (ndim (array1 l)) with 1%nat; rewrite size_array1; simpl negb.
  cbv iota.
  destruct (Z.ltb_spec (len l) window_len); [lia |].
  destruct (Z.ltb_spec window_len 3); [lia |].
  simpl existsb; simpl negb; cbv iota.
  change (String.eqb "hanning" "flat") with false; cbv iota.
  change (eval_window "hanning" window_len) with (np_hanning window_len).
  change (flat (array1 l)) with l.
  pose proof (np_hanning_sum_positive window_len H3) as Hpos.
  pose proof (np_hanning_nonnegative window_len) as Hnn.
  set (total := Rsum (np_hanning window_len)) in *.
  set (w := map _ (np_hanning window_len)).
  set (s := _ ++ l ++ _).
  assert (Hw : len w = window_len).
  { unfold w, len; rewrite length_map; apply np_hanning_length; lia. }
  assert (Hs : len s = (len l + 2 * (window_len - 1))%Z).
  { apply smooth_padding_length; lia. }
  assert (Hlen : (0 < length w < length s)%nat)
    by (clear - Hw Hs H3 Hn; unfold len in *; lia).
  rewrite (np_convolve_valid_longer w s Hlen); cbn [bind].
  exists (correlate_valid s (rev w) (length s - length w + 1)).
  split; [reflexivity |].
  apply correlate_valid_bounds.
  - apply Forall_rev, Forall_forall; intros wi Hwi.
    apply in_map_iff in Hwi as (w0 & <- & Hw0).
    rewrite Forall_forall in Hnn; specialize (Hnn w0 Hw0).
    apply Rmult_le_pos; [exact Hnn | left; apply Rinv_0_lt_compat; exact Hpos].
  - unfold w; rewrite Rsum_rev, Rsum_map_div.
    fold total; unfold Rdiv; apply Rinv_r; lra.
  - unfold s; apply Forall_app; split; [apply slice_rev_Forall; exact Hl |].
    apply Forall_app; split; [exact Hl | apply slice_rev_Forall; exact Hl].
  - rewrite length_rev; clear - Hlen; lia.
Qed.

Lemma smooth_within_input_range_witness :
  exists y, smooth (array1 [1; 3; 2; 5; 4]) 3 None = Ok (array1 y)
            /\ Forall (fun v => 1 <= v <= 5) y.
Proof.
  apply (smooth_within_input_range [1; 3; 2; 5; 4] 3 1 5).
  - unfold len; simpl; lia.
  - repeat (constructor; [lra |]); constructor.
Defined.

(** ** Pruning and the fitted curves *)

Section Fit.

Variable np_histogram : list R -> Z -> exn + (list R * list R).
Variable curve_fit : model -> list R -> list R -> list R -> exn + list R.
Variable erf : R -> R.

Local Abbreviation fit := (gauss_fit np_histogram curve_fit erf).
Local Abbreviation loop := (retry_loop np_histogram curve_fit erf).
Local Abbreviation calls_of := (smart_gauss_fit_calls np_histogram curve_fit erf).

(** X14.  Whenever [erf] keeps within [-1, 1], as [math.erf] does, a fitted
    component whose amplitude is at most 0.02 in magnitude is pruned, whatever
    its mean and its width: the mass it has between the ends of the sample
    cannot exceed its amplitude. *)
Theorem small_amplitude_is_pruned
    (distribution xline params : list R) (gauss_index : nat) (mu sigma A : R) :
  (forall t, -1 <= erf t <= 1) ->
  distribution <> [] ->
  item params (0 + gauss_index) = Ok mu ->
  item params (1 + gauss_index) = Ok sigma ->
  item params (2 + gauss_index) = Ok A ->
  Rabs A <= 0.02 ->
  keep_component erf distribution xline params gauss_index = Ok [].
Proof.
  intros Herf Hne Hmu Hsigma HA Hsmall; unfold keep_component.
  destruct (py_max_total distribution Hne) as (hi & ->).
  destruct (py_min_total distribution Hne) as (lo & ->).
  rewrite Hmu, Hsigma, HA; cbn [bind].
  assert (Hrange : forall num den e,
             erf_of_quotient erf num den = Some e -> -1 <= e <= 1).
  { intros num den e; unfold erf_of_quotient.
    destruct (Reqb den 0).
    - destruct (Rltb 0 num); [intros [= <-]; lra |].
      destruct (Rltb num 0); [intros [= <-]; lra | discriminate].
    - intros [= <-]; apply Herf. }
  unfold _integral.
  destruct (erf_of_quotient erf (hi - mu) (sigma * sqrt 2)) as [e1 |] eqn:E1;
    [| reflexivity].
  destruct (erf_of_quotient erf (lo - mu) (sigma * sqrt 2)) as [e2 |] eqn:E2;
    [| reflexivity].
  pose proof (Hrange _ _ _ E1) as H1; pose proof (Hrange _ _ _ E2) as H2.
  cbn [option_map differ_by_more_than].
  rewrite Rltb_false; [reflexivity |].
  replace (A / 2 * (1 + e1) - A / 2 * (1 + e2)) with (A * ((e1 - e2) / 2)) by field.
  rewrite Rabs_mult.
  assert (Rabs ((e1 - e2) / 2) <= 1) by (apply Rabs_le; lra).
  pose proof (Rabs_pos A); pose proof (Rabs_pos ((e1 - e2) / 2)).
  nra.
Qed.

Lemma np_linspace_ends (start stop : R) (num : nat) (d : R) :
  (2 <= num)%nat ->
  hd_error (np_linspace start stop num) = Some start
  /\ last (np_linspace start stop num) d = stop.
Proof.
  intros H; destruct num as [| [| n]]; try lia.
  cbn [np_linspace]; split; [| apply last_last].
  cbn [seq map app hd_error INR]; f_equal; unfold Rdiv; ring.
Qed.

(** X15.  When [gauss_fit] returns, the x-axis of the fitted curves has
    exactly 10000 points, starts at the minimum of the sample, ends at its
    maximum and stays between them, and every curve that survived the
    pruning has one value per point of that axis, none of them negative. *)
Theorem gauss_fit_grid (distribution : list R) (gauss_bin gauss_smooth : Z)
    (gaussians : list (list R)) (xline : list R) :
  fit distribution gauss_bin gauss_smooth = Ok (gaussians, xline) ->
  exists lo hi,
    py_min distribution = Ok lo /\ py_max distribution = Ok hi
    /\ len xline = 10000%Z
    /\ hd_error xline = Some lo /\ last xline 0 = hi
    /\ Forall (fun x => lo <= x <= hi) xline
    /\ Forall (fun g => len g = 10000%Z /\ Forall (fun y => 0 <= y) g) gaussians.
Proof.
  intros H.
  destruct (gauss_fit_returns _ _ _ _ _ _ _ _ H) as (lo & hi & Hlo & Hhi & -> & Hg).
  exists lo, hi.
  assert (Hle : lo <= hi).
  { destruct (py_min_spec _ _ Hlo) as [Hin _].
    destruct (py_max_spec _ _ Hhi) as [_ Hall].
    rewrite Forall_forall in Hall; apply Hall; exact Hin. }
  assert (Hlen : len (np_linspace lo hi grid_points) = 10000%Z).
  { unfold len; rewrite np_linspace_length, grid_points_value; lia. }
  destruct (np_linspace_ends lo hi grid_points 0) as [Hfirst Hlast];
    [rewrite grid_points_value; lia |].
  split; [exact Hlo | split; [exact Hhi | split; [exact Hlen |]]].
  split; [exact Hfirst | split; [exact Hlast |]].
  split; [apply np_linspace_between; exact Hle |].
  apply Forall_forall; intros g Hin.
  rewrite Forall_forall in Hg; destruct (Hg g Hin) as (mu & sigma & A & Hgauss).
  unfold _gauss in Hgauss.
  destruct (negb (Reqb sigma 0)); [| discriminate].
  apply Ok_inj in Hgauss; subst g; split.
  - unfold len in *; rewrite length_map; exact Hlen.
  - apply Forall_forall; intros y Hy.
    apply in_map_iff in Hy as (xi & <- & _); apply Rabs_pos.
Qed.

(** ** The retry loop *)

Lemma py_range_In (a b q : Z) : In q (py_range a b) -> (a <= q < b)%Z.
Proof.
  unfold py_range; intros H.
  apply in_map_iff in H as (k & <- & Hk); apply in_seq in Hk; lia.
Qed.

Lemma alternate_In (down up : list Z) (d : Z) :
  In d (alternate down up) -> In d down \/ In d up.
Proof.
  revert up; induction down as [| a down IH]; intros [| u up] H;
    cbn [alternate] in H; try contradiction.
  destruct H as [<- | [<- | H]]; [left; left; reflexivity | right; left; reflexivity |].
  destruct (IH up H); [left | right]; right; assumption.
Qed.

(** No adjustment moves the bin count by more than 9999. *)
Lemma bin_adjust_In (d : Z) : In d bin_adjust -> (-9999 <= d <= 9999)%Z.
Proof.
  rewrite bin_adjust_alternates; intros H.
  apply alternate_In in H as [H | H].
  - unfold bin_adjust_down in H; apply in_map_iff in H as (u & <- & H).
    apply py_range_In in H; lia.
  - apply py_range_In in H; lia.
Qed.

Section Bounded.

Variables (distr : list R) (bin_origin gauss_smooth : Z).

(** From any state of the loop that still has an adjustment to read: the
    calls left are at most the entries of the table left, the first one is
    the pending call, every later one adds an entry of the table to the
    requested bin count, and the loop ends with what the last call returned
    or with the [IndexError] of the table. *)
Lemma retry_loop_calls (fuel : nat) :
  forall (attempt_no : nat) (gauss_bins : Z),
    (length bin_adjust <= attempt_no + fuel)%nat ->
    (attempt_no < length bin_adjust)%nat ->
    let run := loop distr bin_origin gauss_smooth fuel attempt_no gauss_bins in
    (1 <= length (fst run) <= length bin_adjust - attempt_no)%nat
    /\ hd_error (fst run) = Some (gauss_bins, gauss_smooth)
    /\ Forall (fun call : attempt =>
                 exists adjust, In adjust bin_adjust
                                /\ fst call = (bin_origin + adjust)%Z)
         (tl (fst run))
    /\ (snd run = Raise IndexError
        \/ exists fitted bins,
             snd run = Ok fitted
             /\ last (fst run) (0, 0)%Z = (bins, gauss_smooth)
             /\ fit distr bins gauss_smooth = Ok fitted).
Proof.
  induction fuel as [| fuel IH]; intros attempt_no gauss_bins Hfuel Hno; [lia |].
  cbv zeta; rewrite retry_loop_step.
  destruct (fit distr gauss_bins gauss_smooth) as [fitted | e |] eqn:Efit.
  - cbn [fst snd length hd_error tl].
    split; [lia | split; [reflexivity | split; [constructor |]]].
    right; exists fitted, gauss_bins; repeat split; assumption.
  - unfold item.
    destruct (nth_error bin_adjust (S attempt_no)) as [adjust |] eqn:Eadj.
    + assert (Hlt : (S attempt_no < length bin_adjust)%nat)
        by (apply nth_error_Some; rewrite Eadj; discriminate).
      specialize (IH (S attempt_no) (bin_origin + adjust)%Z ltac:(lia) Hlt).
      cbv zeta in IH; destruct IH as (Hlen & Hhd & Hall & Hend).
      set (rest := loop distr bin_origin gauss_smooth fuel (S attempt_no)
                     (bin_origin + adjust)%Z) in *.
      cbn [fst snd length hd_error tl].
      split; [lia | split; [reflexivity | split]].
      * destruct (fst rest) as [| call calls] eqn:Erest; [constructor |].
        cbn [hd_error tl] in *; constructor; [| exact Hall].
        injection Hhd as ->; exists adjust; split; [| reflexivity].
        eapply nth_error_In; exact Eadj.
      * destruct Hend as [Hend | (fitted & bins & Hok & Hlast & Hfit)];
          [left; exact Hend |].
        right; exists fitted, bins; split; [exact Hok | split; [| exact Hfit]].
        destruct (fst rest) as [| call calls]; [cbn [length] in Hlen; lia |].
        exact Hlast.
    + cbn [fst snd length hd_error tl].
      split; [lia | split; [reflexivity | split; [constructor |]]].
      left; reflexivity.
  - exfalso; exact (unblocked_gauss_fit _ _ _ _ _ _ Efit).
Qed.

End Bounded.

(** X16.  [smart_gauss_fit] makes between one and 19998 calls of
    [gauss_fit].  The first is given the requested bin count, every later
    one a bin count within 9999 of it, and the run ends either with what the
    last call returned or, once the table of adjustments is used up, with
    [IndexError]. *)
Theorem smart_gauss_fit_calls_bounded
    (distr : list R) (gauss_bins : Z) (gauss_smooth : option Z) :
  let run := calls_of distr gauss_bins gauss_smooth in
  (1 <= len (fst run) <= 19998)%Z
  /\ hd_error (fst run) = Some (gauss_bins, window_used gauss_bins gauss_smooth)
  /\ Forall (fun call : attempt =>
               (gauss_bins - 9999 <= fst call <= gauss_bins + 9999)%Z) (fst run)
  /\ (snd run = Raise IndexError
      \/ exists fitted bins,
           snd run = Ok fitted
           /\ last (fst run) (0, 0)%Z = (bins, window_used gauss_bins gauss_smooth)
           /\ fit distr bins (window_used gauss_bins gauss_smooth) = Ok fitted).
Proof.
  pose proof bin_adjust_length as Hlen; unfold len in Hlen.
  cbv zeta; unfold smart_gauss_fit_calls.
  fold (window_used gauss_bins gauss_smooth).
  destruct (retry_loop_calls distr gauss_bins (window_used gauss_bins gauss_smooth)
              (S (length bin_adjust)) 0 gauss_bins) as (Hn & Hhd & Hall & Hend);
    [lia | lia |].
  cbv zeta in Hn, Hhd, Hall, Hend.
  set (run := loop distr gauss_bins (window_used gauss_bins gauss_smooth)
                (S (length bin_adjust)) 0 gauss_bins) in *.
  split; [unfold len; lia | split; [exact Hhd | split; [| exact Hend]]].
  destruct (fst run) as [| call calls]; [constructor |].
  cbn [hd_error tl] in *; injection Hhd as ->.
  constructor; [cbn [fst]; lia |].
  apply Forall_forall; intros call Hin.
  rewrite Forall_forall in Hall.
  destruct (Hall call Hin) as (adjust & Hadj & ->).
  apply bin_adjust_In in Hadj; lia.
Qed.

(** X17.  When every call of [gauss_fit] fails, [smart_gauss_fit] gives up
    only after exactly 19998 calls, and then with [IndexError]. *)
Theorem all_failures_end_in_IndexError
    (distr : list R) (gauss_bins : Z) (gauss_smooth : option Z) :
  (forall bins, exists e,
      fit distr bins (window_used gauss_bins gauss_smooth) = Raise e) ->
  len (fst (calls_of distr gauss_bins gauss_smooth)) = 19998%Z
  /\ smart_gauss_fit np_histogram curve_fit erf distr gauss_bins gauss_smooth
     = Raise IndexError.
Proof.
  intros Hfail; unfold smart_gauss_fit.
  rewrite (calls_when_all_fail _ _ _ _ _ _ Hfail); cbn [fst snd].
  split; [| reflexivity].
  pose proof bin_adjust_length as Hlen; unfold len in *.
  cbn [length]; rewrite length_map.
  destruct (bin_adjust_starts) as (rest & E).
  rewrite E in *; cbn [tl length] in *; lia.
Qed.

(** X18.  When every call fails, the retries read the table from its second
    entry: retry [2j+1] is given the requested bin count plus [j+1] and
    retry [2j+2] the requested bin count minus [j+2], for every [j] below
    9998. *)
Theorem retries_alternate_around_origin
    (distr : list R) (gauss_bins : Z) (gauss_smooth : option Z) (j : nat) :
  (forall bins, exists e,
      fit distr bins (window_used gauss_bins gauss_smooth) = Raise e) ->
  (Z.of_nat j < 9998)%Z ->
  nth_error (map fst (fst (calls_of distr gauss_bins gauss_smooth))) (2 * j + 1)
  = Some (gauss_bins + (Z.of_nat j + 1))%Z
  /\ nth_error (map fst (fst (calls_of distr gauss_bins gauss_smooth))) (2 * j + 2)
     = Some (gauss_bins + - (Z.of_nat j + 2))%Z.
Proof.
  intros Hfail Hj; exact (retry_adjustments _ _ _ _ _ _ j Hfail Hj).
Qed.

End Fit.

Lemma step_erf_bounded (t : R) : -1 <= step_erf t <= 1.
Proof. unfold step_erf; destruct (Rltb 0 t); lra. Qed.

Lemma small_amplitude_is_pruned_witness :
  keep_component step_erf [0; 1] [0; 0.5; 1] [0.5; 0; 0.01] 0 = Ok [].
Proof.
  apply (small_amplitude_is_pruned step_erf [0; 1] [0; 0.5; 1] [0.5; 0; 0.01]
           0 0.5 0 0.01).
  - exact step_erf_bounded.
  - discriminate.
  - reflexivity.
  - reflexivity.
  - reflexivity.
  - rewrite Rabs_pos_eq; lra.
Defined.

Lemma gauss_fit_grid_witness :
  exists gaussians xline lo hi,
    gauss_fit sample_histogram sample_fit step_erf sample 29 1 = Ok (gaussians, xline)
    /\ py_min sample = Ok lo /\ py_max sample = Ok hi
    /\ len xline = 10000%Z
    /\ hd_error xline = Some lo /\ last xline 0 = hi
    /\ Forall (fun x => lo <= x <= hi) xline
    /\ Forall (fun g => len g = 10000%Z /\ Forall (fun y => 0 <= y) g) gaussians.
Proof.
  destruct sample_gauss_fit as (g & _ & Hfit).
  destruct (gauss_fit_grid sample_histogram sample_fit step_erf sample 29 1 _ _ Hfit)
    as (lo & hi & H).
  exists [g], (np_linspace 25000 25005.8 grid_points), lo, hi.
  split; [exact Hfit | exact H].
Defined.

Lemma all_failures_end_in_IndexError_witness :
  len (fst (smart_gauss_fit_calls sample_histogram sample_fit step_erf [] 120 None))
  = 19998%Z
  /\ smart_gauss_fit sample_histogram sample_fit step_erf [] 120 None
     = Raise IndexError.
Proof.
  apply (all_failures_end_in_IndexError sample_histogram sample_fit step_erf [] 120 None).
  intros bins; apply gauss_fit_empty.
Defined.

Lemma retries_alternate_around_origin_witness :
  nth_error (map fst (fst (smart_gauss_fit_calls sample_histogram sample_fit
                             step_erf [] 120 None))) (2 * 3 + 1)
  = Some (120 + (Z.of_nat 3 + 1))%Z
  /\ nth_error (map fst (fst (smart_gauss_fit_calls sample_histogram sample_fit
                                step_erf [] 120 None))) (2 * 3 + 2)
     = Some (120 + - (Z.of_nat 3 + 2))%Z.
Proof.
  apply (retries_alternate_around_origin sample_histogram sample_fit step_erf
           [] 120 None 3).
  - intros bins; apply gauss_fit_empty.
  - simpl; lia.
Defined.

(** ** The intersection resolver *)

Lemma state_limits_between_length (numpy : numpy_release)
    (rg : list (list R)) (xline : list R) :
  forall between,
    state_limits_between numpy rg xline = Ok between ->
    length between = (length rg - 1)%nat.
Proof.
  induction rg as [| g1 rg IH]; intros between H.
  - apply Ok_inj in H; subst; reflexivity.
  - destruct rg as [| g2 rest].
    + apply Ok_inj in H; subst; reflexivity.
    + cbn [state_limits_between] in H.
      apply bind_Ok in H as (b & _ & H).
      apply bind_Ok in H as (bs & Hbs & H).
      apply Ok_inj in H; subst between.
      specialize (IH bs Hbs); cbn [length] in *; lia.
Qed.

(** X19.  When [get_intersects] returns, its list starts with the minimum of
    the distribution and ends with its maximum, with one limit in between for
    each pair of neighbours among the curves retained: one entry more than
    there are curves retained, and two entries when none or one is. *)
Theorem get_intersects_shape (numpy : numpy_release)
    (gaussians : list (list R)) (distribution xline ios : list R) :
  get_intersects numpy gaussians distribution xline = Ok ios ->
  exists lo hi reorder_gaussians,
    py_min distribution = Ok lo /\ py_max distribution = Ok hi
    /\ reorder gaussians xline = Ok reorder_gaussians
    /\ hd_error ios = Some lo /\ last ios 0 = hi
    /\ length ios = (length reorder_gaussians - 1 + 2)%nat.
Proof.
  intros H.
  destruct (get_intersects_returns _ _ _ _ _ H)
    as (lo & hi & rg & between & Hlo & Hhi & Hrg & Hbetween & ->).
  exists lo, hi, rg.
  split; [exact Hlo | split; [exact Hhi | split; [exact Hrg |]]].
  split; [reflexivity | split; [apply last_last |]].
  rewrite length_app; cbn [length].
  rewrite (state_limits_between_length _ _ _ _ Hbetween); lia.
Qed.

Lemma get_intersects_shape_witness :
  exists lo hi reorder_gaussians,
    py_min [4; 1; 7] = Ok lo /\ py_max [4; 1; 7] = Ok hi
    /\ reorder [[1; 2; 1]] [0; 1; 2] = Ok reorder_gaussians
    /\ hd_error [1; 7] = Some lo /\ last [1; 7] 0 = hi
    /\ length [1; 7] = (length reorder_gaussians - 1 + 2)%nat.
Proof.
  apply (get_intersects_shape numpy_2_4 [[1; 2; 1]] [4; 1; 7] [0; 1; 2] [1; 7]).
  apply get_intersects_single.
  - discriminate.
  - simpl; lia.
  - apply py_min_is; [r_in | r_forall lra].
  - apply py_max_is; [r_in | r_forall lra].
Defined.

Lemma Forall2_at {A B : Type} (P : A -> B -> Prop) (l : list A) (l' : list B) :
  Forall2 P l l' ->
  forall i a b, nth_error l i = Some a -> nth_error l' i = Some b -> P a b.
Proof.
  induction 1 as [| x y l l' Hxy _ IH]; intros [| i] a b Ha Hb;
    cbn [nth_error] in *; try discriminate.
  - injection Ha as <-; injection Hb as <-; exact Hxy.
  - eapply IH; eassumption.
Qed.

Lemma item_nth_error {A : Type} (l : list A) (i : nat) (a : A) :
  item l i = Ok a -> nth_error l i = Some a.
Proof.
  unfold item; destruct (nth_error l i); [| discriminate].
  intros H; apply Ok_inj in H; subst; reflexivity.
Qed.

(** Walking the sorted peaks: each curve kept peaks at the x it was looked up
    by, so the curves kept come in the order of the sorted peaks. *)
Lemma reorder_walk (gaussians : list (list R)) (xline means : list R) :
  Forall2 (fun g m => peak_x g xline = Ok m) gaussians means ->
  forall (sorted_means : list R) (indices : list nat) (kept : list (list (list R))),
    StronglySorted Rle sorted_means ->
    Forall2 (fun m i => index_of means m = Ok i) sorted_means indices ->
    Forall2 (fun gauss_num k =>
               (g <- item gaussians gauss_num ;;
                top <- py_max g ;;
                Ok (if Rltb 0.0001 top then [g] else [])) = Ok k) indices kept ->
    exists peaks,
      Forall2 (fun g x => peak_x g xline = Ok x) (concat kept) peaks
      /\ StronglySorted Rle peaks
      /\ Forall (fun x => In x sorted_means) peaks
      /\ Forall (fun g => In g gaussians
                          /\ exists top, py_max g = Ok top /\ 0.0001 < top)
           (concat kept).
Proof.
  intros Hmeans sorted_means; induction sorted_means as [| m sm IH];
    intros indices kept Hsorted Hidx Hkept.
  - inversion Hidx; subst; inversion Hkept; subst.
    exists []; cbn [concat]; repeat split; constructor.
  - inversion Hidx as [| m' i sm' rest Hi Hidx']; subst.
    inversion Hkept as [| i' k rest' ks Hk Hkept']; subst.
    apply StronglySorted_inv in Hsorted as [Hsorted Hle].
    destruct (IH rest ks Hsorted Hidx' Hkept') as (peaks & Hp & Hs & Hin & Hg).
    apply bind_Ok in Hk as (g & Hitem & Hk).
    apply bind_Ok in Hk as (top & Htop & Hk).
    apply Ok_inj in Hk; subst k.
    assert (Hpeak : peak_x g xline = Ok m).
    { unfold index_of in Hi.
      destruct (find_index m means) as [j |] eqn:Ej; [| discriminate].
      apply Ok_inj in Hi; subst j.
      apply (Forall2_at _ _ _ Hmeans i g m);
        [apply item_nth_error; exact Hitem | apply find_index_sound; exact Ej]. }
    assert (Hin' : Forall (fun x => In x (m :: sm)) peaks).
    { eapply Forall_impl; [| exact Hin]; intros x Hx; right; exact Hx. }
    cbn [concat].
    destruct (Rltb_spec 0.0001 top) as [Hbig | Hsmall].
    + exists (m :: peaks); cbn [app].
      split; [constructor; assumption |].
      split; [constructor; [exact Hs |] |].
      { apply Forall_forall; intros x Hx.
        rewrite Forall_forall in Hin, Hle; apply Hle, Hin, Hx. }
      split; [constructor; [left; reflexivity | exact Hin'] |].
      constructor; [| exact Hg].
      split; [eapply item_In; exact Hitem | exists top; split; assumption].
    + exists peaks; cbn [app].
      split; [exact Hp | split; [exact Hs | split; [exact Hin' | exact Hg]]].
Qed.

(** X20.  The curves [get_intersects] retains are curves it was given whose
    maximum exceeds 0.0001, and they come in the order of the x at which
    they peak, from the lowest to the highest. *)
Theorem reorder_sorted_by_peak (gaussians : list (list R)) (xline : list R)
    (reorder_gaussians : list (list R)) :
  reorder gaussians xline = Ok reorder_gaussians ->
  exists peaks,
    Forall2 (fun g x => peak_x g xline = Ok x) reorder_gaussians peaks
    /\ StronglySorted Rle peaks
    /\ Forall (fun g => In g gaussians
                        /\ exists top, py_max g = Ok top /\ 0.0001 < top)
         reorder_gaussians.
Proof.
  unfold reorder; intros H.
  apply bind_Ok in H as (means & Hmeans & H).
  apply bind_Ok in H as (indices & Hidx & H).
  apply bind_Ok in H as (kept & Hkept & H).
  apply Ok_inj in H; subst reorder_gaussians.
  apply mapM_Ok_Forall2 in Hmeans, Hidx, Hkept.
  destruct (reorder_walk gaussians xline means Hmeans (py_sorted means) indices kept)
    as (peaks & Hp & Hs & _ & Hg);
    [apply py_sorted_sorted | exact Hidx | exact Hkept |].
  exists peaks; split; [exact Hp | split; [exact Hs | exact Hg]].
Qed.

Lemma peak_x_is (g xline : list R) (top x : R) (i : nat) :
  py_max g = Ok top -> find_index top g = Some i -> nth_error xline i = Some x ->
  peak_x g xline = Ok x.
Proof.
  intros Htop Hi Hx; unfold peak_x, peak_position, index_of, item.
  rewrite Htop; cbn [bind]; rewrite Hi; cbn [bind]; rewrite Hx; reflexivity.
Qed.

Lemma reorder_same_peak (g1 g2 xline : list R) (m top : R) :
  peak_x g1 xline = Ok m -> peak_x g2 xline = Ok m ->
  py_max g1 = Ok top -> 0.0001 < top ->
  reorder [g1; g2] xline = Ok [g1; g1].
Proof.
  intros H1 H2 Htop Hbig; unfold peak_x in H1, H2; unfold reorder.
  cbn [mapM]; rewrite H1, H2; cbn [bind].
  cbn [py_sorted fold_right insert_sorted].
  rewrite Rleb_true by lra; cbn [mapM].
  unfold index_of; cbn [find_index]; rewrite Reqb_true by reflexivity.
  cbn [bind mapM item nth_error]; rewrite Htop; cbn [bind].
  rewrite Rltb_true by exact Hbig; reflexivity.
Qed.

(** X21.  Two curves that peak at the same x are not both retained: the one
    given first is looked up for both places, so when its maximum exceeds
    0.0001 it comes out twice and the other one not at all. *)
Theorem same_peak_first_curve_twice (g1 g2 xline : list R) (m top : R) :
  peak_x g1 xline = Ok m -> peak_x g2 xline = Ok m ->
  py_max g1 = Ok top -> 0.0001 < top ->
  reorder [g1; g2] xline = Ok [g1; g1].
Proof. exact (reorder_same_peak g1 g2 xline m top). Qed.

(** Two curves on the grid [0, 1, 2] that both peak at 1. *)
Lemma narrow_curve_peak_x : peak_x [1; 2; 1] [0; 1; 2] = Ok 1.
Proof.
  apply (peak_x_is _ _ 2 1 1%nat);
    [apply py_max_is; [r_in | r_forall lra] | r_eval; reflexivity | reflexivity].
Qed.

Lemma tall_curve_peak_x : peak_x [0; 3; 0] [0; 1; 2] = Ok 1.
Proof.
  apply (peak_x_is _ _ 3 1 1%nat);
    [apply py_max_is; [r_in | r_forall lra] | r_eval; reflexivity | reflexivity].
Qed.

Lemma narrow_curve_max : py_max [1; 2; 1] = Ok 2.
Proof. apply py_max_is; [r_in | r_forall lra]. Qed.

Lemma same_peak_first_curve_twice_witness :
  reorder [[1; 2; 1]; [0; 3; 0]] [0; 1; 2] = Ok [[1; 2; 1]; [1; 2; 1]].
Proof.
  apply (same_peak_first_curve_twice [1; 2; 1] [0; 3; 0] [0; 1; 2] 1 2).
  - exact narrow_curve_peak_x.
  - exact tall_curve_peak_x.
  - exact narrow_curve_max.
  - lra.
Defined.

Lemma reorder_sorted_by_peak_witness :
  exists peaks,
    Forall2 (fun g x => peak_x g [0; 1; 2] = Ok x) [[1; 2; 1]; [1; 2; 1]] peaks
    /\ StronglySorted Rle peaks
    /\ Forall (fun g => In g [[1; 2; 1]; [0; 3; 0]]
                        /\ exists top, py_max g = Ok top /\ 0.0001 < top)
         [[1; 2; 1]; [1; 2; 1]].
Proof.
  apply (reorder_sorted_by_peak [[1; 2; 1]; [0; 3; 0]] [0; 1; 2]).
  apply (reorder_same_peak [1; 2; 1] [0; 3; 0] [0; 1; 2] 1 2).
  - exact narrow_curve_peak_x.
  - exact tall_curve_peak_x.
  - exact narrow_curve_max.
  - lra.
Defined.

(** ** Where two neighbouring curves cross *)

Lemma argwhere_from_In (l : list R) :
  forall k i,
    In i (argwhere_from k l)
    <-> (k <= i)%nat /\ exists a, nth_error l (i - k) = Some a /\ a <> 0.
Proof.
  induction l as [| a l IH]; intros k i; cbn [argwhere_from].
  - split; [contradiction | intros (_ & b & H & _)].
    destruct (i - k)%nat; discriminate.
  - rewrite in_app_iff, IH; split.
    + intros [H | (Hk & b & Hb & Hnz)].
      * destruct (Reqb_spec a 0) as [Hz | Hnz]; [contradiction |].
        destruct H as [<- | []].
        split; [lia |]; exists a; rewrite Nat.sub_diag; split; [reflexivity | exact Hnz].
      * split; [lia |]; exists b; split; [| exact Hnz].
        replace (i - k)%nat with (S (i - S k)) by lia; exact Hb.
    + intros (Hk & b & Hb & Hnz).
      destruct (Nat.eq_dec i k) as [-> | Hne].
      * left; rewrite Nat.sub_diag in Hb; cbn [nth_error] in Hb.
        injection Hb as ->.
        rewrite Reqb_false by exact Hnz; left; reflexivity.
      * right; split; [lia |]; exists b; split; [| exact Hnz].
        replace (i - k)%nat with (S (i - S k)) in Hb by lia; exact Hb.
Qed.

Lemma argwhere_from_NoDup (l : list R) : forall k, NoDup (argwhere_from k l).
Proof.
  induction l as [| a l IH]; intros k; cbn [argwhere_from]; [constructor |].
  destruct (Reqb a 0); cbn [app]; [apply IH |].
  constructor; [| apply IH].
  intros H; apply argwhere_from_In in H as [H _]; lia.
Qed.

Lemma np_diff_nth (l : list R) :
  forall i,
    nth_error (np_diff l) i
    = match nth_error l i, nth_error l (S i) with
      | Some a, Some b => Some (b - a)
      | _, _ => None
      end.
Proof.
  induction l as [| a l IH]; intros i.
  - destruct i; reflexivity.
  - destruct l as [| b l'].
    + destruct i as [| [| i]]; reflexivity.
    + change (np_diff (a :: b :: l')) with ((b - a) :: np_diff (b :: l')).
      destruct i as [| i]; [reflexivity |].
      cbn [nth_error]; rewrite IH; reflexivity.
Qed.

(** The positions [np.argwhere(np.diff(np.sign(d)))] holds are those where
    the sign of [d] is not the sign of the next entry. *)
Lemma sign_changes_In (d : list R) (i : nat) :
  In i (np_argwhere (np_diff (map np_sign d)))
  <-> exists a b, nth_error d i = Some a /\ nth_error d (S i) = Some b
                  /\ np_sign b <> np_sign a.
Proof.
  unfold np_argwhere; rewrite argwhere_from_In, Nat.sub_0_r.
  split.
  - intros (_ & c & Hc & Hnz).
    rewrite np_diff_nth, !nth_error_map in Hc.
    destruct (nth_error d i) as [a |]; [| discriminate].
    destruct (nth_error d (S i)) as [b |]; [| discriminate].
    cbn [option_map] in Hc; injection Hc as <-.
    exists a, b; repeat split; lra.
  - intros (a & b & Ha & Hb & Hne).
    split; [lia |]; exists (np_sign b - np_sign a).
    rewrite np_diff_nth, !nth_error_map, Ha, Hb; cbn [option_map].
    split; [reflexivity | lra].
Qed.

Lemma np_sub_nth (g1 g2 d : list R) (i : nat) :
  length g1 = length g2 -> np_sub g1 g2 = Ok d ->
  nth_error d i
  = match nth_error g1 i, nth_error g2 i with
    | Some a, Some b => Some (a - b)
    | _, _ => None
    end.
Proof.
  intros Hlen H; unfold np_sub in H.
  rewrite (proj2 (Nat.eqb_eq _ _) Hlen) in H; apply Ok_inj in H; subst d.
  revert g2 i Hlen; induction g1 as [| a g1 IH]; intros [| b g2] i Hlen;
    try discriminate.
  - destruct i; reflexivity.
  - destruct i as [| i]; [reflexivity |].
    cbn [combine map nth_error]; apply IH.
    cbn [length] in Hlen; lia.
Qed.

Lemma crossings_In (g1 g2 : list R) (idx : list nat) (i : nat) :
  length g1 = length g2 -> crossings g1 g2 = Ok idx ->
  In i idx <-> sign_change g1 g2 i.
Proof.
  intros Hlen H; unfold crossings in H.
  apply bind_Ok in H as (d & Hd & H); apply Ok_inj in H; subst idx.
  rewrite sign_changes_In; unfold sign_change.
  rewrite !(np_sub_nth g1 g2 d _ Hlen Hd).
  split.
  - intros (a & b & Ha & Hb & Hne).
    destruct (nth_error g1 i) as [a1 |]; [| discriminate].
    destruct (nth_error g2 i) as [a2 |]; [| discriminate].
    destruct (nth_error g1 (S i)) as [b1 |]; [| discriminate].
    destruct (nth_error g2 (S i)) as [b2 |]; [| discriminate].
    injection Ha as <-; injection Hb as <-.
    exists a1, a2, b1, b2; repeat split; exact Hne.
  - intros (a1 & a2 & b1 & b2 & -> & -> & -> & -> & Hne).
    exists (a1 - a2), (b1 - b2); repeat split; exact Hne.
Qed.

Lemma state_limit_one_crossing (numpy : numpy_release)
    (g1 g2 xline : list R) (i : nat) :
  crossings g1 g2 = Ok [i] -> state_limit numpy g1 g2 xline = item xline i.
Proof.
  intros H; rewrite state_limit_by_cases, H; cbn [bind].
  unfold take_items; cbn [mapM].
  destruct (item xline i); reflexivity.
Qed.

(** X22.  For two curves of one length whose difference changes sign at a
    single place, the state limit is the grid point just before the change:
    the point at the only position [i] where the sign of [g1 - g2] differs
    from the sign at [i + 1]; beyond the grid it is an [IndexError]. *)
Theorem single_crossing_limit (numpy : numpy_release)
    (g1 g2 xline : list R) (i : nat) :
  length g1 = length g2 ->
  crossings g1 g2 = Ok [i] ->
  state_limit numpy g1 g2 xline = item xline i
  /\ forall j, sign_change g1 g2 j <-> j = i.
Proof.
  intros Hlen H; split; [apply state_limit_one_crossing; exact H |].
  intros j; rewrite <- (crossings_In g1 g2 [i] j Hlen H).
  cbn [In]; split; [intros [-> | []]; reflexivity | intros ->; left; reflexivity].
Qed.

Lemma falling_rising_cross : crossings [2; 2; 0] [0; 1; 2] = Ok [1%nat].
Proof. unfold crossings; r_eval; reflexivity. Qed.

Lemma single_crossing_limit_witness :
  state_limit numpy_2_4 [2; 2; 0] [0; 1; 2] [5; 6; 7] = item [5; 6; 7] 1
  /\ forall j, sign_change [2; 2; 0] [0; 1; 2] j <-> j = 1%nat.
Proof.
  apply (single_crossing_limit numpy_2_4 [2; 2; 0] [0; 1; 2] [5; 6; 7] 1).
  - reflexivity.
  - exact falling_rising_cross.
Defined.

Lemma filter_only {A : Type} (f : A -> bool) (l : list A) (j : A) :
  NoDup l -> In j l -> f j = true ->
  (forall i, In i l -> i <> j -> f i = false) ->
  filter f l = [j].
Proof.
  induction l as [| a l IH]; intros Hnd Hin Hj Hothers; [contradiction |].
  apply NoDup_cons_iff in Hnd as [Hnotin Hnd].
  cbn [filter].
  destruct Hin as [-> | Hin].
  - rewrite Hj; f_equal.
    clear IH; induction l as [| b l IHl]; [reflexivity |].
    cbn [filter]; rewrite (Hothers b);
      [| right; left; reflexivity | intros ->; apply Hnotin; left; reflexivity].
    apply IHl.
    + intros H; apply Hnotin; right; exact H.
    + apply NoDup_cons_iff in Hnd as [_ Hnd]; exact Hnd.
    + intros i Hi Hne; apply Hothers; [| exact Hne].
      destruct Hi as [-> | Hi]; [left; reflexivity | right; right; exact Hi].
  - rewrite (Hothers a); [| left; reflexivity | intros ->; contradiction].
    apply IH; try assumption.
    intros i Hi Hne; apply Hothers; [right; exact Hi | exact Hne].
Qed.

Lemma filter_two {A : Type} (f : A -> bool) (l : list A) (j j' : A) :
  In j l -> In j' l -> j <> j' -> f j = true -> f j' = true ->
  (2 <= length (filter f l))%nat.
Proof.
  intros Hj Hj' Hne Hf Hf'.
  assert (Hin : In j (filter f l)) by (apply filter_In; split; assumption).
  assert (Hin' : In j' (filter f l)) by (apply filter_In; split; assumption).
  destruct (filter f l) as [| a [| b rest]]; cbn [length]; try lia.
  - contradiction.
  - destruct Hin as [<- | []]; destruct Hin' as [<- | []]; contradiction.
Qed.

Lemma crossings_NoDup (g1 g2 : list R) (idx : list nat) :
  crossings g1 g2 = Ok idx -> NoDup idx.
Proof.
  unfold crossings; intros H.
  apply bind_Ok in H as (d & _ & H); apply Ok_inj in H; subst idx.
  apply argwhere_from_NoDup.
Qed.

Lemma take_items_inside (l : list R) (idx : list nat) :
  Forall (fun i => (i < length l)%nat) idx ->
  take_items l idx = Ok (map (fun i => nth i l 0) idx).
Proof.
  intros H; apply mapM_pure; intros i Hi.
  rewrite Forall_forall in H; specialize (H i Hi).
  unfold item; rewrite (nth_error_nth' l 0 H); reflexivity.
Qed.

(** X23.  Where two curves cross at several places and the first curve is
    strictly higher at one crossing than at every other, the outcome depends
    on the NumPy release: under 1.26 and the releases before it the state
    limit is the grid point at that crossing; under 2.4 no limit is produced,
    because [float] of the one-entry array raises [TypeError].  Beyond the
    grid it is an [IndexError] in both. *)
Theorem highest_crossing_limit (g1 g2 xline : list R) (idx : list nat) (j : nat) :
  crossings g1 g2 = Ok idx ->
  (2 <= length idx)%nat ->
  Forall (fun i => (i < length g1)%nat) idx ->
  In j idx ->
  (forall i, In i idx -> i <> j -> nth i g1 0 < nth j g1 0) ->
  state_limit numpy_1_26 g1 g2 xline = item xline j
  /\ state_limit numpy_2_4 g1 g2 xline = (x <- item xline j ;; Raise TypeError).
Proof.
  intros H Hlen Hinside Hj Hhigh.
  pose proof (crossings_NoDup _ _ _ H) as Hnd.
  rewrite !state_limit_by_cases, H; cbn [bind].
  destruct idx as [| i0 [| i1 rest]]; try (cbn [length] in Hlen; lia).
  set (idx := i0 :: i1 :: rest) in *.
  rewrite (take_items_inside g1 idx Hinside); cbn [bind].
  rewrite (py_max_is _ (nth j g1 0)).
  - cbn [bind].
    rewrite (filter_only _ idx j Hnd Hj).
    + unfold take_items; cbn [mapM].
      destruct (item xline j); split; reflexivity.
    + apply Reqb_true; reflexivity.
    + intros i Hi Hne; apply Reqb_false.
      specialize (Hhigh i Hi Hne); lra.
  - apply in_map_iff; exists j; split; [reflexivity | exact Hj].
  - apply Forall_forall; intros y Hy.
    apply in_map_iff in Hy as (i & <- & Hi).
    destruct (Nat.eq_dec i j) as [-> | Hne]; [lra |].
    specialize (Hhigh i Hi Hne); lra.
Qed.

Lemma weaving_curves_cross : crossings [3; 1; 2; 0] [2; 2; 1; 1] = Ok [0; 1; 2]%nat.
Proof. unfold crossings; r_eval; reflexivity. Qed.

Lemma highest_crossing_limit_witness :
  state_limit numpy_1_26 [3; 1; 2; 0] [2; 2; 1; 1] [5; 6; 7; 8] = Ok 5
  /\ state_limit numpy_2_4 [3; 1; 2; 0] [2; 2; 1; 1] [5; 6; 7; 8] = Raise TypeError.
Proof.
  change (state_limit numpy_1_26 [3; 1; 2; 0] [2; 2; 1; 1] [5; 6; 7; 8]
          = item [5; 6; 7; 8] 0
          /\ state_limit numpy_2_4 [3; 1; 2; 0] [2; 2; 1; 1] [5; 6; 7; 8]
             = (x <- item [5; 6; 7; 8] 0 ;; Raise TypeError)).
  apply (highest_crossing_limit [3; 1; 2; 0] [2; 2; 1; 1] [5; 6; 7; 8] [0; 1; 2]%nat 0).
  - exact weaving_curves_cross.
  - simpl; lia.
  - repeat (constructor; [simpl; lia |]); constructor.
  - left; reflexivity.
  - intros i [<- | [<- | [<- | []]]] Hne; try contradiction; simpl; lra.
Defined.

(** X24.  Where two curves cross at several places and the first curve is
    highest at two of them, no state limit is produced: converting the two
    grid points to one float raises [TypeError]. *)
Theorem tied_crossings_raise_TypeError (numpy : numpy_release)
    (g1 g2 xline : list R) (idx : list nat) (j j' : nat) :
  crossings g1 g2 = Ok idx ->
  Forall (fun i => (i < length g1)%nat /\ (i < length xline)%nat) idx ->
  In j idx -> In j' idx -> j <> j' ->
  nth j' g1 0 = nth j g1 0 ->
  (forall i, In i idx -> nth i g1 0 <= nth j g1 0) ->
  state_limit numpy g1 g2 xline = Raise TypeError.
Proof.
  intros H Hinside Hj Hj' Hne Htie Hhigh.
  rewrite state_limit_by_cases, H; cbn [bind].
  destruct idx as [| i0 [| i1 rest]].
  - contradiction.
  - destruct Hj as [<- | []]; destruct Hj' as [<- | []]; contradiction.
  - set (idx := i0 :: i1 :: rest) in *.
    rewrite (take_items_inside g1 idx)
      by (eapply Forall_impl; [| exact Hinside]; intros i [Hi _]; exact Hi).
    cbn [bind]; rewrite (py_max_is _ (nth j g1 0)).
    + cbn [bind].
      set (f := fun item => Reqb (nth item g1 0) (nth j g1 0)).
      pose proof (filter_two f idx j j' Hj Hj' Hne
                    (Reqb_true _ _ eq_refl) (Reqb_true _ _ Htie)) as Hlen.
      rewrite (take_items_inside xline (filter f idx)).
      * cbn [bind].
        destruct (filter f idx) as [| a [| b more]]; cbn [length] in Hlen; try lia.
        destruct numpy; reflexivity.
      * apply Forall_forall; intros i Hi; apply filter_In in Hi as [Hi _].
        rewrite Forall_forall in Hinside; apply (Hinside i Hi).
    + apply in_map_iff; exists j; split; [reflexivity | exact Hj].
    + apply Forall_forall; intros y Hy.
      apply in_map_iff in Hy as (i & <- & Hi); apply Hhigh; exact Hi.
Qed.

Lemma level_curves_cross : crossings [3; 1; 3; 0] [2; 2; 1; 1] = Ok [0; 1; 2]%nat.
Proof. unfold crossings; r_eval; reflexivity. Qed.

Lemma tied_crossings_raise_TypeError_witness :
  state_limit numpy_2_4 [3; 1; 3; 0] [2; 2; 1; 1] [5; 6; 7; 8] = Raise TypeError.
Proof.
  apply (tied_crossings_raise_TypeError numpy_2_4 [3; 1; 3; 0] [2; 2; 1; 1] [5; 6; 7; 8]
           [0; 1; 2]%nat 0 2).
  - exact level_curves_cross.
  - repeat (constructor; [simpl; lia |]); constructor.
  - left; reflexivity.
  - right; right; left; reflexivity.
  - discriminate.
  - reflexivity.
  - intros i [<- | [<- | [<- | []]]]; simpl; lra.
Defined.

(** ** The state-limit orchestrator *)

Lemma only_sentinels_filtered (distr : list R) :
  Forall (fun v => v = 10000) distr -> without_sentinel distr = [].
Proof.
  unfold without_sentinel; induction 1 as [| v distr Hv _ IH]; [reflexivity |].
  cbn [filter]; rewrite Reqb_true by exact Hv; exact IH.
Qed.

Section Limits.

Variable np_histogram : list R -> Z -> exn + (list R * list R).
Variable curve_fit : model -> list R -> list R -> list R -> exn + list R.
Variable erf : R -> R.
Variable numpy : numpy_release.

Local Abbreviation limits_of := (determine_state_limits np_histogram curve_fit erf numpy).
Local Abbreviation smart_fit := (smart_gauss_fit np_histogram curve_fit erf).

(** X25.  A sample that holds nothing but the sentinel 10000, an empty
    sample included, gets no limits: every fit of the empty rest fails, and
    the call ends with the [IndexError] of the retries. *)
Theorem only_sentinels_raise_IndexError
    (distr : list R) (gauss_bins : Z) (gauss_smooth : option Z) :
  Forall (fun v => v = 10000) distr ->
  determine_state_limits np_histogram curve_fit erf numpy distr gauss_bins gauss_smooth
  = Raise IndexError.
Proof.
  intros H; unfold determine_state_limits.
  fold (without_sentinel distr); rewrite (only_sentinels_filtered distr H).
  unfold smart_gauss_fit.
  rewrite calls_when_all_fail by (intros bins; apply gauss_fit_empty).
  reflexivity.
Qed.

(** X26.  When the fit returns no curve or a single one, the limits are
    the two extremes of the sample without the sentinel, followed by 20000
    when the sentinel is in the sample and the maximum does not exceed it. *)
Theorem at_most_one_curve_limits
    (distr : list R) (gauss_bins : Z) (gauss_smooth : option Z)
    (gaussians : list (list R)) (xline : list R) :
  smart_fit (without_sentinel distr) gauss_bins gauss_smooth = Ok (gaussians, xline) ->
  (length gaussians <= 1)%nat ->
  exists lo hi,
    py_min (without_sentinel distr) = Ok lo
    /\ py_max (without_sentinel distr) = Ok hi
    /\ (~ In 10000 distr -> limits_of distr gauss_bins gauss_smooth = Ok [lo; hi])
    /\ (In 10000 distr -> hi <= 20000 ->
        limits_of distr gauss_bins gauss_smooth = Ok [lo; hi; 20000]).
Proof.
  intros Hfit Hone.
  destruct (smart_gauss_fit_returns _ _ _ _ _ _ _ _ Hfit)
    as (lo & hi & Hlo & Hhi & Hx & Hg).
  exists lo, hi; split; [exact Hlo | split; [exact Hhi |]].
  assert (Hle : lo <= hi).
  { destruct (py_min_spec _ _ Hlo) as [Hin _].
    destruct (py_max_spec _ _ Hhi) as [_ Hall].
    rewrite Forall_forall in Hall; apply Hall; exact Hin. }
  assert (Hios : get_intersects numpy gaussians (without_sentinel distr) xline = Ok [lo; hi]).
  { destruct gaussians as [| g [| g' rest]]; [| | cbn [length] in Hone; lia].
    - unfold get_intersects, reorder; rewrite Hlo, Hhi; reflexivity.
    - destruct (Forall_inv Hg) as (mu & sigma & A & Hgauss).
      assert (Hlen : length g = length xline).
      { unfold _gauss in Hgauss.
        destruct (negb (Reqb sigma 0)); [| discriminate].
        apply Ok_inj in Hgauss; subst g; apply length_map. }
      apply get_intersects_single; [| lia | exact Hlo | exact Hhi].
      intros ->; cbn [length] in Hlen.
      rewrite Hx, np_linspace_length, grid_points_value in Hlen; lia. }
  unfold determine_state_limits; fold (without_sentinel distr).
  rewrite Hfit; cbn [bind]; rewrite Hios; cbn [bind].
  split.
  - intros Hnot.
    destruct (1 <=? length (filter (fun item => Reqb item 10000) distr))%nat eqn:E;
      [apply sentinel_counted in E; contradiction |].
    unfold np_sort; cbn [py_sorted fold_right insert_sorted].
    rewrite Rleb_true by exact Hle; reflexivity.
  - intros Hin Hcap.
    rewrite (proj2 (sentinel_counted distr) Hin).
    unfold np_sort; cbn [app py_sorted fold_right insert_sorted].
    rewrite (Rleb_true hi) by exact Hcap; cbn [insert_sorted].
    rewrite Rleb_true by exact Hle; reflexivity.
Qed.

(** X27.  When [determine_state_limits] returns, its limits are, in another
    order at most, the minimum of the sample without the sentinel, one limit
    for each pair of neighbours among the curves retained, the maximum, and
    20000 exactly when the sample holds the sentinel. *)
Theorem state_limits_contents
    (distr : list R) (gauss_bins : Z) (gauss_smooth : option Z) (limits : list R) :
  limits_of distr gauss_bins gauss_smooth = Ok limits ->
  exists gaussians xline reorder_gaussians between lo hi,
    smart_fit (without_sentinel distr) gauss_bins gauss_smooth = Ok (gaussians, xline)
    /\ reorder gaussians xline = Ok reorder_gaussians
    /\ state_limits_between numpy reorder_gaussians xline = Ok between
    /\ length between = (length reorder_gaussians - 1)%nat
    /\ py_min (without_sentinel distr) = Ok lo
    /\ py_max (without_sentinel distr) = Ok hi
    /\ (In 10000 distr -> Permutation limits (lo :: between ++ [hi; 20000]))
    /\ (~ In 10000 distr -> Permutation limits (lo :: between ++ [hi])).
Proof.
  unfold determine_state_limits; fold (without_sentinel distr); intros H.
  apply bind_Ok in H as ([gaussians xline] & Hfit & H).
  apply bind_Ok in H as (ios & Hios & H).
  apply Ok_inj in H.
  destruct (get_intersects_returns _ _ _ _ _ Hios)
    as (lo & hi & rg & between & Hlo & Hhi & Hrg & Hbetween & ->).
  exists gaussians, xline, rg, between, lo, hi.
  split; [exact Hfit | split; [exact Hrg | split; [exact Hbetween |]]].
  split; [apply (state_limits_between_length _ _ _ _ Hbetween) |].
  split; [exact Hlo | split; [exact Hhi |]].
  destruct (1 <=? length (filter (fun item => Reqb item 10000) distr))%nat eqn:E.
  - split; [intros _ | intros Hnot; apply sentinel_counted in E; contradiction].
    rewrite <- H.
    eapply Permutation_trans; [apply py_sorted_Permutation |].
    cbn [app]; rewrite <- app_assoc; reflexivity.
  - split; [intros Hin; apply sentinel_counted in Hin; congruence | intros _].
    rewrite <- H; apply py_sorted_Permutation.
Qed.

End Limits.

Lemma only_sentinels_raise_IndexError_witness :
  determine_state_limits sample_histogram sample_fit step_erf numpy_2_4 [10000; 10000] 120 None
  = Raise IndexError.
Proof.
  apply (only_sentinels_raise_IndexError sample_histogram sample_fit step_erf
           numpy_2_4 [10000; 10000] 120 None).
  repeat (constructor; [reflexivity |]); constructor.
Defined.

Lemma sample_without_sentinel : without_sentinel sample = sample.
Proof. unfold without_sentinel, sample; r_eval; reflexivity. Qed.

Lemma sample_has_no_sentinel :
  (1 <=? length (filter (fun item => Reqb item 10000) sample))%nat = false.
Proof. unfold sample; r_eval; reflexivity. Qed.

Lemma at_most_one_curve_limits_witness :
  exists lo hi,
    py_min (without_sentinel sample) = Ok lo
    /\ py_max (without_sentinel sample) = Ok hi
    /\ (~ In 10000 sample ->
        determine_state_limits sample_histogram sample_fit step_erf numpy_2_4 sample 29
          (Some 1%Z) = Ok [lo; hi])
    /\ (In 10000 sample -> hi <= 20000 ->
        determine_state_limits sample_histogram sample_fit step_erf numpy_2_4 sample 29
          (Some 1%Z) = Ok [lo; hi; 20000]).
Proof.
  destruct sample_smart_gauss_fit as (g & _ & _ & Hfit).
  apply (at_most_one_curve_limits sample_histogram sample_fit step_erf numpy_2_4
           sample 29 (Some 1%Z) [g] (np_linspace 25000 25005.8 grid_points)).
  - rewrite sample_without_sentinel; exact Hfit.
  - simpl; lia.
Defined.

Lemma state_limits_contents_witness :
  exists gaussians xline reorder_gaussians between lo hi,
    smart_gauss_fit sample_histogram sample_fit step_erf
      (without_sentinel sample) 29 (Some 1%Z) = Ok (gaussians, xline)
    /\ reorder gaussians xline = Ok reorder_gaussians
    /\ state_limits_between numpy_2_4 reorder_gaussians xline = Ok between
    /\ length between = (length reorder_gaussians - 1)%nat
    /\ py_min (without_sentinel sample) = Ok lo
    /\ py_max (without_sentinel sample) = Ok hi
    /\ (In 10000 sample -> Permutation [25000; 25005.8] (lo :: between ++ [hi; 20000]))
    /\ (~ In 10000 sample -> Permutation [25000; 25005.8] (lo :: between ++ [hi])).
Proof.
  apply (state_limits_contents sample_histogram sample_fit step_erf numpy_2_4
           sample 29 (Some 1%Z)).
  rewrite (sample_limits _ _ sample_without_sentinel), sample_has_no_sentinel.
  unfold np_sort; r_eval; reflexivity.
Defined.

(** ** When the k-closest selector never returns *)

Lemma getitem_returns_iff {A : Type} (l : list A) (i : Z) :
  returns (getitem l i) <-> (- len l <= i < len l)%Z.
Proof.
  unfold returns, getitem, item, len.
  destruct (Z.ltb_spec i 0) as [Hneg | Hpos].
  - destruct (Z.ltb_spec (i + Z.of_nat (length l)) 0) as [Hout | Hin].
    + split; [intros (a & H); discriminate | lia].
    + destruct (nth_error l (Z.to_nat (i + Z.of_nat (length l)))) as [a |] eqn:E.
      * split; [lia | intros _; exists a; reflexivity].
      * apply nth_error_None in E; lia.
  - destruct (Z.ltb_spec i 0) as [Hneg | _]; [lia |].
    destruct (nth_error l (Z.to_nat i)) as [a |] eqn:E.
    + split; [intros _ | intros _; exists a; reflexivity].
      assert (Z.to_nat i < length l)%nat by (apply nth_error_Some; congruence).
      lia.
    + apply nth_error_None in E.
      split; [intros (a & H); discriminate | lia].
Qed.

(** X28.  [printKclosest] fails to return in one situation only: no
    neighbour is asked for ([k <= 0]), the second loop has a position to
    visit ([k < n]), and the array has an entry at that position, so that
    the loop reaches the [get] on the empty queue. *)
Theorem printKclosest_blocks_iff (arr : list R) (n : Z) (x : R) (k : Z) :
  printKclosest arr n x k = Blocked
  <-> (k <= 0 /\ k < n /\ - len arr <= k /\ 0 < len arr)%Z.
Proof.
  split.
  - intros H.
    destruct (Z.lt_ge_cases 0 k) as [Hpos | Hk];
      [exfalso; exact (unblocked_printKclosest arr n x k Hpos H) |].
    unfold printKclosest, closest_positions in H.
    rewrite (py_range_empty 0 k) in H by lia; cbn [for_each bind] in H.
    destruct (Z.lt_ge_cases k n) as [Hn | Hn];
      [| rewrite (py_range_empty k n) in H by lia; discriminate].
    rewrite (py_range_cons k n Hn) in H; cbn [for_each] in H.
    unfold select_step at 1 in H.
    destruct (getitem arr k) as [v | e |] eqn:Ev; cbn [bind pq_get] in H;
      [| discriminate | exfalso; exact (unblocked_getitem arr k Ev)].
    assert (Hrange : (- len arr <= k < len arr)%Z)
      by (apply getitem_returns_iff; exists v; exact Ev).
    lia.
  - intros (Hk & Hn & Hlo & Hlen).
    unfold printKclosest, closest_positions.
    rewrite (py_range_empty 0 k) by lia; cbn [for_each bind].
    rewrite (py_range_cons k n Hn); cbn [for_each].
    unfold select_step at 1.
    destruct (proj2 (getitem_returns_iff arr k) ltac:(lia)) as (v & ->).
    reflexivity.
Qed.

(** ** The positions of the fitted parameters *)

(** X29.  For a parameter array of [3 n] entries the pruning loop visits the
    positions [0, 3, ..., 3 n - 3] in this order: the first parameter of each
    fitted component, once. *)
Theorem gauss_num_space_visits_each_component (n : nat) :
  gauss_num_space (3 * n) = map (fun i => (3 * i)%nat) (seq 0 n).
Proof.
  unfold gauss_num_space.
  replace (3 * n / 3)%nat with n by (rewrite Nat.mul_comm, Nat.div_mul; lia).
  destruct n as [| [| m]]; [reflexivity | reflexivity |].
  apply map_ext_in; intros i _.
  replace (3 * S (S m) - 3)%nat with (3 * S m)%nat by lia.
  rewrite Nat.mul_assoc, Nat.div_mul by lia; lia.
Qed.

(** * A run with two curves and the sentinel *)

(** The sample [two_peaks] with one sentinel in front: the histogram has two
    peaks, the fit returns two components, both are kept, and the two curves
    do not cross, so the one limit between the extremes comes from the
    fallback. *)

Lemma two_peaks_closest_tall :
  printKclosest two_peaks_density (len two_peaks_density) (4 * 0.5) noc
  = Ok (repeat (Fmt 0) 22 ++ [Fmt 0.5; Fmt 0.5; Fmt 1; Fmt 1; Fmt 1; Fmt 2]).
Proof.
  unfold printKclosest, closest_positions, noc.
  change (len two_peaks_density) with 32%Z.
  let l := eval vm_compute in (py_range 0 28) in change (py_range 0 28) with l.
  let l := eval vm_compute in (py_range 28 32) in change (py_range 28 32) with l.
  r_eval; reflexivity.
Qed.

Lemma two_peaks_closest_low :
  printKclosest two_peaks_density (len two_peaks_density) (2 * 0.5) noc
  = Ok (repeat (Fmt 0) 23 ++ [Fmt 0.5; Fmt 0.5; Fmt 1; Fmt 1; Fmt 1]).
Proof.
  unfold printKclosest, closest_positions, noc.
  change (len two_peaks_density) with 32%Z.
  let l := eval vm_compute in (py_range 0 28) in change (py_range 0 28) with l.
  let l := eval vm_compute in (py_range 28 32) in change (py_range 28 32) with l.
  r_eval; reflexivity.
Qed.

(** The peak of height 4 sits at 0.1 and the peak of height 2 at 0.5; for
    each, the nearest of the 28 samples closest to half its height sits one
    bin to the left. *)
Lemma two_peaks_half_height_tall :
  half_height_x two_peaks_x two_peaks_density 4 = Ok (0.1, 0).
Proof.
  unfold half_height_x; rewrite two_peaks_closest_tall.
  r_eval.
  rewrite (find_nearest_is _ _ 0).
  - reflexivity.
  - r_in.
  - r_forall ltac:(first [left; reflexivity | right; r_decide; lra]).
Qed.

Lemma two_peaks_half_height_low :
  half_height_x two_peaks_x two_peaks_density 2 = Ok (0.5, 0.4).
Proof.
  unfold half_height_x; rewrite two_peaks_closest_low.
  r_eval.
  rewrite (find_nearest_is _ _ 0.4).
  - reflexivity.
  - r_in.
  - r_forall ltac:(first [left; reflexivity | right; r_decide; lra]).
Qed.

Lemma two_peaks_first_guess :
  first_guess two_peaks_x two_peaks_density [4; 2]
  = Ok ([0.1; 0.5],
        [Rabs (0 - 0.1) / (2 * sqrt (2 * ln 2));
         Rabs (0.4 - 0.5) / (2 * sqrt (2 * ln 2))]).
Proof.
  unfold first_guess; cbn [mapM].
  rewrite (proj2 (peak_sigma_from_half_height _ _ _ _ _ two_peaks_half_height_tall)).
  rewrite (proj2 (peak_sigma_from_half_height _ _ _ _ _ two_peaks_half_height_low)).
  cbn [bind].
  replace (where_first two_peaks_density 4) with (Ok 1%nat) by (r_eval; reflexivity).
  replace (where_first two_peaks_density 2) with (Ok 5%nat) by (r_eval; reflexivity).
  reflexivity.
Qed.

Lemma two_peaks_min : py_min two_peaks = Ok 0.
Proof. apply py_min_is; [r_in | r_forall lra]. Qed.

Lemma two_peaks_max : py_max two_peaks = Ok 3.2.
Proof. apply py_max_is; [r_in | r_forall lra]. Qed.

(** The run of [gauss_fit]: two peaks are retained, the fit is asked for two
    components, and both of its components pass the pruning. *)
Lemma two_peaks_gauss_fit :
  gauss_fit two_peaks_histogram two_peaks_fit sign_erf two_peaks 32 1
  = Ok ([two_peaks_wide; two_peaks_thin], two_peaks_grid).
Proof.
  unfold gauss_fit, two_peaks_histogram; cbn [external bind fst snd].
  replace (smooth (array1 (removelast two_peaks_edges)) 1 None)
    with (Ok (array1 two_peaks_x)) by reflexivity.
  rewrite (py_min_is two_peaks_density 0)
    by first [solve [r_in] | solve [r_forall lra]].
  cbn [bind flat array1].
  replace (map (fun h => h - 0) two_peaks_density) with two_peaks_density
    by (unfold two_peaks_density; cbn [map]; repeat f_equal; lra).
  replace (smooth (array1 two_peaks_density) 1 None)
    with (Ok (array1 two_peaks_density)) by reflexivity.
  cbn [bind flat array1].
  replace (take_items two_peaks_density (argrelextrema_greater two_peaks_density))
    with (Ok [4; 2]) by (r_eval; reflexivity).
  cbn [bind]; unfold significant.
  rewrite (py_max_is two_peaks_density 4)
    by first [solve [r_in] | solve [r_forall lra]].
  cbn [bind filter]; rewrite !Rltb_true by lra.
  rewrite two_peaks_first_guess; cbn [bind].
  rewrite two_peaks_min, two_peaks_max; cbn [bind].
  change (select_mode [Rabs (0 - 0.1) / (2 * sqrt (2 * ln 2));
                       Rabs (0.4 - 0.5) / (2 * sqrt (2 * ln 2))])
    with (Ok _bimodal).
  cbn [bind interleave3 external two_peaks_fit length].
  change (gauss_num_space 6) with [0; 3]%nat.
  cbn [mapM]; unfold keep_component.
  rewrite two_peaks_min, two_peaks_max.
  cbn [bind item nth_error Nat.add].
  unfold _integral, erf_of_quotient, sign_erf.
  assert (Hs := sqrt2_pos).
  assert (Hwide : 0 < / (3.2 * sqrt 2)) by (apply Rinv_0_lt_compat; nra).
  assert (Hthin : 0 < / (0.1 * sqrt 2)) by (apply Rinv_0_lt_compat; nra).
  rewrite (Reqb_false (3.2 * sqrt 2) 0), (Reqb_false (0.1 * sqrt 2) 0) by nra.
  rewrite (Rltb_true 0 ((3.2 - 0) / (3.2 * sqrt 2))) by (unfold Rdiv; nra).
  rewrite (Rltb_false 0 ((0 - 0) / (3.2 * sqrt 2))) by (unfold Rdiv; nra).
  rewrite (Rltb_false ((0 - 0) / (3.2 * sqrt 2)) 0) by (unfold Rdiv; nra).
  rewrite (Rltb_false 0 ((3.2 - 3.2) / (0.1 * sqrt 2))) by (unfold Rdiv; nra).
  rewrite (Rltb_false ((3.2 - 3.2) / (0.1 * sqrt 2)) 0) by (unfold Rdiv; nra).
  rewrite (Rltb_false 0 ((0 - 3.2) / (0.1 * sqrt 2))) by (unfold Rdiv; nra).
  rewrite (Rltb_true ((0 - 3.2) / (0.1 * sqrt 2)) 0) by (unfold Rdiv; nra).
  cbn [option_map differ_by_more_than].
  rewrite (Rltb_true 0.02 (Rabs (4 / 2 * (1 + 1) - 4 / 2 * (1 + 0))))
    by (rewrite Rabs_pos_eq; lra).
  rewrite (Rltb_true 0.02 (Rabs (0.1 / 2 * (1 + 0) - 0.1 / 2 * (1 + -1))))
    by (rewrite Rabs_pos_eq; lra).
  rewrite !_gauss_nonzero_sigma by lra.
  reflexivity.
Qed.

Lemma two_peaks_smart_gauss_fit :
  smart_gauss_fit two_peaks_histogram two_peaks_fit sign_erf two_peaks 32 (Some 1%Z)
  = Ok ([two_peaks_wide; two_peaks_thin], two_peaks_grid).
Proof.
  unfold smart_gauss_fit, smart_gauss_fit_calls.
  rewrite retry_loop_step, two_peaks_gauss_fit; reflexivity.
Qed.

(** The grid starts at the least value, ends at the greatest and stays
    strictly between the two everywhere else. *)
Lemma np_linspace_split (start stop : R) (num : nat) :
  (2 <= num)%nat -> start < stop ->
  exists mid,
    np_linspace start stop num = start :: mid ++ [stop]
    /\ Forall (fun x => start < x < stop) mid.
Proof.
  intros Hnum Hlt; destruct num as [| [| n]]; try lia.
  exists (map (fun i => start + INR i * ((stop - start) / INR (S n))) (seq 1 n)).
  split.
  - unfold np_linspace; cbn [seq map app]; f_equal.
    change (INR 0) with 0; rewrite Rmult_0_l, Rplus_0_r; reflexivity.
  - apply Forall_forall; intros x Hx.
    apply in_map_iff in Hx as (i & <- & Hi).
    apply in_seq in Hi.
    assert (Hi0 : 0 < INR i) by (apply lt_0_INR; lia).
    assert (Hin : INR i < INR (S n)) by (apply lt_INR; lia).
    set (step := (stop - start) / INR (S n)).
    assert (Hstep : 0 < step).
    { unfold step; apply Rmult_lt_0_compat; [lra |].
      apply Rinv_0_lt_compat; lra. }
    assert (Hfull : INR (S n) * step = stop - start).
    { unfold step; field; lra. }
    split; nra.
Qed.

Lemma gauss_formula_at_centre (x0 sigma a : R) : gauss_formula x0 sigma a x0 = Rabs a.
Proof.
  unfold gauss_formula.
  replace (- (x0 - x0) ^ 2 / (2 * sigma ^ 2)) with 0
    by (unfold Rdiv; ring).
  rewrite exp_0; ring.
Qed.

Lemma gauss_formula_below_top (x0 sigma a xi : R) :
  sigma <> 0 -> a <> 0 -> xi <> x0 -> gauss_formula x0 sigma a xi < Rabs a.
Proof.
  intros Hs Ha Hx; unfold gauss_formula.
  pose proof (Rabs_pos_lt a Ha) as Hpos.
  set (t := - (xi - x0) ^ 2 / (2 * sigma ^ 2)).
  assert (Ht : t < 0).
  { unfold t.
    assert (0 < 2 * sigma ^ 2) by nra.
    assert (0 < (xi - x0) ^ 2) by (assert (xi - x0 <> 0) by lra; nra).
    apply Rmult_lt_reg_r with (2 * sigma ^ 2); [assumption |].
    unfold Rdiv; rewrite Rmult_assoc, Rinv_l by lra; lra. }
  assert (He : exp t < 1) by (rewrite <- exp_0; apply exp_increasing; exact Ht).
  pose proof (exp_pos t); nra.
Qed.

(** A curve whose first value is its greatest peaks at the first grid point. *)
Lemma peak_at_head (top x : R) (rest xrest : list R) :
  Forall (fun v => v <= top) rest ->
  py_max (top :: rest) = Ok top /\ peak_x (top :: rest) (x :: xrest) = Ok x.
Proof.
  intros Hall.
  assert (Htop : py_max (top :: rest) = Ok top).
  { apply py_max_is; [left; reflexivity | constructor; [lra | exact Hall]]. }
  split; [exact Htop |].
  apply (peak_x_is _ _ top x 0%nat); [exact Htop | | reflexivity].
  cbn [find_index]; rewrite Reqb_true by reflexivity; reflexivity.
Qed.

Lemma find_index_last (v : R) (front : list R) :
  Forall (fun a => a <> v) front -> find_index v (front ++ [v]) = Some (length front).
Proof.
  induction 1 as [| a front Ha _ IH]; cbn [app find_index length].
  - rewrite Reqb_true by reflexivity; reflexivity.
  - rewrite Reqb_false by exact Ha; rewrite IH; reflexivity.
Qed.

(** A curve whose last value exceeds all others peaks at the last grid
    point. *)
Lemma peak_at_last (top x : R) (front xfront : list R) :
  Forall (fun v => v < top) front -> length front = length xfront ->
  py_max (front ++ [top]) = Ok top
  /\ peak_x (front ++ [top]) (xfront ++ [x]) = Ok x.
Proof.
  intros Hall Hlen.
  assert (Htop : py_max (front ++ [top]) = Ok top).
  { apply py_max_is; [apply in_or_app; right; left; reflexivity |].
    apply Forall_app; split; [| constructor; [lra | constructor]].
    eapply Forall_impl; [| exact Hall]; intros v Hv; cbn beta in Hv; lra. }
  split; [exact Htop |].
  apply (peak_x_is _ _ top x (length front)); [exact Htop | |].
  - apply find_index_last.
    eapply Forall_impl; [| exact Hall]; intros v Hv; cbn beta in Hv; lra.
  - rewrite Hlen, nth_error_app2 by lia.
    rewrite Nat.sub_diag; reflexivity.
Qed.

Lemma np_sign_positive (r : R) : 0 < r -> np_sign r = 1.
Proof.
  intros Hr; unfold np_sign.
  rewrite Rltb_false by lra; rewrite Rltb_true by exact Hr; reflexivity.
Qed.

(** A curve that lies above another one at every grid point crosses it
    nowhere. *)
Lemma crossings_none (g1 g2 : list R) :
  length g1 = length g2 ->
  (forall i a b, nth_error g1 i = Some a -> nth_error g2 i = Some b -> b < a) ->
  crossings g1 g2 = Ok [].
Proof.
  intros Hlen Habove.
  assert (Hret : exists idx, crossings g1 g2 = Ok idx).
  { unfold crossings, np_sub.
    rewrite (proj2 (Nat.eqb_eq _ _) Hlen); eexists; reflexivity. }
  destruct Hret as [idx Hidx]; rewrite Hidx; f_equal.
  destruct idx as [| i idx]; [reflexivity | exfalso].
  assert (Hin : In i (i :: idx)) by (left; reflexivity).
  apply (crossings_In g1 g2 _ i Hlen Hidx) in Hin.
  destruct Hin as (a1 & a2 & b1 & b2 & Ha1 & Ha2 & Hb1 & Hb2 & Hne).
  apply Hne.
  pose proof (Habove _ _ _ Ha1 Ha2); pose proof (Habove _ _ _ Hb1 Hb2).
  rewrite !np_sign_positive by lra; reflexivity.
Qed.

(** Two retained curves that peak apart and do not cross: they keep their
    order, and the one limit between the extremes is the fallback value. *)
Lemma get_intersects_two_apart (numpy : numpy_release)
    (g1 g2 distribution xline : list R) (lo hi x1 x2 top1 top2 : R) :
  py_min distribution = Ok lo -> py_max distribution = Ok hi ->
  peak_x g1 xline = Ok x1 -> peak_x g2 xline = Ok x2 -> x1 < x2 ->
  py_max g1 = Ok top1 -> py_max g2 = Ok top2 -> 0.0001 < top1 -> 0.0001 < top2 ->
  crossings g1 g2 = Ok [] ->
  reorder [g1; g2] xline = Ok [g1; g2]
  /\ state_limits_between numpy [g1; g2] xline = Ok [0.5 * Rabs (x2 + x1)]
  /\ get_intersects numpy [g1; g2] distribution xline
     = Ok [lo; 0.5 * Rabs (x2 + x1); hi].
Proof.
  intros Hlo Hhi H1 H2 Hlt Htop1 Htop2 Hbig1 Hbig2 Hcross.
  assert (Hreorder : reorder [g1; g2] xline = Ok [g1; g2]).
  { pose proof H1 as H1'; pose proof H2 as H2'.
    unfold peak_x in H1', H2'; unfold reorder.
    cbn [mapM]; rewrite H1', H2'; cbn [bind].
    cbn [py_sorted fold_right insert_sorted].
    rewrite Rleb_true by lra; cbn [mapM].
    unfold index_of; cbn [find_index].
    rewrite (Reqb_true x1 x1), (Reqb_false x1 x2), (Reqb_true x2 x2)
      by first [reflexivity | lra].
    cbn [option_map bind mapM item nth_error]; rewrite Htop1, Htop2; cbn [bind].
    rewrite !Rltb_true by assumption; reflexivity. }
  assert (Hbetween : state_limits_between numpy [g1; g2] xline
                     = Ok [0.5 * Rabs (x2 + x1)]).
  { cbn [state_limits_between].
    rewrite (proj1 (state_limit_without_crossing numpy g1 g2 xline x1 x2 Hcross H1 H2)).
    reflexivity. }
  split; [exact Hreorder | split; [exact Hbetween |]].
  unfold get_intersects; rewrite Hlo, Hreorder; cbn [bind].
  rewrite Hbetween, Hhi; reflexivity.
Qed.

Lemma two_peaks_grid_split :
  exists mid,
    two_peaks_grid = 0 :: mid ++ [3.2] /\ Forall (fun x => 0 < x < 3.2) mid.
Proof.
  apply np_linspace_split; [rewrite grid_points_value; lia | lra].
Qed.

Lemma two_peaks_grid_between : Forall (fun x => 0 <= x <= 3.2) two_peaks_grid.
Proof. apply np_linspace_between; lra. Qed.

(** The broad curve is at its height 4 at the first grid point and nowhere
    below 2. *)
Lemma two_peaks_wide_peak :
  py_max two_peaks_wide = Ok 4 /\ peak_x two_peaks_wide two_peaks_grid = Ok 0.
Proof.
  destruct two_peaks_grid_split as (mid & Hgrid & _).
  unfold two_peaks_wide; rewrite Hgrid; cbn [map].
  rewrite gauss_formula_at_centre, (Rabs_pos_eq 4) by lra.
  apply peak_at_head.
  apply Forall_forall; intros v Hv.
  apply in_map_iff in Hv as (x & <- & _).
  pose proof (gauss_formula_range 0 3.2 4 x) as Hr.
  rewrite (Rabs_pos_eq 4) in Hr by lra; lra.
Qed.

Lemma two_peaks_wide_above (x : R) : 0 <= x <= 3.2 -> 2 <= gauss_formula 0 3.2 4 x.
Proof.
  intros Hx; unfold gauss_formula; rewrite (Rabs_pos_eq 4) by lra.
  set (t := - (x - 0) ^ 2 / (2 * 3.2 ^ 2)).
  assert (Hc : / (2 * 3.2 ^ 2) = 100 / 2048).
  { apply Rmult_eq_reg_l with (2 * 3.2 ^ 2); [rewrite Rinv_r by lra; lra | lra]. }
  assert (Hsq : 0 <= x * x <= 10.24) by nra.
  assert (Ht : - / 2 <= t).
  { unfold t, Rdiv; rewrite Hc.
    replace ((x - 0) ^ 2) with (x * x) by ring; lra. }
  pose proof (exp_ineq1_le t); lra.
Qed.

(** The thin curve is at its height 0.1 at the last grid point only. *)
Lemma two_peaks_thin_peak :
  py_max two_peaks_thin = Ok 0.1 /\ peak_x two_peaks_thin two_peaks_grid = Ok 3.2.
Proof.
  destruct two_peaks_grid_split as (mid & Hgrid & Hmid).
  assert (Hshape : two_peaks_thin
                   = map (gauss_formula 3.2 0.1 0.1) (0 :: mid) ++ [0.1]).
  { unfold two_peaks_thin; rewrite Hgrid.
    change (0 :: mid ++ [3.2]) with ((0 :: mid) ++ [3.2]).
    rewrite map_app; f_equal; cbn [map]; f_equal.
    rewrite gauss_formula_at_centre; apply Rabs_pos_eq; lra. }
  rewrite Hshape, Hgrid.
  change (0 :: mid ++ [3.2]) with ((0 :: mid) ++ [3.2]).
  apply peak_at_last; [| apply length_map].
  apply Forall_forall; intros v Hv.
  apply in_map_iff in Hv as (x & <- & Hx).
  assert (Hne : x <> 3.2).
  { destruct Hx as [<- | Hx]; [lra |].
    rewrite Forall_forall in Hmid; specialize (Hmid x Hx); lra. }
  pose proof (gauss_formula_below_top 3.2 0.1 0.1 x) as Hr.
  rewrite (Rabs_pos_eq 0.1) in Hr by lra; apply Hr; lra.
Qed.

Lemma two_peaks_no_crossing : crossings two_peaks_wide two_peaks_thin = Ok [].
Proof.
  apply crossings_none.
  - unfold two_peaks_wide, two_peaks_thin; rewrite !length_map; reflexivity.
  - intros i a b Ha Hb; unfold two_peaks_wide, two_peaks_thin in Ha, Hb.
    rewrite nth_error_map in Ha, Hb.
    destruct (nth_error two_peaks_grid i) as [x |] eqn:Ex; [| discriminate].
    cbn [option_map] in Ha, Hb; injection Ha as <-; injection Hb as <-.
    apply nth_error_In in Ex.
    pose proof two_peaks_grid_between as Hgrid.
    rewrite Forall_forall in Hgrid; specialize (Hgrid x Ex).
    pose proof (two_peaks_wide_above x Hgrid).
    pose proof (gauss_formula_range 3.2 0.1 0.1 x) as Hr.
    rewrite (Rabs_pos_eq 0.1) in Hr by lra; lra.
Qed.

(** The two curves do not cross, so the fallback applies to them; their peaks
    are at 0 and at 3.2, so it is sound. *)
Lemma two_peaks_fallback_sound :
  fallback_sound [two_peaks_wide; two_peaks_thin] two_peaks_grid.
Proof.
  cbn [fallback_sound]; split; [| exact I].
  intros x1 x2 _ H1 H2.
  rewrite (proj2 two_peaks_wide_peak) in H1; apply Ok_inj in H1.
  rewrite (proj2 two_peaks_thin_peak) in H2; apply Ok_inj in H2.
  lra.
Qed.

Lemma two_peaks_intersects (numpy : numpy_release) :
  reorder [two_peaks_wide; two_peaks_thin] two_peaks_grid
  = Ok [two_peaks_wide; two_peaks_thin]
  /\ state_limits_between numpy [two_peaks_wide; two_peaks_thin] two_peaks_grid
     = Ok [1.6]
  /\ get_intersects numpy [two_peaks_wide; two_peaks_thin] two_peaks two_peaks_grid
     = Ok [0; 1.6; 3.2].
Proof.
  replace 1.6 with (0.5 * Rabs (3.2 + 0)) by (rewrite Rabs_pos_eq; lra).
  apply (get_intersects_two_apart numpy _ _ _ _ 0 3.2 0 3.2 4 0.1).
  - exact two_peaks_min.
  - exact two_peaks_max.
  - exact (proj2 two_peaks_wide_peak).
  - exact (proj2 two_peaks_thin_peak).
  - lra.
  - exact (proj1 two_peaks_wide_peak).
  - exact (proj1 two_peaks_thin_peak).
  - lra.
  - lra.
  - exact two_peaks_no_crossing.
Qed.

Lemma without_sentinel_none (l : list R) :
  Forall (fun x => x <> 10000) l -> without_sentinel l = l.
Proof.
  unfold without_sentinel; induction 1 as [| a l Ha _ IH]; cbn [filter];
    [reflexivity |].
  rewrite Reqb_false by exact Ha; cbn [negb]; f_equal; exact IH.
Qed.

Lemma without_sentinel_cons (l : list R) :
  without_sentinel (10000 :: l) = without_sentinel l.
Proof.
  unfold without_sentinel; cbn [filter].
  rewrite Reqb_true by reflexivity; reflexivity.
Qed.

Lemma two_peaks_without_sentinel : without_sentinel (10000 :: two_peaks) = two_peaks.
Proof.
  rewrite without_sentinel_cons.
  apply without_sentinel_none; r_forall lra.
Qed.

(** The run on [two_peaks] with one sentinel in front. *)
Lemma two_peaks_limits (numpy : numpy_release) :
  determine_state_limits two_peaks_histogram two_peaks_fit sign_erf numpy
    (10000 :: two_peaks) 32 (Some 1%Z)
  = Ok [0; 1.6; 3.2; 20000].
Proof.
  unfold determine_state_limits.
  fold (without_sentinel (10000 :: two_peaks)).
  rewrite two_peaks_without_sentinel, two_peaks_smart_gauss_fit; cbn [bind].
  rewrite (proj2 (proj2 (two_peaks_intersects numpy))); cbn [bind].
  replace (1 <=? length (filter (fun item => Reqb item 10000)
                           (10000%R :: two_peaks)))%nat
    with true by (symmetry; apply sentinel_counted; left; reflexivity).
  unfold np_sort; r_eval; reflexivity.
Qed.

(** C1 on that run: the sample holds the sentinel, two curves are retained
    and do not cross, and the fallback gives the one limit between the
    extremes. *)
Lemma state_limits_sorted_between_extremes_witness :
  determine_state_limits two_peaks_histogram two_peaks_fit sign_erf numpy_2_4
    (10000 :: two_peaks) 32 (Some 1%Z)
  = Ok [0; 1.6; 3.2; 20000]
  /\ In 10000 (10000 :: two_peaks)
  /\ crossings two_peaks_wide two_peaks_thin = Ok []
  /\ fallback_sound [two_peaks_wide; two_peaks_thin] two_peaks_grid
  /\ smart_gauss_fit two_peaks_histogram two_peaks_fit sign_erf
       (without_sentinel (10000 :: two_peaks)) 32 (Some 1%Z)
     = Ok ([two_peaks_wide; two_peaks_thin], two_peaks_grid)
  /\ reorder [two_peaks_wide; two_peaks_thin] two_peaks_grid
     = Ok [two_peaks_wide; two_peaks_thin]
  /\ state_limits_between numpy_2_4 [two_peaks_wide; two_peaks_thin] two_peaks_grid
     = Ok [1.6]
  /\ py_min (without_sentinel (10000 :: two_peaks)) = Ok 0
  /\ py_max (without_sentinel (10000 :: two_peaks)) = Ok 3.2
  /\ StronglySorted Rle [0; 1.6; 3.2; 20000]
  /\ Forall (fun b => 0 <= b) [1.6]
  /\ (fallback_sound [two_peaks_wide; two_peaks_thin] two_peaks_grid ->
      Forall (fun b => b <= 3.2) [1.6])
  /\ (hd_error [0; 1.6; 3.2; 20000] = Some 0
      <-> (In 10000 (10000 :: two_peaks) -> 0 <= 20000))
  /\ (In 10000 (10000 :: two_peaks) ->
      (last [0; 1.6; 3.2; 20000] 0 = 20000
       <-> 3.2 <= 20000 /\ Forall (fun b => b <= 20000) [1.6]))
  /\ (~ In 10000 (10000 :: two_peaks) ->
      (last [0; 1.6; 3.2; 20000] 0 = 3.2 <-> Forall (fun b => b <= 3.2) [1.6])).
Proof.
  pose proof (two_peaks_limits numpy_2_4) as Hrun.
  destruct (state_limits_sorted_between_extremes two_peaks_histogram two_peaks_fit
              sign_erf numpy_2_4 (10000 :: two_peaks) 32 (Some 1%Z)
              [0; 1.6; 3.2; 20000] Hrun)
    as (gaussians & xline & rg & between & lo & hi
        & Hfit & Hrg & Hbetween & Hlo & Hhi & Hrest).
  pose proof Hfit as Hfit'.
  rewrite two_peaks_without_sentinel, two_peaks_smart_gauss_fit in Hfit'.
  apply Ok_inj in Hfit'; apply pair_equal_spec in Hfit' as [<- <-].
  pose proof Hrg as Hrg'.
  rewrite (proj1 (two_peaks_intersects numpy_2_4)) in Hrg'.
  apply Ok_inj in Hrg'; subst rg.
  pose proof Hbetween as Hbetween'.
  rewrite (proj1 (proj2 (two_peaks_intersects numpy_2_4))) in Hbetween'.
  apply Ok_inj in Hbetween'; subst between.
  pose proof Hlo as Hlo'; pose proof Hhi as Hhi'.
  rewrite two_peaks_without_sentinel, two_peaks_min in Hlo'.
  rewrite two_peaks_without_sentinel, two_peaks_max in Hhi'.
  apply Ok_inj in Hlo'; apply Ok_inj in Hhi'; subst lo hi.
  split; [exact Hrun | split; [left; reflexivity |]].
  split; [exact two_peaks_no_crossing | split; [exact two_peaks_fallback_sound |]].
  split; [exact Hfit | split; [exact Hrg | split; [exact Hbetween |]]].
  split; [exact Hlo | split; [exact Hhi | exact Hrest]].
Defined.
